(** * teneo-bot: a shallow embedding of [bot.py]

    The bot is a single Python module: a retrying HTTP helper
    ([safe_request]), seven thin API operations, three cycle policies and a
    polling loop built on the [schedule] package.  Everything the program
    does is observable as a sequence of HTTP attempts, sleeps and log lines,
    so the embedding is a state monad that also collects the events a
    computation emits, with Python exceptions as a second kind of result. *)

From Stdlib Require Import ZArith List String Bool Arith Lia SpecFloat DecimalString.
From Stdlib Require Import Permutation Sorted.
Import ListNotations.
Open Scope string_scope.

Set Implicit Arguments.
Set Warnings "-register-all".

(** ** Python values

    What [r.json()] hands back, and what the cycle code computes with.
    [PNone] is both the JSON [null] and the value [safe_request] returns when
    it gives up.  A decoded object keeps its items in insertion order; its
    keys are distinct, so looking a key up from the front of the list is the
    dictionary lookup.  Floats are IEEE binary64 values in the Standard
    Library's specification format. *)

Inductive pyval : Type :=
| PNone
| PBool (b : bool)
| PInt (z : Z)
| PFloat (f : spec_float)
| PStr (s : string)
| PList (l : list pyval)
| PDict (kvs : list (string * pyval)).

Definition type_name (v : pyval) : string :=
  match v with
  | PNone => "NoneType"
  | PBool _ => "bool"
  | PInt _ => "int"
  | PFloat _ => "float"
  | PStr _ => "str"
  | PList _ => "list"
  | PDict _ => "dict"
  end.

(** Truth value testing, as [if data], [if peak] and [not x] apply it. *)
Definition float_is_zero (f : spec_float) : bool :=
  match f with
  | S754_zero _ => true
  | _ => false
  end.

Definition truthy (v : pyval) : bool :=
  match v with
  | PNone => false
  | PBool b => b
  | PInt z => negb (z =? 0)%Z
  | PFloat f => negb (float_is_zero f)
  | PStr s => negb (s =? "")
  | PList l => match l with [] => false | _ => true end
  | PDict kvs => match kvs with [] => false | _ => true end
  end.

(** *** Numbers and [>=]

    Python compares an [int] with a [float] by value, exactly, so both are
    read as a sign-and-magnitude dyadic [m * 2 ^ e], an infinity or a NaN. *)

Inductive xnum : Type :=
| XNaN
| XInf (negative : bool)
| XFin (m e : Z).

Definition xnum_of_float (f : spec_float) : xnum :=
  match f with
  | S754_zero _ => XFin 0 0
  | S754_infinity s => XInf s
  | S754_nan => XNaN
  | S754_finite s m e => XFin (if s then Z.neg m else Z.pos m) e
  end.

Definition xnum_of_int (z : Z) : xnum := XFin z 0.

(** [None] when either side is a NaN: every ordered comparison is then false. *)
Definition xnum_compare (a b : xnum) : option comparison :=
  match a, b with
  | XNaN, _ | _, XNaN => None
  | XInf sa, XInf sb =>
      Some (match sa, sb with
            | true, false => Lt
            | false, true => Gt
            | _, _ => Eq
            end)
  | XInf sa, XFin _ _ => Some (if sa then Lt else Gt)
  | XFin _ _, XInf sb => Some (if sb then Gt else Lt)
  | XFin m1 e1, XFin m2 e2 =>
      let e := Z.min e1 e2 in
      Some (Z.compare (m1 * 2 ^ (e1 - e)) (m2 * 2 ^ (e2 - e)))
  end.

Definition xnum_ge (a b : xnum) : bool :=
  match xnum_compare a b with
  | Some Gt | Some Eq => true
  | _ => false
  end.

(** The numeric reading of a value: [bool] is a subclass of [int]. *)
Definition as_number (v : pyval) : option xnum :=
  match v with
  | PBool b => Some (xnum_of_int (if b then 1 else 0))
  | PInt z => Some (xnum_of_int z)
  | PFloat f => Some (xnum_of_float f)
  | _ => None
  end.

(** ** Exceptions and results *)

(** The exceptions the program meets, each with its message [str(e)].  All
    are subclasses of [Exception], so the [except Exception] of the polling
    loop catches every one of them; none is a [requests.RequestException]. *)
Inductive exn : Type :=
| AttributeError (msg : string)
| TypeError (msg : string)
| EnvironmentError (msg : string)
| ValueError (msg : string)
| RecursionError (msg : string).

Definition exn_str (e : exn) : string :=
  match e with
  | AttributeError m => m
  | TypeError m => m
  | EnvironmentError m => m
  | ValueError m => m
  | RecursionError m => m
  end.

Inductive outcome (A : Type) : Type :=
| Ret (a : A)
| Raise (e : exn).
Arguments Ret {A} a.
Arguments Raise {A} e.

(** [x >= c] for a numeric constant [c]: every value that is not a number
    makes Python raise [TypeError]. *)
Definition py_ge (x c : pyval) : outcome bool :=
  match as_number x, as_number c with
  | Some a, Some b => Ret (xnum_ge a b)
  | _, _ =>
      Raise (TypeError ("'>=' not supported between instances of '"
                          ++ type_name x ++ "' and '" ++ type_name c ++ "'"))
  end.

Fixpoint dict_lookup (key : string) (kvs : list (string * pyval)) : option pyval :=
  match kvs with
  | [] => None
  | (k, v) :: rest => if k =? key then Some v else dict_lookup key rest
  end.

(** [data.get(key, default) if data else default] *)
Definition get_if_data (data : pyval) (key : string) (default : pyval) : outcome pyval :=
  if truthy data then
    match data with
    | PDict kvs =>
        Ret (match dict_lookup key kvs with
             | Some v => v
             | None => default
             end)
    | _ => Raise (AttributeError ("'" ++ type_name data ++ "' object has no attribute 'get'"))
    end
  else Ret default.

(** ** The outside world *)

Inductive http_method : Type := GET | POST.

(** The arguments of one [requests.request(method, url, headers=HEADERS,
    timeout=10, **kwargs)]; [req_json] is the [json=] keyword when given. *)
Record request : Type := mkRequest {
  req_method : http_method;
  req_url : string;
  req_headers : list (string * string);
  req_timeout : nat;
  req_json : option pyval
}.

(** What the three statements of the [try] body come to: the decoded payload;
    or a [requests.RequestException] (no connection, a timeout, an error
    status turned into [HTTPError] by [raise_for_status], or a body that
    [r.json()] cannot parse), with the text [str(e)] of the exception; or an
    exception of another class, which [except requests.RequestException] does
    not match: the [ValueError] of [r.json()] on an integer literal longer
    than the interpreter's digit limit, its [RecursionError] on a body nested
    too deep. *)
Inductive reply : Type :=
| HttpOk (payload : pyval)
| HttpError (text : string)
| HttpRaise (e : exn).

Inductive level : Type := Info | Error.

Inductive cycle : Type := Farming | Compounding | StakingCheck.

(** One thing the process does that is visible from outside.  [EvLog] is the
    pair of a console line and a log-file record at the given level;
    [EvRun] marks the scheduler calling a job function and has no
    counterpart in the program's output. *)
Inductive event : Type :=
| EvRequest (r : request)
| EvSleep (seconds : nat)
| EvLog (lvl : level) (msg : string)
| EvRun (c : cycle).

(** The environment: the answer (and the time taken) to the [n]-th HTTP
    attempt of the run, and Python's [repr] of floats and of strings. *)
Record Env : Type := mkEnv {
  respond : nat -> request -> reply;
  latency : nat -> request -> nat;
  float_repr : spec_float -> string;
  str_repr : string -> string
}.

(** The two settings read from the process environment. *)
Record Config : Type := mkConfig {
  API_KEY : string;
  WALLET_ADDRESS : string
}.

(** A job of the [schedule] package: the function it calls, its period in
    seconds and the time of its next run. *)
Record job : Type := mkJob {
  job_func : cycle;
  period : nat;
  next_run : nat
}.

Record state : Type := mkState {
  clock : nat;
  sent : nat;
  jobs : list job
}.

(** ** The monad: state, emitted events, exceptions *)

Definition M (A : Type) : Type := state -> outcome A * state * list event.

Definition ret {A} (a : A) : M A := fun s => (Ret a, s, []).

Definition bind {A B} (c : M A) (k : A -> M B) : M B :=
  fun s =>
    match c s with
    | (Ret a, s1, ev1) =>
        match k a s1 with
        | (r, s2, ev2) => (r, s2, (ev1 ++ ev2)%list)
        end
    | (Raise e, s1, ev1) => (Raise e, s1, ev1)
    end.

(** [try: c  except Exception as e: h e] *)
Definition try_except {A} (c : M A) (h : exn -> M A) : M A :=
  fun s =>
    match c s with
    | (Ret a, s1, ev1) => (Ret a, s1, ev1)
    | (Raise e, s1, ev1) =>
        match h e s1 with
        | (r, s2, ev2) => (r, s2, (ev1 ++ ev2)%list)
        end
    end.

Definition lift {A} (o : outcome A) : M A := fun s => (o, s, []).

Definition raise {A} (e : exn) : M A := fun s => (Raise e, s, []).

Definition emit (e : event) : M unit := fun s => (Ret tt, s, [e]).

Declare Scope py_scope.
Delimit Scope py_scope with py.
Notation "x <- c ;; k" := (bind c (fun x => k))
  (at level 61, c at next level, right associativity) : py_scope.
Notation "c ;; k" := (bind c (fun _ => k))
  (at level 61, right associativity) : py_scope.
Open Scope py_scope.

Definition result_of {A} (r : outcome A * state * list event) : outcome A := fst (fst r).
Definition state_of {A} (r : outcome A * state * list event) : state := snd (fst r).
Definition events_of {A} (r : outcome A * state * list event) : list event := snd r.

(** ** Module-level constants *)

Definition API_BASE : string := "https://api.teneo.finance/v1".

Definition ACTIVITY_THRESHOLD : pyval := PInt 75.

(** [1.0] as a binary64: mantissa [2^52], exponent [-52]. *)
Definition REWARD_THRESHOLD : pyval := PFloat (S754_finite false 4503599627370496 (-52)).

Definition COMPOUND_INTERVAL_MINUTES : nat := 60.
Definition FARM_INTERVAL_MINUTES : nat := 15.
Definition MAX_RETRIES : nat := 3.

Definition str_int (z : Z) : string := NilZero.string_of_int (Z.to_int z).

Fixpoint join (sep : string) (l : list string) : string :=
  match l with
  | [] => ""
  | [x] => x
  | x :: rest => x ++ sep ++ join sep rest
  end.

Section Bot.

Variable env : Env.
Variable cfg : Config.

(** *** [str] and [repr], as the f-strings of the log lines use them *)

Fixpoint py_repr (v : pyval) : string :=
  match v with
  | PNone => "None"
  | PBool b => if b then "True" else "False"
  | PInt z => str_int z
  | PFloat f => float_repr env f
  | PStr s => str_repr env s
  | PList l => "[" ++ join ", " (map py_repr l) ++ "]"
  | PDict kvs =>
      "{" ++ join ", " (map (fun kv => match kv with
                                       | (k, x) => str_repr env k ++ ": " ++ py_repr x
                                       end) kvs) ++ "}"
  end.

Definition py_str (v : pyval) : string :=
  match v with
  | PStr s => s
  | _ => py_repr v
  end.

Definition HEADERS : list (string * string) :=
  [("Authorization", "Bearer " ++ API_KEY cfg);
   ("Content-Type", "application/json")].

(** *** Primitive effects *)

Definition log (msg : string) (lvl : level) : M unit := emit (EvLog lvl msg).

Definition advance (s : state) (d : nat) : state :=
  mkState (clock s + d) (sent s) (jobs s).

Definition sleep (seconds : nat) : M unit :=
  fun s => (Ret tt, advance s seconds, [EvSleep seconds]).

(** The arguments of the one call in the [try] body of [safe_request]. *)
Definition build_request (method : http_method) (url : string)
    (json : option pyval) : request :=
  mkRequest method url HEADERS 10 json.

(** The state once the attempt is over: it took the time the environment
    says, and the next attempt has the next number. *)
Definition after_request (method : http_method) (url : string)
    (json : option pyval) (s : state) : state :=
  mkState (clock s + latency env (sent s) (build_request method url json))
          (S (sent s)) (jobs s).

(** One pass through the [try] body of [safe_request]: the attempt is
    numbered, answered by the environment and takes the time it says.  The
    way the body ends is handed back as a value, for the [except] clause of
    [safe_request_from] to sort out. *)
Definition requests_request (method : http_method) (url : string)
    (json : option pyval) : M reply :=
  fun s =>
    let req := build_request method url json in
    (Ret (respond env (sent s) req),
     after_request method url json s,
     [EvRequest req]).

(** *** [safe_request]

    [for attempt in range(MAX_RETRIES)] walks the list [0; 1; 2].  Only a
    [RequestException] is handled; any other exception leaves the function
    at once, with no log line, no sleep and no further attempt. *)
Fixpoint safe_request_from (attempts : list nat) (method : http_method)
    (url : string) (json : option pyval) : M pyval :=
  match attempts with
  | [] =>
      log ("Max retries reached for " ++ url) Error ;;
      ret PNone
  | attempt :: rest =>
      r <- requests_request method url json ;;
      match r with
      | HttpOk payload => ret payload
      | HttpError e =>
          log ("Request error: " ++ e ++ " | URL: " ++ url) Error ;;
          sleep (2 * (attempt + 1)) ;;
          safe_request_from rest method url json
      | HttpRaise e => raise e
      end
  end.

Definition safe_request (method : http_method) (url : string)
    (json : option pyval) : M pyval :=
  safe_request_from (seq 0 MAX_RETRIES) method url json.

(** *** Read operations *)

Definition activity_url : string := API_BASE ++ "/activity/" ++ WALLET_ADDRESS cfg.
Definition peak_url : string := API_BASE ++ "/rewards/peak-times".
Definition rewards_url : string := API_BASE ++ "/rewards/current/" ++ WALLET_ADDRESS cfg.
Definition staking_url : string := API_BASE ++ "/staking/status/" ++ WALLET_ADDRESS cfg.

Definition get_activity_score : M pyval :=
  data <- safe_request GET activity_url None ;;
  lift (get_if_data data "activityScore" (PInt 0)).

Definition is_peak_time : M pyval :=
  data <- safe_request GET peak_url None ;;
  lift (get_if_data data "isPeak" (PBool false)).

Definition get_current_rewards : M pyval :=
  data <- safe_request GET rewards_url None ;;
  rewards <- lift (get_if_data data "unclaimed" (PInt 0)) ;;
  log ("Current unclaimed rewards: " ++ py_str rewards ++ " TENEO") Info ;;
  ret rewards.

Definition get_staking_status : M pyval :=
  data <- safe_request GET staking_url None ;;
  lift (get_if_data data "isStaked" (PBool false)).

(** *** Write operations

    None of the three has a [return] statement: each hands [None] back. *)

Definition farm_url : string := API_BASE ++ "/farm".
Definition claim_url : string := API_BASE ++ "/rewards/claim".
Definition stake_url : string := API_BASE ++ "/staking/stake".

Definition farm_payload (strategy : string) : pyval :=
  PDict [("wallet", PStr (WALLET_ADDRESS cfg)); ("strategy", PStr strategy)].

Definition wallet_payload : pyval :=
  PDict [("wallet", PStr (WALLET_ADDRESS cfg))].

Definition perform_farming_action (strategy : string) : M pyval :=
  data <- safe_request POST farm_url (Some (farm_payload strategy)) ;;
  (if truthy data
   then log ("Farming performed with strategy: " ++ strategy) Info
   else log "Farming failed" Error) ;;
  ret PNone.

Definition claim_rewards : M pyval :=
  data <- safe_request POST claim_url (Some wallet_payload) ;;
  (if truthy data
   then log ("Rewards claimed: " ++ py_str data) Info
   else log "Claim failed" Error) ;;
  ret PNone.

Definition stake_rewards : M pyval :=
  data <- safe_request POST stake_url (Some wallet_payload) ;;
  (if truthy data
   then log "Rewards re-staked" Info
   else log "Re-staking failed" Error) ;;
  ret PNone.

(** *** Cycle policies *)

Definition strategy_of (peak : pyval) : string :=
  if truthy peak then "peak" else "standard".

Definition farming_cycle : M pyval :=
  activity <- get_activity_score ;;
  peak <- is_peak_time ;;
  let strategy := strategy_of peak in
  log ("Strategy selected: " ++ strategy ++ " | Activity: " ++ py_str activity) Info ;;
  enough <- lift (py_ge activity ACTIVITY_THRESHOLD) ;;
  (if enough : bool
   then perform_farming_action strategy ;; ret tt
   else log ("Activity too low (" ++ py_str activity ++ "), skipping farming.") Info) ;;
  ret PNone.

Definition compound_cycle : M pyval :=
  rewards <- get_current_rewards ;;
  enough <- lift (py_ge rewards REWARD_THRESHOLD) ;;
  (if enough : bool
   then
     claim_rewards ;;
     sleep 5 ;;
     stake_rewards ;;
     log ("Compounded " ++ py_str rewards ++ " TENEO into staking.") Info
   else log "Not enough rewards to compound." Info) ;;
  ret PNone.

Definition check_staking : M pyval :=
  staked <- get_staking_status ;;
  (if negb (truthy staked)
   then
     log "Wallet not staked. Attempting to stake..." Info ;;
     stake_rewards ;; ret tt
   else log "Wallet staking is active." Info) ;;
  ret PNone.

Definition cycle_body (c : cycle) : M pyval :=
  match c with
  | Farming => farming_cycle
  | Compounding => compound_cycle
  | StakingCheck => check_staking
  end.

(** *** The [schedule] package

    [bot.py] imports its scheduling primitive; what follows stands for
    [schedule.every(n).minutes.do(f)] and [schedule.run_pending()]. *)

(** Modelled from the spec: registration of a periodic task, which is not
    part of the repository.  Section 4.4: "intervals measured from task
    registration time, independently per task". *)
Definition every_minutes_do (n : nat) (c : cycle) : M unit :=
  fun s =>
    (Ret tt,
     mkState (clock s) (sent s)
             (jobs s ++ [mkJob c (60 * n) (clock s + 60 * n)])%list,
     []).

Definition should_run (now : nat) (j : job) : bool := (next_run j <=? now)%nat.

(** [sorted] with [Job.__lt__], which compares [next_run]: a stable sort. *)
Fixpoint insert_job (x : nat * job) (l : list (nat * job)) : list (nat * job) :=
  match l with
  | [] => [x]
  | y :: rest =>
      if (next_run (snd y) <? next_run (snd x))%nat
      then y :: insert_job x rest
      else x :: l
  end.

Fixpoint sort_jobs (l : list (nat * job)) : list (nat * job) :=
  match l with
  | [] => []
  | x :: rest => insert_job x (sort_jobs rest)
  end.

(** The jobs that are due, by position in the scheduler's list, in the order
    in which [run_pending] will call them. *)
Definition runnable_jobs (s : state) : list nat :=
  map fst
      (sort_jobs
         (filter (fun ij => should_run (clock s) (snd ij))
                 (combine (seq 0 (List.length (jobs s))) (jobs s)))).

Fixpoint set_job (i : nat) (j : job) (l : list job) : list job :=
  match l, i with
  | [], _ => []
  | _ :: rest, O => j :: rest
  | x :: rest, S i' => x :: set_job i' j rest
  end.

(** [self.last_run = now; self._schedule_next_run()] *)
Definition schedule_next_run (i : nat) : M unit :=
  fun s =>
    match nth_error (jobs s) i with
    | Some j =>
        (Ret tt,
         mkState (clock s) (sent s)
                 (set_job i (mkJob (job_func j) (period j) (clock s + period j)) (jobs s)),
         [])
    | None => (Ret tt, s, [])
    end.

(** Modelled from the spec: one due task of a tick, which is not part of the
    repository.  The task's function is called synchronously and its next
    due time is computed once the function has returned, from the time of
    return (section 4.4: "a task's own duration delays subsequent due tasks
    in that tick but never corrupts their due-time accounting").  An
    exception leaves the function before the due time is touched. *)
Definition run_job (i : nat) : M unit :=
  fun s =>
    match nth_error (jobs s) i with
    | Some j =>
        (emit (EvRun (job_func j)) ;;
         cycle_body (job_func j) ;;
         schedule_next_run i) s
    | None => (Ret tt, s, [])
    end.

Fixpoint run_jobs (due : list nat) : M unit :=
  match due with
  | [] => ret tt
  | i :: rest => run_job i ;; run_jobs rest
  end.

(** Modelled from the spec: the tick, which is not part of the repository.
    Section 4.4: "check all tasks for due execution and run every due task
    synchronously, one after another, in whatever order they became due".
    The due tasks are picked and ordered when the tick starts; an exception
    from one of them ends the tick. *)
Definition run_pending : M unit :=
  fun s => run_jobs (runnable_jobs s) s.

(** *** [start_bot] *)

(** The body of [while True]. *)
Definition loop_body : M unit :=
  try_except
    (run_pending ;; sleep 5)
    (fun e => log ("Bot crashed: " ++ exn_str e) Error ;; sleep 10).

(** The first [fuel] iterations of the loop, which has no exit. *)
Fixpoint loop (fuel : nat) : M unit :=
  match fuel with
  | O => ret tt
  | S n => loop_body ;; loop n
  end.

Definition start_bot (fuel : nat) : M unit :=
  log "Teneo Bot Started âœ…" Info ;;
  every_minutes_do FARM_INTERVAL_MINUTES Farming ;;
  every_minutes_do COMPOUND_INTERVAL_MINUTES Compounding ;;
  every_minutes_do 30 StakingCheck ;;
  loop fuel.

End Bot.

(** ** Start-up

    [load_dotenv()] and [os.getenv] are read as a lookup in the process
    environment.  The module body raises before [start_bot] is reached. *)

Definition is_set (v : option string) : bool :=
  match v with
  | None => false
  | Some s => negb (s =? "")
  end.

Definition module_init (getenv : string -> option string) : outcome Config :=
  let api_key := getenv "API_KEY" in
  let wallet_address := getenv "WALLET_ADDRESS" in
  if negb (is_set api_key) || negb (is_set wallet_address)
  then Raise (EnvironmentError "Missing API_KEY or WALLET_ADDRESS in .env file")
  else
    match api_key, wallet_address with
    | Some k, Some w => Ret (mkConfig k w)
    | _, _ => Raise (EnvironmentError "Missing API_KEY or WALLET_ADDRESS in .env file")
    end.

Definition initial_state (now : nat) : state := mkState now 0 [].

(** Running the file as a script, for [fuel] iterations of the loop. *)
Definition main (env : Env) (getenv : string -> option string) (now fuel : nat)
    : outcome unit * state * list event :=
  match module_init getenv with
  | Raise e => (Raise e, initial_state now, [])
  | Ret cfg => start_bot env cfg fuel (initial_state now)
  end.

(** ** Reading a run *)

(** An attempt failed when it ended in a [RequestException], the one failure
    [safe_request] handles. *)
Definition failed (r : reply) : bool :=
  match r with
  | HttpOk _ => false
  | HttpError _ => true
  | HttpRaise _ => false
  end.

Definition error_text (r : reply) : string :=
  match r with
  | HttpOk _ => ""
  | HttpError text => text
  | HttpRaise _ => ""
  end.

Definition is_request (e : event) : bool :=
  match e with
  | EvRequest _ => true
  | _ => false
  end.

(** How many HTTP attempts a run made. *)
Definition count_requests (evs : list event) : nat :=
  List.length (filter is_request evs).

(** The durations of the sleeps of a run, in order. *)
Definition sleeps (evs : list event) : list nat :=
  flat_map (fun e => match e with
                     | EvSleep n => [n]
                     | _ => []
                     end) evs.

Definition method_eqb (a b : http_method) : bool :=
  match a, b with
  | GET, GET | POST, POST => true
  | _, _ => false
  end.

Definition targets (m : http_method) (url : string) (r : request) : bool :=
  method_eqb m (req_method r) && (req_url r =? url).

(** The requests a run sent to one endpoint. *)
Definition requests_to (m : http_method) (url : string) (evs : list event) : list request :=
  flat_map (fun e => match e with
                     | EvRequest r => if targets m url r then [r] else []
                     | _ => []
                     end) evs.

(** The cycles the scheduler started during a run. *)
Definition cycles_run (evs : list event) : list cycle :=
  flat_map (fun e => match e with
                     | EvRun c => [c]
                     | _ => []
                     end) evs.

(** How many of the attempts numbered [first], [first + 1], ... fail in a
    row, looking at no more than [budget] of them. *)
Fixpoint failures_before (env : Env) (r : request) (first budget : nat) : nat :=
  match budget with
  | O => O
  | S b =>
      if failed (respond env first r)
      then S (failures_before env r (S first) b)
      else O
  end.

(** The call that starts with attempt number [first] gets [payload]: one of
    its three attempts is answered, and those before it fail. *)
Definition succeeds_with (env : Env) (r : request) (first : nat) (payload : pyval) : Prop :=
  exists k,
    k < MAX_RETRIES /\
    (forall i, i < k -> failed (respond env (first + i) r) = true) /\
    respond env (first + k) r = HttpOk payload.

(** All three attempts of the call that starts with attempt [first] fail. *)
Definition call_fails (env : Env) (r : request) (first : nat) : Prop :=
  forall i, i < MAX_RETRIES -> failed (respond env (first + i) r) = true.

(** The call that starts with attempt number [first] is left by the
    exception [e]: one of its three attempts raises it, and those before it
    fail. *)
Definition raises_with (env : Env) (r : request) (first : nat) (e : exn) : Prop :=
  exists k,
    k < MAX_RETRIES /\
    (forall i, i < k -> failed (respond env (first + i) r) = true) /\
    respond env (first + k) r = HttpRaise e.

(** A computation that leaves the scheduler's jobs alone, never turns the
    clock back and starts no cycle: everything below [run_job]. *)
Definition quiet {A} (c : M A) : Prop :=
  forall s,
    jobs (state_of (c s)) = jobs s /\
    clock s <= clock (state_of (c s)) /\
    cycles_run (events_of (c s)) = [].

(** The cycle a job position stands for. *)
Definition cycle_at (s : state) (i : nat) : option cycle :=
  option_map job_func (nth_error (jobs s) i).

(** The cycle that calling position [i] starts, if it holds a job. *)
Definition called (s : state) (i : nat) : list cycle :=
  match cycle_at s i with
  | Some c => [c]
  | None => []
  end.

(** The levels of the log lines of a run, in order. *)
Definition log_levels (evs : list event) : list level :=
  flat_map (fun e => match e with
                     | EvLog lvl _ => [lvl]
                     | _ => []
                     end) evs.

(** The four read operations, by name. *)
Inductive read_op : Type := ReadActivity | ReadPeak | ReadRewards | ReadStaking.

Definition read_url (cfg : Config) (op : read_op) : string :=
  match op with
  | ReadActivity => activity_url cfg
  | ReadPeak => peak_url
  | ReadRewards => rewards_url cfg
  | ReadStaking => staking_url cfg
  end.

Definition read_key (op : read_op) : string :=
  match op with
  | ReadActivity => "activityScore"
  | ReadPeak => "isPeak"
  | ReadRewards => "unclaimed"
  | ReadStaking => "isStaked"
  end.

Definition read_default (op : read_op) : pyval :=
  match op with
  | ReadActivity | ReadRewards => PInt 0
  | ReadPeak | ReadStaking => PBool false
  end.

Definition run_read (env : Env) (cfg : Config) (op : read_op) : M pyval :=
  match op with
  | ReadActivity => get_activity_score env cfg
  | ReadPeak => is_peak_time env cfg
  | ReadRewards => get_current_rewards env cfg
  | ReadStaking => get_staking_status env cfg
  end.

(** The line [get_current_rewards] adds for the amount it returns; the other
    reads log nothing of their own. *)
Definition read_line (env : Env) (op : read_op) (v : pyval) : list event :=
  match op with
  | ReadRewards =>
      [EvLog Info ("Current unclaimed rewards: " ++ py_str env v ++ " TENEO")]
  | _ => []
  end.

Definition is_dict (v : pyval) : bool :=
  match v with
  | PDict _ => true
  | _ => false
  end.

(** A computation that makes no more than [requests] HTTP attempts and
    sleeps no longer than [seconds] in all, from any state. *)
Definition within (requests seconds : nat) {A} (c : M A) : Prop :=
  forall s,
    count_requests (events_of (c s)) <= requests /\
    list_sum (sleeps (events_of (c s))) <= seconds.

(** The due jobs with their places in the scheduler's list, in calling
    order: [runnable_jobs] is the list of the places. *)
Definition due_pairs (s : state) : list (nat * job) :=
  sort_jobs
    (filter (fun ij => should_run (clock s) (snd ij))
            (combine (seq 0 (List.length (jobs s))) (jobs s))).

(** [x] is called before [y]: it is due earlier, or due at the same time and
    registered earlier. *)
Definition runs_before (x y : nat * job) : Prop :=
  next_run (snd x) < next_run (snd y) \/
  (next_run (snd x) = next_run (snd y) /\ fst x < fst y).

(** The requests the bot is written to send: the four reads, the farm
    action under either label, the claim and the stake. *)
Definition bot_request (cfg : Config) (r : request) : Prop :=
  r = build_request cfg GET (activity_url cfg) None \/
  r = build_request cfg GET peak_url None \/
  r = build_request cfg GET (rewards_url cfg) None \/
  r = build_request cfg GET (staking_url cfg) None \/
  r = build_request cfg POST farm_url (Some (farm_payload cfg "peak")) \/
  r = build_request cfg POST farm_url (Some (farm_payload cfg "standard")) \/
  r = build_request cfg POST claim_url (Some (wallet_payload cfg)) \/
  r = build_request cfg POST stake_url (Some (wallet_payload cfg)).

(** A computation all of whose requests satisfy [P], from any state. *)
Definition sends_only (P : request -> Prop) {A} (c : M A) : Prop :=
  forall s r, In (EvRequest r) (events_of (c s)) -> P r.

(** ** Sample configurations and servers *)

Definition demo_config : Config := mkConfig "secret" "0xabc".

Definition quote (s : string) : string := "'" ++ s ++ "'".

(** Every attempt times out. *)
Definition offline_env : Env :=
  mkEnv (fun _ _ => HttpError "timed out") (fun _ _ => 10)
        (fun _ => "1.0") quote.

(** The first attempt of the run times out, every later one is answered with
    the given payload. *)
Definition flaky_env (payload : pyval) : Env :=
  mkEnv (fun n _ => match n with
                    | O => HttpError "timed out"
                    | S _ => HttpOk payload
                    end)
        (fun _ _ => 1) (fun _ => "1.0") quote.

(** Every attempt is answered at once with the same payload. *)
Definition constant_env (payload : pyval) : Env :=
  mkEnv (fun _ _ => HttpOk payload) (fun _ _ => 1) (fun _ => "2.5") quote.

(** A server that answers by URL and refuses what it does not know;
    [float_text] is the text of every float. *)
Definition server_env (answers : list (string * pyval)) (float_text : string) : Env :=
  mkEnv (fun _ r => match dict_lookup (req_url r) answers with
                    | Some payload => HttpOk payload
                    | None => HttpError "404 Client Error: Not Found"
                    end)
        (fun _ _ => 1) (fun _ => float_text) quote.

(** Scenario B of the specification: an activity score of 50. *)
Definition low_activity_env : Env :=
  server_env
    [("https://api.teneo.finance/v1/activity/0xabc", PDict [("activityScore", PInt 50)]);
     ("https://api.teneo.finance/v1/rewards/peak-times", PDict [("isPeak", PBool true)]);
     ("https://api.teneo.finance/v1/farm", PDict [("status", PStr "ok")])]
    "0.0".

(** Scenario C: 2.5 unclaimed, which is the float [5 * 2^-1]. *)
Definition rich_env : Env :=
  server_env
    [("https://api.teneo.finance/v1/rewards/current/0xabc",
      PDict [("unclaimed", PFloat (S754_finite false 5 (-1)))]);
     ("https://api.teneo.finance/v1/rewards/claim",
      PDict [("claimed", PFloat (S754_finite false 5 (-1)))]);
     ("https://api.teneo.finance/v1/staking/stake", PDict [("status", PStr "ok")])]
    "2.5".

(** Scenario D: 0.3 unclaimed, the float [5404319552844595 * 2^-54]. *)
Definition poor_env : Env :=
  server_env
    [("https://api.teneo.finance/v1/rewards/current/0xabc",
      PDict [("unclaimed", PFloat (S754_finite false 5404319552844595 (-54)))])]
    "0.3".

Definition unstaked_env : Env :=
  server_env
    [("https://api.teneo.finance/v1/staking/status/0xabc", PDict [("isStaked", PBool false)]);
     ("https://api.teneo.finance/v1/staking/stake", PDict [("status", PStr "ok")])]
    "0.0".

(** A server that answers the first attempt of the run with a JSON array
    and is well again afterwards, with an activity score of 50. *)
Definition recovering_env : Env :=
  mkEnv (fun n r => match n with
                    | O => HttpOk (PList [PInt 1])
                    | S _ => respond low_activity_env n r
                    end)
        (fun _ _ => 1) (fun _ => "0.0") quote.

(** A process environment that defines the two settings and nothing else. *)
Definition two_variable_env (name : string) : option string :=
  if name =? "API_KEY" then Some "secret"
  else if name =? "WALLET_ADDRESS" then Some "0xabc"
  else None.

(** The wallet address is set to the empty string. *)
Definition empty_wallet_env (name : string) : option string :=
  if name =? "API_KEY" then Some "secret"
  else if name =? "WALLET_ADDRESS" then Some ""
  else None.

(** The activity endpoint answers with a [null] score. *)
Definition null_score_env : Env :=
  server_env
    [("https://api.teneo.finance/v1/activity/0xabc", PDict [("activityScore", PNone)]);
     ("https://api.teneo.finance/v1/rewards/peak-times", PDict [("isPeak", PBool true)])]
    "0.0".

(** The rewards endpoint answers with the amount as a string. *)
Definition text_amount_env : Env :=
  server_env
    [("https://api.teneo.finance/v1/rewards/current/0xabc",
      PDict [("unclaimed", PStr "2.5")])]
    "0.0".

(** An activity score of 80, and a peak-times endpoint that answers with a
    JSON array. *)
Definition array_peak_env : Env :=
  server_env
    [("https://api.teneo.finance/v1/activity/0xabc", PDict [("activityScore", PInt 80)]);
     ("https://api.teneo.finance/v1/rewards/peak-times", PList [PInt 1]);
     ("https://api.teneo.finance/v1/farm", PDict [("status", PStr "ok")])]
    "0.0".

(** The server of scenario C, except that the body of the claim endpoint
    holds an integer literal of 5000 digits, on which [r.json()] raises
    [ValueError]. *)
Definition oversized_claim_env : Env :=
  mkEnv (fun n r => if req_url r =? "https://api.teneo.finance/v1/rewards/claim"
                    then HttpRaise (ValueError "Exceeds the limit (4300 digits) for integer string conversion: value has 5000 digits; use sys.set_int_max_str_digits() to increase the limit")
                    else respond rich_env n r)
        (fun _ _ => 1) (fun _ => "2.5") quote.

(** The activity endpoint answers with a JSON array for good; every other
    endpoint is well: 2.5 unclaimed, nothing staked. *)
Definition array_activity_env : Env :=
  server_env
    [("https://api.teneo.finance/v1/activity/0xabc", PList [PInt 1]);
     ("https://api.teneo.finance/v1/rewards/peak-times", PDict [("isPeak", PBool true)]);
     ("https://api.teneo.finance/v1/farm", PDict [("status", PStr "ok")]);
     ("https://api.teneo.finance/v1/rewards/current/0xabc",
      PDict [("unclaimed", PFloat (S754_finite false 5 (-1)))]);
     ("https://api.teneo.finance/v1/rewards/claim",
      PDict [("claimed", PFloat (S754_finite false 5 (-1)))]);
     ("https://api.teneo.finance/v1/staking/status/0xabc", PDict [("isStaked", PBool false)]);
     ("https://api.teneo.finance/v1/staking/stake", PDict [("status", PStr "ok")])]
    "2.5".

(** The schedule of a bot started at time 0 with no job registered. *)
Definition schedule_at_zero : list job :=
  [mkJob Farming 900 900; mkJob Compounding 3600 3600; mkJob StakingCheck 1800 1800].

(** * Properties *)

(** ** Running a sequence *)

Lemma bind_ret_eq A B (c : M A) (k : A -> M B) s a s1 ev1 :
  c s = (Ret a, s1, ev1) ->
  bind c k s = (result_of (k a s1), state_of (k a s1), (ev1 ++ events_of (k a s1))%list).
Proof.
  intros H. unfold bind. rewrite H. destruct (k a s1) as [[r s2] ev2]. reflexivity.
Qed.

Lemma bind_raise_eq A B (c : M A) (k : A -> M B) s e s1 ev1 :
  c s = (Raise e, s1, ev1) ->
  bind c k s = (Raise e, s1, ev1).
Proof. intros H. unfold bind. rewrite H. reflexivity. Qed.

Lemma run_eta A (r : outcome A * state * list event) :
  r = (result_of r, state_of r, events_of r).
Proof. destruct r as [[? ?] ?]. reflexivity. Qed.

(** ** [safe_request] *)

Lemma firstn_seq_le n : forall start len,
  n <= len -> firstn n (seq start len) = seq start n.
Proof.
  induction n as [|n IH]; intros start len Hle.
  - reflexivity.
  - destruct len as [|len]; [lia|].
    cbn. rewrite IH by lia. reflexivity.
Qed.

Section SafeRequestFacts.

Variables (env : Env) (cfg : Config).
Variables (method : http_method) (url : string) (json : option pyval).

#[local] Abbreviation req := (build_request cfg method url json).

(** One step of the retry loop, by the answer to the attempt. *)

Lemma safe_request_from_nil s :
  safe_request_from env cfg [] method url json s
  = (Ret PNone, s, [EvLog Error ("Max retries reached for " ++ url)]).
Proof. reflexivity. Qed.

Lemma safe_request_from_ok attempt rest s payload :
  respond env (sent s) (build_request cfg method url json) = HttpOk payload ->
  safe_request_from env cfg (attempt :: rest) method url json s
  = (Ret payload, after_request env cfg method url json s,
     [EvRequest (build_request cfg method url json)]).
Proof.
  intros H. cbn. unfold bind, requests_request. cbn. rewrite H. reflexivity.
Qed.

Lemma safe_request_from_error attempt rest s text :
  respond env (sent s) (build_request cfg method url json) = HttpError text ->
  safe_request_from env cfg (attempt :: rest) method url json s
  = let r := safe_request_from env cfg rest method url json
               (advance (after_request env cfg method url json s) (2 * (attempt + 1))) in
    (result_of r, state_of r,
     EvRequest (build_request cfg method url json)
       :: EvLog Error ("Request error: " ++ text ++ " | URL: " ++ url)
       :: EvSleep (2 * (attempt + 1))
       :: events_of r).
Proof.
  intros H. cbn [safe_request_from]. unfold bind at 1. unfold requests_request at 1.
  cbn iota beta. rewrite H.
  unfold bind, log, emit, sleep.
  destruct (safe_request_from env cfg rest method url json _) as [[r s'] evs].
  reflexivity.
Qed.

Lemma safe_request_from_raise attempt rest s e :
  respond env (sent s) (build_request cfg method url json) = HttpRaise e ->
  safe_request_from env cfg (attempt :: rest) method url json s
  = (Raise e, after_request env cfg method url json s,
     [EvRequest (build_request cfg method url json)]).
Proof.
  intros H. cbn. unfold bind, requests_request. cbn. rewrite H. reflexivity.
Qed.

Lemma count_requests_failed_attempt (r : request) lvl msg n evs :
  count_requests (EvRequest r :: EvLog lvl msg :: EvSleep n :: evs)
  = S (count_requests evs).
Proof. reflexivity. Qed.

(** No more attempts than passes through the loop. *)
Lemma safe_request_from_bound attempts : forall s,
  count_requests (events_of (safe_request_from env cfg attempts method url json s))
  <= List.length attempts.
Proof.
  induction attempts as [|a rest IH]; intros s.
  - cbn. lia.
  - destruct (respond env (sent s) req) as [p|t|e] eqn:E.
    + rewrite (safe_request_from_ok a rest _ E). cbn. lia.
    + rewrite (safe_request_from_error a rest _ E).
      cbv zeta. unfold events_of at 1. cbn [snd].
      rewrite count_requests_failed_attempt.
      specialize (IH (advance (after_request env cfg method url json s) (2 * (a + 1)))).
      cbn [List.length]. lia.
    + rewrite (safe_request_from_raise a rest _ E). cbn. lia.
Qed.

(** The first answered attempt ends the call. *)
Lemma safe_request_from_success attempts : forall k s payload,
  k < List.length attempts ->
  (forall i, i < k -> failed (respond env (sent s + i) req) = true) ->
  respond env (sent s + k) req = HttpOk payload ->
  result_of (safe_request_from env cfg attempts method url json s) = Ret payload /\
  count_requests (events_of (safe_request_from env cfg attempts method url json s)) = k + 1 /\
  sent (state_of (safe_request_from env cfg attempts method url json s)) = sent s + k + 1 /\
  exists before,
    events_of (safe_request_from env cfg attempts method url json s)
    = (before ++ [EvRequest req])%list.
Proof.
  induction attempts as [|a rest IH]; intros k s payload Hk Hfail Hok.
  - cbn in Hk. lia.
  - destruct k as [|k].
    + rewrite Nat.add_0_r in Hok.
      rewrite (safe_request_from_ok a rest _ Hok). cbn.
      repeat split; try lia. exists []. reflexivity.
    + assert (H0 : failed (respond env (sent s) req) = true).
      { rewrite <- (Nat.add_0_r (sent s)). apply Hfail. lia. }
      destruct (respond env (sent s) req) as [p|t|e] eqn:E; [discriminate| |discriminate].
      rewrite (safe_request_from_error a rest _ E). cbv zeta.
      set (s1 := advance (after_request env cfg method url json s) (2 * (a + 1))).
      destruct (IH k s1 payload) as (Hr & Hc & Hs & before & Hev).
      * cbn in Hk. lia.
      * intros i Hi. replace (sent s1 + i) with (sent s + S i) by (cbn; lia).
        apply Hfail. lia.
      * replace (sent s1 + k) with (sent s + S k) by (cbn; lia). exact Hok.
      * unfold result_of, state_of, events_of in *. cbn [fst snd] in *.
        rewrite count_requests_failed_attempt, Hc, Hs, Hev, Hr.
        repeat split; try (cbn; lia).
        eexists (_ :: _ :: _ :: before). reflexivity.
Qed.

Lemma failures_before_le r first budget :
  failures_before env r first budget <= budget.
Proof.
  revert first. induction budget as [|b IH]; intros first; cbn.
  - lia.
  - destruct (failed _); [specialize (IH (S first))|]; lia.
Qed.

(** One sleep per failed attempt, of twice the attempt's 1-based index. *)
Lemma sleeps_safe_request_from attempts : forall s,
  sleeps (events_of (safe_request_from env cfg attempts method url json s))
  = map (fun a => 2 * (a + 1))
        (firstn (failures_before env req (sent s) (List.length attempts)) attempts).
Proof.
  induction attempts as [|a rest IH]; intros s.
  - reflexivity.
  - cbn [List.length failures_before].
    destruct (respond env (sent s) req) as [p|t|e] eqn:E.
    + rewrite (safe_request_from_ok a rest _ E). reflexivity.
    + rewrite (safe_request_from_error a rest _ E). cbv zeta.
      unfold events_of at 1. cbn [snd failed firstn map].
      change (sleeps (?x :: ?y :: EvSleep ?n :: ?evs)) with (n :: sleeps evs).
      rewrite IH. reflexivity.
    + rewrite (safe_request_from_raise a rest _ E). reflexivity.
Qed.

(** The whole run of a call whose three attempts fail. *)
Lemma safe_request_exhausted s :
  (forall i, i < 3 -> failed (respond env (sent s + i) req) = true) ->
  let text i := error_text (respond env (sent s + i) req) in
  let line i := EvLog Error ("Request error: " ++ text i ++ " | URL: " ++ url) in
  result_of (safe_request env cfg method url json s) = Ret PNone /\
  events_of (safe_request env cfg method url json s)
  = [EvRequest req; line 0; EvSleep 2;
     EvRequest req; line 1; EvSleep 4;
     EvRequest req; line 2; EvSleep 6;
     EvLog Error ("Max retries reached for " ++ url)].
Proof.
  intros Hfail text line. unfold safe_request, MAX_RETRIES. cbn [seq].
  assert (H0 := Hfail 0 ltac:(lia)). assert (H1 := Hfail 1 ltac:(lia)).
  assert (H2 := Hfail 2 ltac:(lia)).
  subst line text. cbv beta.
  rewrite Nat.add_0_r in *.
  destruct (respond env (sent s) req) as [|t0|] eqn:E0; [discriminate| |discriminate].
  rewrite (safe_request_from_error 0 _ _ E0). cbv zeta.
  set (s1 := advance (after_request env cfg method url json s) (2 * (0 + 1))).
  replace (sent s + 1) with (sent s1) in * by (cbn; lia).
  destruct (respond env (sent s1) req) as [|t1|] eqn:E1; [discriminate| |discriminate].
  rewrite (safe_request_from_error 1 _ _ E1). cbv zeta.
  set (s2 := advance (after_request env cfg method url json s1) (2 * (1 + 1))).
  replace (sent s + 2) with (sent s2) in * by (cbn; lia).
  destruct (respond env (sent s2) req) as [|t2|] eqn:E2; [discriminate| |discriminate].
  rewrite (safe_request_from_error 2 _ _ E2). cbv zeta.
  rewrite safe_request_from_nil.
  split; reflexivity.
Qed.

(** An attempt that raises ends the call: the exception leaves
    [safe_request] with the request as the last thing done. *)
Lemma safe_request_from_raises attempts : forall k s e,
  k < List.length attempts ->
  (forall i, i < k -> failed (respond env (sent s + i) req) = true) ->
  respond env (sent s + k) req = HttpRaise e ->
  result_of (safe_request_from env cfg attempts method url json s) = Raise e /\
  count_requests (events_of (safe_request_from env cfg attempts method url json s)) = k + 1 /\
  exists before,
    events_of (safe_request_from env cfg attempts method url json s)
    = (before ++ [EvRequest req])%list.
Proof.
  induction attempts as [|a rest IH]; intros k s e Hk Hfail Hraise.
  - cbn in Hk. lia.
  - destruct k as [|k].
    + rewrite Nat.add_0_r in Hraise.
      rewrite (safe_request_from_raise a rest _ Hraise). cbn.
      repeat split; try lia. exists []. reflexivity.
    + assert (H0 : failed (respond env (sent s) req) = true).
      { rewrite <- (Nat.add_0_r (sent s)). apply Hfail. lia. }
      destruct (respond env (sent s) req) as [p|t|e0] eqn:E; [discriminate| |discriminate].
      rewrite (safe_request_from_error a rest _ E). cbv zeta.
      set (s1 := advance (after_request env cfg method url json s) (2 * (a + 1))).
      destruct (IH k s1 e) as (Hr & Hc & before & Hev).
      * cbn in Hk. lia.
      * intros i Hi. replace (sent s1 + i) with (sent s + S i) by (cbn; lia).
        apply Hfail. lia.
      * replace (sent s1 + k) with (sent s + S k) by (cbn; lia). exact Hraise.
      * unfold result_of, state_of, events_of in *. cbn [fst snd] in *.
        rewrite count_requests_failed_attempt, Hc, Hev, Hr.
        repeat split; try (cbn; lia).
        eexists (_ :: _ :: _ :: before). reflexivity.
Qed.

(** What the call returns is decided by the answers it meets. *)
Lemma safe_request_succeeds s payload :
  succeeds_with env req (sent s) payload ->
  result_of (safe_request env cfg method url json s) = Ret payload.
Proof.
  intros (k & Hk & Hfail & Hok).
  destruct (@safe_request_from_success (seq 0 MAX_RETRIES) k s payload)
    as (Hr & _); auto.
Qed.

Lemma safe_request_fails s :
  call_fails env req (sent s) ->
  result_of (safe_request env cfg method url json s) = Ret PNone.
Proof. intros H. apply (safe_request_exhausted s H). Qed.

(** C1: a call of [safe_request] makes at most 3 attempts; when the attempts
    before the [k+1]-th fail and that one succeeds (it is among the three),
    its decoded payload is the result, exactly [k+1] attempts were made and
    the run ends with that attempt: nothing is logged, slept or sent after
    it. *)
Theorem safe_request_at_most_three_attempts s :
  count_requests (events_of (safe_request env cfg method url json s)) <= 3 /\
  forall k payload,
    k < 3 ->
    (forall i, i < k -> failed (respond env (sent s + i) req) = true) ->
    respond env (sent s + k) req = HttpOk payload ->
    result_of (safe_request env cfg method url json s) = Ret payload /\
    count_requests (events_of (safe_request env cfg method url json s)) = k + 1 /\
    exists before,
      events_of (safe_request env cfg method url json s)
      = (before ++ [EvRequest req])%list.
Proof.
  split.
  - apply (safe_request_from_bound (seq 0 MAX_RETRIES)).
  - intros k payload Hk Hfail Hok.
    destruct (@safe_request_from_success (seq 0 MAX_RETRIES) k s payload)
      as (Hr & Hc & _ & Hev); auto.
Qed.

(** C10: every failed attempt is followed by a sleep of twice its 1-based
    index, the last one included: a call whose three attempts all fail runs
    request, error line, sleep 2, request, error line, sleep 4, request,
    error line, sleep 6, and only then logs that the retries are used up and
    returns [None]; the sleeps add up to 12. *)
Theorem safe_request_backoff_after_every_failure s :
  sleeps (events_of (safe_request env cfg method url json s))
  = map (fun attempt => 2 * (attempt + 1))
        (seq 0 (failures_before env req (sent s) MAX_RETRIES)) /\
  ((forall i, i < 3 -> failed (respond env (sent s + i) req) = true) ->
   let text i := error_text (respond env (sent s + i) req) in
   let line i := EvLog Error ("Request error: " ++ text i ++ " | URL: " ++ url) in
   result_of (safe_request env cfg method url json s) = Ret PNone /\
   events_of (safe_request env cfg method url json s)
   = [EvRequest req; line 0; EvSleep 2;
      EvRequest req; line 1; EvSleep 4;
      EvRequest req; line 2; EvSleep 6;
      EvLog Error ("Max retries reached for " ++ url)] /\
   sleeps (events_of (safe_request env cfg method url json s)) = [2; 4; 6] /\
   list_sum (sleeps (events_of (safe_request env cfg method url json s))) = 12).
Proof.
  split.
  - unfold safe_request. rewrite sleeps_safe_request_from.
    rewrite length_seq, firstn_seq_le by apply failures_before_le.
    reflexivity.
  - intros Hfail text line.
    destruct (safe_request_exhausted s Hfail) as [Hr Hev].
    split; [exact Hr|]. split; [exact Hev|].
    rewrite Hev. split; reflexivity.
Qed.

End SafeRequestFacts.

(** A server that times out once: the second attempt is the last. *)
Lemma safe_request_at_most_three_attempts_witness :
  let env := flaky_env (PDict [("isPeak", PBool true)]) in
  let req := build_request demo_config GET "https://api.teneo.finance/v1/rewards/peak-times" None in
  let run := safe_request env demo_config GET "https://api.teneo.finance/v1/rewards/peak-times"
                          None (initial_state 0) in
  1 < 3 /\
  failed (respond env 0 req) = true /\
  respond env 1 req = HttpOk (PDict [("isPeak", PBool true)]) /\
  result_of run = Ret (PDict [("isPeak", PBool true)]) /\
  count_requests (events_of run) = 2.
Proof.
  intros env req run.
  destruct (@safe_request_at_most_three_attempts env demo_config GET
              "https://api.teneo.finance/v1/rewards/peak-times" None (initial_state 0))
    as [_ H].
  destruct (H 1 (PDict [("isPeak", PBool true)])) as (Hr & Hc & _).
  - lia.
  - intros i Hi. destruct i as [|i]; [reflexivity | lia].
  - reflexivity.
  - repeat split; try reflexivity; try lia; assumption.
Defined.

(** A server that never answers: three attempts, sleeps of 2, 4 and 6. *)
Lemma safe_request_backoff_after_every_failure_witness :
  let run := safe_request offline_env demo_config POST "https://api.teneo.finance/v1/farm"
                          (Some (PDict [("wallet", PStr "0xabc")])) (initial_state 0) in
  (forall i, i < 3 ->
     failed (respond offline_env (0 + i)
               (build_request demo_config POST "https://api.teneo.finance/v1/farm"
                              (Some (PDict [("wallet", PStr "0xabc")])))) = true) /\
  result_of run = Ret PNone /\
  sleeps (events_of run) = [2; 4; 6] /\
  list_sum (sleeps (events_of run)) = 12.
Proof.
  intros run.
  assert (Hfail : forall i, i < 3 ->
     failed (respond offline_env (0 + i)
               (build_request demo_config POST "https://api.teneo.finance/v1/farm"
                              (Some (PDict [("wallet", PStr "0xabc")])))) = true)
    by (intros i _; reflexivity).
  destruct (@safe_request_backoff_after_every_failure offline_env demo_config POST
              "https://api.teneo.finance/v1/farm"
              (Some (PDict [("wallet", PStr "0xabc")])) (initial_state 0))
    as [_ H].
  destruct (H Hfail) as (Hr & _ & Hs & Hsum).
  repeat split; assumption.
Defined.

(** ** Read operations *)

Section ReadFacts.

Variables (env : Env) (cfg : Config).

(** A read operation is [safe_request] followed by the lookup. *)
Lemma read_after_request url key default s data :
  result_of (safe_request env cfg GET url None s) = Ret data ->
  (data <- safe_request env cfg GET url None ;; lift (get_if_data data key default)) s
  = (get_if_data data key default,
     state_of (safe_request env cfg GET url None s),
     events_of (safe_request env cfg GET url None s)).
Proof.
  intros H. rewrite (run_eta (safe_request env cfg GET url None s)) at 1.
  unfold bind. rewrite (run_eta (safe_request env cfg GET url None s)) at 1.
  rewrite H. unfold lift. rewrite app_nil_r.
  destruct (get_if_data data key default); reflexivity.
Qed.

(** C2: when [safe_request] hands back [None], each read operation returns
    its default without raising: 0 for the activity score and the unclaimed
    rewards, [False] for the peak flag and the staking flag; the rewards
    read still logs its status line, with the default. *)
Theorem read_operations_default_on_absence s :
  (result_of (safe_request env cfg GET (activity_url cfg) None s) = Ret PNone ->
   get_activity_score env cfg s
   = (Ret (PInt 0),
      state_of (safe_request env cfg GET (activity_url cfg) None s),
      events_of (safe_request env cfg GET (activity_url cfg) None s))) /\
  (result_of (safe_request env cfg GET peak_url None s) = Ret PNone ->
   is_peak_time env cfg s
   = (Ret (PBool false),
      state_of (safe_request env cfg GET peak_url None s),
      events_of (safe_request env cfg GET peak_url None s))) /\
  (result_of (safe_request env cfg GET (rewards_url cfg) None s) = Ret PNone ->
   get_current_rewards env cfg s
   = (Ret (PInt 0),
      state_of (safe_request env cfg GET (rewards_url cfg) None s),
      (events_of (safe_request env cfg GET (rewards_url cfg) None s)
         ++ [EvLog Info "Current unclaimed rewards: 0 TENEO"])%list)) /\
  (result_of (safe_request env cfg GET (staking_url cfg) None s) = Ret PNone ->
   get_staking_status env cfg s
   = (Ret (PBool false),
      state_of (safe_request env cfg GET (staking_url cfg) None s),
      events_of (safe_request env cfg GET (staking_url cfg) None s))).
Proof.
  repeat split; intros H.
  - unfold get_activity_score. rewrite (read_after_request _ _ _ _ H). reflexivity.
  - unfold is_peak_time. rewrite (read_after_request _ _ _ _ H). reflexivity.
  - unfold get_current_rewards.
    rewrite (run_eta (safe_request env cfg GET (rewards_url cfg) None s)) in *.
    unfold bind.
    destruct (safe_request env cfg GET (rewards_url cfg) None s) as [[r s1] ev1].
    cbn in H. subst r. cbn. reflexivity.
  - unfold get_staking_status. rewrite (read_after_request _ _ _ _ H). reflexivity.
Qed.

End ReadFacts.

(** Scenario E of the specification: every attempt of every read fails. *)
Lemma read_operations_default_on_absence_witness :
  let s := initial_state 0 in
  result_of (safe_request offline_env demo_config GET (activity_url demo_config) None s)
  = Ret PNone /\
  result_of (safe_request offline_env demo_config GET peak_url None s) = Ret PNone /\
  result_of (safe_request offline_env demo_config GET (rewards_url demo_config) None s)
  = Ret PNone /\
  result_of (safe_request offline_env demo_config GET (staking_url demo_config) None s)
  = Ret PNone /\
  result_of (get_activity_score offline_env demo_config s) = Ret (PInt 0) /\
  result_of (is_peak_time offline_env demo_config s) = Ret (PBool false) /\
  result_of (get_current_rewards offline_env demo_config s) = Ret (PInt 0) /\
  result_of (get_staking_status offline_env demo_config s) = Ret (PBool false).
Proof.
  intros s.
  destruct (read_operations_default_on_absence offline_env demo_config s)
    as (Hactivity & Hpeak & Hrewards & Hstaking).
  rewrite Hactivity, Hpeak, Hrewards, Hstaking by reflexivity.
  repeat split; reflexivity.
Defined.

(** ** Write operations *)

Section WriteFacts.

Variables (env : Env) (cfg : Config).

Lemma log_choice_run (data : pyval) good bad s :
  (if truthy data then log good Info else log bad Error) s
  = (Ret tt, s, [if truthy data then EvLog Info good else EvLog Error bad]).
Proof. destruct (truthy data); reflexivity. Qed.

(** A write operation is [safe_request], one log line chosen by the truth
    value of what came back, and the implicit [return None]; an exception
    that leaves [safe_request] leaves the operation at the same point. *)
Lemma write_operation_run url payload good bad s :
  (data <- safe_request env cfg POST url (Some payload) ;;
   (if truthy data then log (good data) Info else log bad Error) ;;
   ret PNone) s
  = match result_of (safe_request env cfg POST url (Some payload) s) with
    | Ret data =>
        (Ret PNone,
         state_of (safe_request env cfg POST url (Some payload) s),
         (events_of (safe_request env cfg POST url (Some payload) s)
            ++ [if truthy data then EvLog Info (good data) else EvLog Error bad])%list)
    | Raise e =>
        (Raise e,
         state_of (safe_request env cfg POST url (Some payload) s),
         events_of (safe_request env cfg POST url (Some payload) s))
    end.
Proof.
  destruct (result_of (safe_request env cfg POST url (Some payload) s)) as [data|e] eqn:Hcall.
  - rewrite bind_ret_eq with (a := data)
      (s1 := state_of (safe_request env cfg POST url (Some payload) s))
      (ev1 := events_of (safe_request env cfg POST url (Some payload) s))
      by (rewrite <- Hcall; apply run_eta).
    rewrite bind_ret_eq with (1 := log_choice_run data (good data) bad _).
    reflexivity.
  - apply bind_raise_eq. rewrite <- Hcall. apply run_eta.
Qed.

(** C6 (as the code has it): every write operation returns [None], whatever
    [safe_request] handed back; the payload or the failure signal only
    chooses the one line the operation logs after the call: the success
    line at info level for a truthy payload, the failure line at error level
    otherwise.  The one other way out of a write operation is an exception
    that [safe_request] does not handle: it leaves the operation as it left
    the call, and no line is logged. *)
Theorem write_operations_return_none strategy s :
  perform_farming_action env cfg strategy s
  = match result_of (safe_request env cfg POST farm_url (Some (farm_payload cfg strategy)) s) with
    | Ret data =>
        (Ret PNone,
         state_of (safe_request env cfg POST farm_url (Some (farm_payload cfg strategy)) s),
         (events_of (safe_request env cfg POST farm_url (Some (farm_payload cfg strategy)) s)
            ++ [if truthy data
                then EvLog Info ("Farming performed with strategy: " ++ strategy)
                else EvLog Error "Farming failed"])%list)
    | Raise e =>
        (Raise e,
         state_of (safe_request env cfg POST farm_url (Some (farm_payload cfg strategy)) s),
         events_of (safe_request env cfg POST farm_url (Some (farm_payload cfg strategy)) s))
    end /\
  claim_rewards env cfg s
  = match result_of (safe_request env cfg POST claim_url (Some (wallet_payload cfg)) s) with
    | Ret data =>
        (Ret PNone,
         state_of (safe_request env cfg POST claim_url (Some (wallet_payload cfg)) s),
         (events_of (safe_request env cfg POST claim_url (Some (wallet_payload cfg)) s)
            ++ [if truthy data
                then EvLog Info ("Rewards claimed: " ++ py_str env data)
                else EvLog Error "Claim failed"])%list)
    | Raise e =>
        (Raise e,
         state_of (safe_request env cfg POST claim_url (Some (wallet_payload cfg)) s),
         events_of (safe_request env cfg POST claim_url (Some (wallet_payload cfg)) s))
    end /\
  stake_rewards env cfg s
  = match result_of (safe_request env cfg POST stake_url (Some (wallet_payload cfg)) s) with
    | Ret data =>
        (Ret PNone,
         state_of (safe_request env cfg POST stake_url (Some (wallet_payload cfg)) s),
         (events_of (safe_request env cfg POST stake_url (Some (wallet_payload cfg)) s)
            ++ [if truthy data
                then EvLog Info "Rewards re-staked"
                else EvLog Error "Re-staking failed"])%list)
    | Raise e =>
        (Raise e,
         state_of (safe_request env cfg POST stake_url (Some (wallet_payload cfg)) s),
         events_of (safe_request env cfg POST stake_url (Some (wallet_payload cfg)) s))
    end.
Proof.
  split; [|split].
  - apply (write_operation_run farm_url (farm_payload cfg strategy)
             (fun _ => "Farming performed with strategy: " ++ strategy) "Farming failed" s).
  - apply (write_operation_run claim_url (wallet_payload cfg)
             (fun data => "Rewards claimed: " ++ py_str env data) "Claim failed" s).
  - apply (write_operation_run stake_url (wallet_payload cfg)
             (fun _ => "Rewards re-staked") "Re-staking failed" s).
Qed.

(** The events of a write operation, given what the call returned. *)
Lemma write_operation_falsy url payload good bad s :
  (exists data,
     result_of (safe_request env cfg POST url (Some payload) s) = Ret data /\
     truthy data = false) ->
  (data <- safe_request env cfg POST url (Some payload) ;;
   (if truthy data then log (good data) Info else log bad Error) ;;
   ret PNone) s
  = (Ret PNone,
     state_of (safe_request env cfg POST url (Some payload) s),
     (events_of (safe_request env cfg POST url (Some payload) s)
        ++ [EvLog Error bad])%list).
Proof.
  intros (data & Hdata & Hfalsy).
  rewrite write_operation_run, Hdata, Hfalsy. reflexivity.
Qed.

Lemma falsy_or_absent method url json s :
  (exists payload,
     succeeds_with env (build_request cfg method url json) (sent s) payload /\
     truthy payload = false) \/
  call_fails env (build_request cfg method url json) (sent s) ->
  exists data,
    result_of (safe_request env cfg method url json s) = Ret data /\ truthy data = false.
Proof.
  intros [(payload & Hok & Hfalsy) | Hfail].
  - exists payload. split; [|exact Hfalsy]. apply safe_request_succeeds, Hok.
  - exists PNone. split; [|reflexivity]. apply safe_request_fails, Hfail.
Qed.

(** C9: a write call that the server answered with a falsy payload, such as
    an empty object, is handled exactly like one whose three attempts all
    failed: after the call the operation logs its failure line at error
    level, and not its success line. *)
Theorem write_operations_falsy_payload_is_failure strategy s :
  ((exists payload,
      succeeds_with env (build_request cfg POST farm_url (Some (farm_payload cfg strategy)))
                    (sent s) payload /\
      truthy payload = false) \/
   call_fails env (build_request cfg POST farm_url (Some (farm_payload cfg strategy))) (sent s) ->
   perform_farming_action env cfg strategy s
   = (Ret PNone,
      state_of (safe_request env cfg POST farm_url (Some (farm_payload cfg strategy)) s),
      (events_of (safe_request env cfg POST farm_url (Some (farm_payload cfg strategy)) s)
         ++ [EvLog Error "Farming failed"])%list)) /\
  ((exists payload,
      succeeds_with env (build_request cfg POST claim_url (Some (wallet_payload cfg)))
                    (sent s) payload /\
      truthy payload = false) \/
   call_fails env (build_request cfg POST claim_url (Some (wallet_payload cfg))) (sent s) ->
   claim_rewards env cfg s
   = (Ret PNone,
      state_of (safe_request env cfg POST claim_url (Some (wallet_payload cfg)) s),
      (events_of (safe_request env cfg POST claim_url (Some (wallet_payload cfg)) s)
         ++ [EvLog Error "Claim failed"])%list)) /\
  ((exists payload,
      succeeds_with env (build_request cfg POST stake_url (Some (wallet_payload cfg)))
                    (sent s) payload /\
      truthy payload = false) \/
   call_fails env (build_request cfg POST stake_url (Some (wallet_payload cfg))) (sent s) ->
   stake_rewards env cfg s
   = (Ret PNone,
      state_of (safe_request env cfg POST stake_url (Some (wallet_payload cfg)) s),
      (events_of (safe_request env cfg POST stake_url (Some (wallet_payload cfg)) s)
         ++ [EvLog Error "Re-staking failed"])%list)).
Proof.
  split; [|split]; intros H; apply falsy_or_absent in H.
  - apply (write_operation_falsy farm_url (farm_payload cfg strategy)
             (fun _ => "Farming performed with strategy: " ++ strategy) "Farming failed" s H).
  - apply (write_operation_falsy claim_url (wallet_payload cfg)
             (fun data => "Rewards claimed: " ++ py_str env data) "Claim failed" s H).
  - apply (write_operation_falsy stake_url (wallet_payload cfg)
             (fun _ => "Rewards re-staked") "Re-staking failed" s H).
Qed.

End WriteFacts.

(** C6 as the specification words it fails: the server accepts the farm
    request and answers with an object, the client returns that object and
    the operation returns [None]. *)
Lemma write_operation_drops_payload :
  let env := constant_env (PDict [("status", PStr "ok")]) in
  let s := initial_state 0 in
  result_of (safe_request env demo_config POST farm_url
                          (Some (farm_payload demo_config "standard")) s)
  = Ret (PDict [("status", PStr "ok")]) /\
  result_of (perform_farming_action env demo_config "standard" s) = Ret PNone /\
  result_of (perform_farming_action env demo_config "standard" s)
  <> result_of (safe_request env demo_config POST farm_url
                             (Some (farm_payload demo_config "standard")) s).
Proof.
  cbv zeta. split; [reflexivity|]. split; [reflexivity|].
  intros H. vm_compute in H. discriminate H.
Qed.

(** A server that accepts the farm request and answers with an empty
    object. *)
Lemma write_operations_falsy_payload_is_failure_witness :
  let env := constant_env (PDict []) in
  let s := initial_state 0 in
  succeeds_with env (build_request demo_config POST farm_url
                                   (Some (farm_payload demo_config "peak")))
                (sent s) (PDict []) /\
  truthy (PDict []) = false /\
  perform_farming_action env demo_config "peak" s
  = (Ret PNone, mkState 1 1 [],
     [EvRequest (build_request demo_config POST farm_url
                               (Some (farm_payload demo_config "peak")));
      EvLog Error "Farming failed"]).
Proof.
  intros env s.
  assert (Hok : succeeds_with env
                  (build_request demo_config POST farm_url
                                 (Some (farm_payload demo_config "peak")))
                  (sent s) (PDict [])).
  { exists 0. split; [unfold MAX_RETRIES; lia|].
    split; [intros i Hi; lia | reflexivity]. }
  split; [exact Hok|]. split; [reflexivity|].
  destruct (write_operations_falsy_payload_is_failure env demo_config "peak" s)
    as (Hfarm & _).
  rewrite Hfarm.
  - reflexivity.
  - left. exists (PDict []). split; [exact Hok | reflexivity].
Defined.

(** ** Which requests a run contains *)

Lemma requests_to_app m url evs1 evs2 :
  requests_to m url (evs1 ++ evs2)
  = (requests_to m url evs1 ++ requests_to m url evs2)%list.
Proof. apply flat_map_app. Qed.

Lemma requests_to_log m url lvl msg :
  requests_to m url [EvLog lvl msg] = [].
Proof. reflexivity. Qed.

Section RequestFacts.

Variables (env : Env) (cfg : Config).

Lemma requests_to_safe_request_from m url attempts method url' json : forall s,
  requests_to m url (events_of (safe_request_from env cfg attempts method url' json s))
  = if targets m url (build_request cfg method url' json)
    then repeat (build_request cfg method url' json)
                (count_requests (events_of (safe_request_from env cfg attempts method url' json s)))
    else [].
Proof.
  induction attempts as [|a rest IH]; intros s.
  - cbn. destruct (targets _ _ _); reflexivity.
  - destruct (respond env (sent s) (build_request cfg method url' json)) as [p|t|e] eqn:E.
    + rewrite (@safe_request_from_ok env cfg method url' json a rest s p E).
      unfold events_of, requests_to. cbn.
      destruct (targets _ _ _); reflexivity.
    + rewrite (@safe_request_from_error env cfg method url' json a rest s t E). cbv zeta.
      change (events_of (?a, ?b, ?c)) with c.
      rewrite count_requests_failed_attempt.
      change (requests_to m url (EvRequest ?r :: ?x :: ?y :: ?evs))
        with ((if targets m url r then [r] else []) ++ requests_to m url evs)%list.
      rewrite IH. destruct (targets _ _ _); reflexivity.
    + rewrite (@safe_request_from_raise env cfg method url' json a rest s e E).
      unfold events_of, requests_to. cbn.
      destruct (targets _ _ _); reflexivity.
Qed.

(** A call sends its first request whatever happens next. *)
Lemma safe_request_sends method url json s :
  1 <= count_requests (events_of (safe_request env cfg method url json s)).
Proof.
  unfold safe_request. cbn [seq MAX_RETRIES].
  destruct (respond env (sent s) (build_request cfg method url json)) as [p|t|e] eqn:E.
  - rewrite (@safe_request_from_ok env cfg method url json 0 _ s p E). cbn. lia.
  - rewrite (@safe_request_from_error env cfg method url json 0 _ s t E). cbv zeta.
    unfold events_of at 1. cbn [snd]. rewrite count_requests_failed_attempt. lia.
  - rewrite (@safe_request_from_raise env cfg method url json 0 _ s e E). cbn. lia.
Qed.

Lemma requests_to_own method url json s :
  requests_to method url (events_of (safe_request env cfg method url json s)) <> [].
Proof.
  unfold safe_request at 1. rewrite requests_to_safe_request_from.
  assert (Ht : targets method url (build_request cfg method url json) = true).
  { unfold targets. cbn. rewrite String.eqb_refl. destruct method; reflexivity. }
  rewrite Ht.
  pose proof (safe_request_sends method url json s) as Hn.
  unfold safe_request in Hn.
  destruct (count_requests _); [lia | discriminate].
Qed.

Lemma requests_to_own_payload method url json s r :
  In r (requests_to method url (events_of (safe_request env cfg method url json s))) ->
  r = build_request cfg method url json.
Proof.
  unfold safe_request. rewrite requests_to_safe_request_from.
  destruct (targets _ _ _); [|intros []].
  intros H. apply repeat_spec in H. exact H.
Qed.

Lemma requests_to_other m url method url' json s :
  targets m url (build_request cfg method url' json) = false ->
  requests_to m url (events_of (safe_request env cfg method url' json s)) = [].
Proof.
  intros H. unfold safe_request. rewrite requests_to_safe_request_from, H. reflexivity.
Qed.

Lemma read_requests m url url' key default s :
  requests_to m url
    (events_of ((data <- safe_request env cfg GET url' None ;;
                 lift (get_if_data data key default)) s))
  = requests_to m url (events_of (safe_request env cfg GET url' None s)).
Proof.
  destruct (result_of (safe_request env cfg GET url' None s)) as [data|e] eqn:Hcall.
  - rewrite (@read_after_request env cfg url' key default s data Hcall). reflexivity.
  - rewrite bind_raise_eq with (e := e)
      (s1 := state_of (safe_request env cfg GET url' None s))
      (ev1 := events_of (safe_request env cfg GET url' None s))
      by (rewrite <- Hcall; apply run_eta).
    reflexivity.
Qed.

Lemma rewards_requests m url s :
  requests_to m url (events_of (get_current_rewards env cfg s))
  = requests_to m url (events_of (safe_request env cfg GET (rewards_url cfg) None s)).
Proof.
  unfold get_current_rewards, bind, lift, log, emit, ret.
  destruct (safe_request env cfg GET (rewards_url cfg) None s) as [[[data|e] s1] ev1].
  - destruct (get_if_data data "unclaimed" (PInt 0));
      cbv [events_of snd app]; rewrite ?app_nil_r, ?requests_to_app;
      rewrite ?requests_to_log, ?app_nil_r; reflexivity.
  - reflexivity.
Qed.

Lemma write_requests m url url' payload good bad s :
  requests_to m url
    (events_of ((data <- safe_request env cfg POST url' (Some payload) ;;
                 (if truthy data then log (good data) Info else log bad Error) ;;
                 ret PNone) s))
  = requests_to m url (events_of (safe_request env cfg POST url' (Some payload) s)).
Proof.
  rewrite (@write_operation_run env cfg url' payload good bad s).
  destruct (result_of (safe_request env cfg POST url' (Some payload) s)) as [data|e].
  - change (events_of (?a, ?b, ?c)) with c.
    rewrite requests_to_app.
    destruct (truthy data); cbn; apply app_nil_r.
  - reflexivity.
Qed.

(** A write operation that returns returns [None]. *)
Lemma write_result url payload good bad s v :
  result_of ((data <- safe_request env cfg POST url (Some payload) ;;
              (if truthy data then log (good data) Info else log bad Error) ;;
              ret PNone) s) = Ret v ->
  v = PNone.
Proof.
  rewrite (@write_operation_run env cfg url payload good bad s).
  destruct (result_of (safe_request env cfg POST url (Some payload) s)) as [data|e];
    cbn; congruence.
Qed.

(** What each operation sends. *)
Lemma farming_action_requests strategy s :
  requests_to POST farm_url (events_of (perform_farming_action env cfg strategy s)) <> [] /\
  forall r,
    In r (requests_to POST farm_url (events_of (perform_farming_action env cfg strategy s))) ->
    r = build_request cfg POST farm_url (Some (farm_payload cfg strategy)).
Proof.
  unfold perform_farming_action.
  rewrite (write_requests POST farm_url farm_url (farm_payload cfg strategy)
             (fun _ => "Farming performed with strategy: " ++ strategy) "Farming failed" s).
  split; [apply requests_to_own | apply requests_to_own_payload].
Qed.

Lemma claim_rewards_requests s :
  requests_to POST claim_url (events_of (claim_rewards env cfg s)) <> [] /\
  requests_to POST stake_url (events_of (claim_rewards env cfg s)) = [].
Proof.
  unfold claim_rewards.
  rewrite !(write_requests POST _ claim_url (wallet_payload cfg)
              (fun data => "Rewards claimed: " ++ py_str env data) "Claim failed" s).
  split; [apply requests_to_own | apply requests_to_other; reflexivity].
Qed.

Lemma stake_rewards_requests s :
  requests_to POST stake_url (events_of (stake_rewards env cfg s)) <> [] /\
  requests_to POST claim_url (events_of (stake_rewards env cfg s)) = [].
Proof.
  unfold stake_rewards.
  rewrite !(write_requests POST _ stake_url (wallet_payload cfg)
              (fun _ => "Rewards re-staked") "Re-staking failed" s).
  split; [apply requests_to_own | apply requests_to_other; reflexivity].
Qed.

(** A read sends nothing but [GET]s. *)
Lemma reads_send_no_post url s :
  requests_to POST url (events_of (get_activity_score env cfg s)) = [] /\
  requests_to POST url (events_of (is_peak_time env cfg s)) = [] /\
  requests_to POST url (events_of (get_current_rewards env cfg s)) = [] /\
  requests_to POST url (events_of (get_staking_status env cfg s)) = [].
Proof.
  unfold get_activity_score, is_peak_time, get_staking_status.
  rewrite !read_requests, rewards_requests.
  repeat split; apply requests_to_other; reflexivity.
Qed.

End RequestFacts.

(** ** Cycle policies *)

Lemma py_ge_activity_int (z : Z) :
  py_ge (PInt z) ACTIVITY_THRESHOLD = Ret (75 <=? z)%Z.
Proof.
  unfold py_ge, ACTIVITY_THRESHOLD, as_number, xnum_of_int, xnum_ge, xnum_compare.
  rewrite Z.min_id, Z.sub_diag, Z.pow_0_r, !Z.mul_1_r.
  rewrite (Z.leb_compare 75 z), (Z.compare_antisym 75 z).
  destruct (75 ?= z)%Z; reflexivity.
Qed.

Lemma py_ge_reward_int (z : Z) :
  py_ge (PInt z) REWARD_THRESHOLD = Ret (1 <=? z)%Z.
Proof.
  unfold py_ge, REWARD_THRESHOLD, as_number, xnum_of_int, xnum_of_float, xnum_ge, xnum_compare.
  replace (Z.min 0 (-52)) with (-52)%Z by reflexivity.
  replace (-52 - -52)%Z with 0%Z by reflexivity.
  replace (0 - -52)%Z with 52%Z by reflexivity.
  change (2 ^ 52)%Z with 4503599627370496%Z. change (2 ^ 0)%Z with 1%Z.
  destruct (Z.compare_spec (z * 4503599627370496) (4503599627370496 * 1));
    destruct (Z.leb_spec 1 z); try reflexivity; lia.
Qed.

Section CycleFacts.

Variables (env : Env) (cfg : Config).

Lemma strategy_of_label peak :
  (strategy_of peak = "peak" <-> truthy peak = true) /\
  (strategy_of peak = "standard" <-> truthy peak = false).
Proof.
  unfold strategy_of. destruct (truthy peak); repeat split; intros H;
    try reflexivity; discriminate H.
Qed.

(** The run of the farming cycle after its two reads. *)
Lemma farming_cycle_run s activity s1 ev1 peak s2 ev2 :
  get_activity_score env cfg s = (Ret activity, s1, ev1) ->
  is_peak_time env cfg s1 = (Ret peak, s2, ev2) ->
  let selected :=
    EvLog Info ("Strategy selected: " ++ strategy_of peak
                  ++ " | Activity: " ++ py_str env activity) in
  farming_cycle env cfg s
  = match py_ge activity ACTIVITY_THRESHOLD with
    | Ret true =>
        (result_of (perform_farming_action env cfg (strategy_of peak) s2),
         state_of (perform_farming_action env cfg (strategy_of peak) s2),
         (ev1 ++ ev2 ++ [selected]
            ++ events_of (perform_farming_action env cfg (strategy_of peak) s2))%list)
    | Ret false =>
        (Ret PNone, s2,
         (ev1 ++ ev2
            ++ [selected;
                EvLog Info ("Activity too low (" ++ py_str env activity
                              ++ "), skipping farming.")])%list)
    | Raise e => (Raise e, s2, (ev1 ++ ev2 ++ [selected])%list)
    end.
Proof.
  intros H1 H2 selected.
  pose proof (@write_result env cfg farm_url (farm_payload cfg (strategy_of peak))
                (fun _ => "Farming performed with strategy: " ++ strategy_of peak)
                "Farming failed" s2) as Hnone.
  change (forall v, result_of (perform_farming_action env cfg (strategy_of peak) s2) = Ret v
                    -> v = PNone) in Hnone.
  unfold farming_cycle, bind. rewrite H1, H2.
  unfold log, emit, lift, ret.
  destruct (py_ge activity ACTIVITY_THRESHOLD) as [[|]|e].
  - destruct (perform_farming_action env cfg (strategy_of peak) s2) as [[[v|e] s3] ev3].
    + rewrite (Hnone v eq_refl).
      unfold result_of, state_of, events_of. cbv [fst snd].
      rewrite !app_nil_r. reflexivity.
    + reflexivity.
  - reflexivity.
  - reflexivity.
Qed.

(** What the farming cycle does once it has read a score and a flag. *)
Lemma farming_cycle_decides s activity s1 ev1 peak s2 ev2 :
  get_activity_score env cfg s = (Ret activity, s1, ev1) ->
  is_peak_time env cfg s1 = (Ret peak, s2, ev2) ->
  let farms := requests_to POST farm_url (events_of (farming_cycle env cfg s)) in
  (farms <> [] <-> py_ge activity ACTIVITY_THRESHOLD = Ret true) /\
  (forall z, activity = PInt z -> (farms <> [] <-> (75 <= z)%Z)) /\
  (forall r, In r farms ->
     r = build_request cfg POST farm_url (Some (farm_payload cfg (strategy_of peak)))) /\
  (strategy_of peak = "peak" <-> truthy peak = true) /\
  (strategy_of peak = "standard" <-> truthy peak = false) /\
  (py_ge activity ACTIVITY_THRESHOLD = Ret false ->
   farming_cycle env cfg s
   = (Ret PNone, s2,
      (ev1 ++ ev2
         ++ [EvLog Info ("Strategy selected: " ++ strategy_of peak
                           ++ " | Activity: " ++ py_str env activity);
             EvLog Info ("Activity too low (" ++ py_str env activity
                           ++ "), skipping farming.")])%list)).
Proof.
  intros H1 H2 farms.
  pose proof (farming_cycle_run s H1 H2) as Hrun. cbv zeta in Hrun.
  assert (Hev1 : requests_to POST farm_url ev1 = []).
  { destruct (reads_send_no_post env cfg farm_url s) as (H & _).
    rewrite H1 in H. exact H. }
  assert (Hev2 : requests_to POST farm_url ev2 = []).
  { destruct (reads_send_no_post env cfg farm_url s1) as (_ & H & _).
    rewrite H2 in H. exact H. }
  destruct (farming_action_requests env cfg (strategy_of peak) s2) as [Hsent Hpayload].
  assert (Hiff : farms <> [] <-> py_ge activity ACTIVITY_THRESHOLD = Ret true).
  { subst farms. rewrite Hrun.
    destruct (py_ge activity ACTIVITY_THRESHOLD) as [[|]|e];
      change (events_of (?a, ?b, ?c)) with c;
      rewrite !requests_to_app, Hev1, Hev2; cbn [app].
    - split; [reflexivity | intros _; exact Hsent].
    - split; [intros H; exfalso; apply H; reflexivity | discriminate].
    - split; [intros H; exfalso; apply H; reflexivity | discriminate]. }
  split; [exact Hiff|].
  split.
  { intros z ->. rewrite Hiff, py_ge_activity_int.
    split.
    - intros H. injection H as H. apply Z.leb_le, H.
    - intros H. apply Z.leb_le in H. rewrite H. reflexivity. }
  split.
  { subst farms. rewrite Hrun. intros r.
    destruct (py_ge activity ACTIVITY_THRESHOLD) as [[|]|e];
      change (events_of (?a, ?b, ?c)) with c;
      rewrite !requests_to_app, Hev1, Hev2; cbn [app].
    - apply Hpayload.
    - intros [].
    - intros []. }
  split; [apply strategy_of_label|].
  split; [apply strategy_of_label|].
  intros Hlow. rewrite Hrun, Hlow. reflexivity.
Qed.

(** A read that raises ends the farming cycle on the spot. *)
Lemma farming_cycle_aborts s :
  (forall e s1 ev1,
     get_activity_score env cfg s = (Raise e, s1, ev1) ->
     farming_cycle env cfg s = (Raise e, s1, ev1)) /\
  (forall activity s1 ev1 e s2 ev2,
     get_activity_score env cfg s = (Ret activity, s1, ev1) ->
     is_peak_time env cfg s1 = (Raise e, s2, ev2) ->
     farming_cycle env cfg s = (Raise e, s2, (ev1 ++ ev2)%list)).
Proof.
  split.
  - intros e s1 ev1 H1. unfold farming_cycle, bind. rewrite H1. reflexivity.
  - intros activity s1 ev1 e s2 ev2 H1 H2.
    unfold farming_cycle, bind. rewrite H1, H2. reflexivity.
Qed.

(** C3 (as the code has it): a run of the farming cycle sends a farm request
    only after it has read an activity score and a peak flag, with
    [score >= 75]; a read that raises ends the cycle on the spot, with that
    exception and without a farm request, whatever the score is.  In a run
    that has read a score and a peak flag, a farm request is sent exactly
    when [score >= 75] holds; every farm request carries the label chosen
    from the flag, which is ["peak"] exactly when the flag is true and
    ["standard"] otherwise; and when [score >= 75] is false the cycle only
    adds its strategy line and a skip line that quotes the score. *)
Theorem farming_cycle_policy s :
  let farms := requests_to POST farm_url (events_of (farming_cycle env cfg s)) in
  (farms <> [] ->
   exists activity s1 ev1 peak s2 ev2,
     get_activity_score env cfg s = (Ret activity, s1, ev1) /\
     is_peak_time env cfg s1 = (Ret peak, s2, ev2) /\
     py_ge activity ACTIVITY_THRESHOLD = Ret true) /\
  (forall e s1 ev1,
     get_activity_score env cfg s = (Raise e, s1, ev1) ->
     farming_cycle env cfg s = (Raise e, s1, ev1) /\ farms = []) /\
  (forall activity s1 ev1 e s2 ev2,
     get_activity_score env cfg s = (Ret activity, s1, ev1) ->
     is_peak_time env cfg s1 = (Raise e, s2, ev2) ->
     farming_cycle env cfg s = (Raise e, s2, (ev1 ++ ev2)%list) /\ farms = []) /\
  (forall activity s1 ev1 peak s2 ev2,
     get_activity_score env cfg s = (Ret activity, s1, ev1) ->
     is_peak_time env cfg s1 = (Ret peak, s2, ev2) ->
     (farms <> [] <-> py_ge activity ACTIVITY_THRESHOLD = Ret true) /\
     (forall z, activity = PInt z -> (farms <> [] <-> (75 <= z)%Z)) /\
     (forall r, In r farms ->
        r = build_request cfg POST farm_url (Some (farm_payload cfg (strategy_of peak)))) /\
     (strategy_of peak = "peak" <-> truthy peak = true) /\
     (strategy_of peak = "standard" <-> truthy peak = false) /\
     (py_ge activity ACTIVITY_THRESHOLD = Ret false ->
      farming_cycle env cfg s
      = (Ret PNone, s2,
         (ev1 ++ ev2
            ++ [EvLog Info ("Strategy selected: " ++ strategy_of peak
                              ++ " | Activity: " ++ py_str env activity);
                EvLog Info ("Activity too low (" ++ py_str env activity
                              ++ "), skipping farming.")])%list))).
Proof.
  intros farms.
  destruct (farming_cycle_aborts s) as [Habort1 Habort2].
  assert (Hraise1 : forall e s1 ev1,
    get_activity_score env cfg s = (Raise e, s1, ev1) ->
    farming_cycle env cfg s = (Raise e, s1, ev1) /\ farms = []).
  { intros e s1 ev1 H1. split; [exact (Habort1 _ _ _ H1)|].
    subst farms. rewrite (Habort1 _ _ _ H1).
    destruct (reads_send_no_post env cfg farm_url s) as (Hev1 & _).
    rewrite H1 in Hev1. exact Hev1. }
  assert (Hraise2 : forall activity s1 ev1 e s2 ev2,
    get_activity_score env cfg s = (Ret activity, s1, ev1) ->
    is_peak_time env cfg s1 = (Raise e, s2, ev2) ->
    farming_cycle env cfg s = (Raise e, s2, (ev1 ++ ev2)%list) /\ farms = []).
  { intros activity s1 ev1 e s2 ev2 H1 H2.
    split; [exact (Habort2 _ _ _ _ _ _ H1 H2)|].
    subst farms. rewrite (Habort2 _ _ _ _ _ _ H1 H2).
    change (events_of (?a, ?b, ?c)) with c. rewrite requests_to_app.
    destruct (reads_send_no_post env cfg farm_url s) as (Hev1 & _).
    destruct (reads_send_no_post env cfg farm_url s1) as (_ & Hev2 & _).
    rewrite H1 in Hev1. rewrite H2 in Hev2.
    change (events_of (?a, ?b, ?c)) with c in Hev1, Hev2.
    rewrite Hev1, Hev2. reflexivity. }
  split; [|split; [exact Hraise1 | split; [exact Hraise2|]]].
  - intros Hfarms.
    destruct (get_activity_score env cfg s) as [[[activity|e] s1] ev1] eqn:H1.
    + destruct (is_peak_time env cfg s1) as [[[peak|e] s2] ev2] eqn:H2.
      * exists activity, s1, ev1, peak, s2, ev2.
        split; [reflexivity|]. split; [exact H2|].
        destruct (farming_cycle_decides s H1 H2) as (Hiff & _). apply Hiff, Hfarms.
      * exfalso. apply Hfarms. exact (proj2 (Hraise2 _ _ _ _ _ _ eq_refl H2)).
    + exfalso. apply Hfarms. exact (proj2 (Hraise1 _ _ _ eq_refl)).
  - intros activity s1 ev1 peak s2 ev2 H1 H2.
    exact (farming_cycle_decides s H1 H2).
Qed.

(** The run of the compounding cycle after its read. *)
Lemma compound_cycle_run s rewards s1 ev1 :
  get_current_rewards env cfg s = (Ret rewards, s1, ev1) ->
  let claim := claim_rewards env cfg s1 in
  let stake := stake_rewards env cfg (advance (state_of claim) 5) in
  compound_cycle env cfg s
  = match py_ge rewards REWARD_THRESHOLD with
    | Ret true =>
        match result_of claim with
        | Ret _ =>
            match result_of stake with
            | Ret _ =>
                (Ret PNone, state_of stake,
                 (ev1 ++ events_of claim ++ [EvSleep 5] ++ events_of stake
                    ++ [EvLog Info ("Compounded " ++ py_str env rewards
                                      ++ " TENEO into staking.")])%list)
            | Raise e =>
                (Raise e, state_of stake,
                 (ev1 ++ events_of claim ++ [EvSleep 5] ++ events_of stake)%list)
            end
        | Raise e => (Raise e, state_of claim, (ev1 ++ events_of claim)%list)
        end
    | Ret false =>
        (Ret PNone, s1, (ev1 ++ [EvLog Info "Not enough rewards to compound."])%list)
    | Raise e => (Raise e, s1, ev1)
    end.
Proof.
  intros H1 claim stake.
  unfold compound_cycle, bind. rewrite H1.
  unfold lift.
  destruct (py_ge rewards REWARD_THRESHOLD) as [[|]|e].
  - fold claim. destruct claim as [[[vc|ec] sc] evc] eqn:Ec.
    + unfold sleep at 1. unfold state_of in stake. cbv [fst snd] in stake.
      fold stake. destruct stake as [[[vs|es] ss] evs] eqn:Es.
      * unfold log, emit, ret, result_of, state_of, events_of. cbv [fst snd].
        rewrite ?app_nil_r. reflexivity.
      * unfold result_of, state_of, events_of. cbv [fst snd].
        rewrite ?app_nil_r. reflexivity.
    + unfold result_of, state_of, events_of. cbv [fst snd].
      rewrite ?app_nil_r. reflexivity.
  - unfold log, emit, ret. rewrite !app_nil_r. reflexivity.
  - rewrite app_nil_r. reflexivity.
Qed.

(** What the compounding cycle does once it has read an amount. *)
Lemma compound_cycle_decides s rewards s1 ev1 :
  get_current_rewards env cfg s = (Ret rewards, s1, ev1) ->
  let run := compound_cycle env cfg s in
  let claim := claim_rewards env cfg s1 in
  let stake := stake_rewards env cfg (advance (state_of claim) 5) in
  (requests_to POST claim_url (events_of run) <> []
   <-> py_ge rewards REWARD_THRESHOLD = Ret true) /\
  (requests_to POST stake_url (events_of run) <> []
   <-> py_ge rewards REWARD_THRESHOLD = Ret true /\ result_of claim = Ret PNone) /\
  (py_ge rewards REWARD_THRESHOLD = Ret true ->
   run = match result_of claim with
         | Ret _ =>
             match result_of stake with
             | Ret _ =>
                 (Ret PNone, state_of stake,
                  (ev1 ++ events_of claim ++ [EvSleep 5] ++ events_of stake
                     ++ [EvLog Info ("Compounded " ++ py_str env rewards
                                       ++ " TENEO into staking.")])%list)
             | Raise e =>
                 (Raise e, state_of stake,
                  (ev1 ++ events_of claim ++ [EvSleep 5] ++ events_of stake)%list)
             end
         | Raise e => (Raise e, state_of claim, (ev1 ++ events_of claim)%list)
         end /\
   requests_to POST claim_url ev1 = [] /\
   requests_to POST stake_url ev1 = [] /\
   requests_to POST claim_url (events_of claim) <> [] /\
   requests_to POST stake_url (events_of claim) = [] /\
   requests_to POST stake_url (events_of stake) <> [] /\
   requests_to POST claim_url (events_of stake) = []) /\
  (py_ge rewards REWARD_THRESHOLD = Ret false ->
   run = (Ret PNone, s1, (ev1 ++ [EvLog Info "Not enough rewards to compound."])%list)).
Proof.
  intros H1 run claim stake.
  pose proof (compound_cycle_run s H1) as Hrun. cbv zeta in Hrun.
  fold run claim stake in Hrun.
  assert (Hev1 : forall url, requests_to POST url ev1 = []).
  { intros url. destruct (reads_send_no_post env cfg url s) as (_ & _ & H & _).
    rewrite H1 in H. exact H. }
  destruct (claim_rewards_requests env cfg s1) as [Hcc Hcs].
  destruct (stake_rewards_requests env cfg (advance (state_of claim) 5)) as [Hss Hsc].
  fold claim in Hcc, Hcs. fold stake in Hss, Hsc.
  pose proof (@write_result env cfg claim_url (wallet_payload cfg)
                (fun data => "Rewards claimed: " ++ py_str env data)
                "Claim failed" s1) as Hnone.
  change (forall v, result_of claim = Ret v -> v = PNone) in Hnone.
  split; [|split; [|split]].
  - rewrite Hrun.
    destruct (py_ge rewards REWARD_THRESHOLD) as [[|]|e].
    + split; [reflexivity|]. intros _ H. apply Hcc.
      destruct (result_of claim) as [vc|ec]; [destruct (result_of stake) as [vs|es]|];
        change (events_of (?a, ?b, ?c)) with c in H;
        rewrite ?requests_to_app, ?Hev1 in H; cbn [app] in H;
        [apply app_eq_nil in H; apply H | apply app_eq_nil in H; apply H | exact H].
    + change (events_of (?a, ?b, ?c)) with c.
      rewrite ?requests_to_app, ?Hev1; cbn [app].
      split; [intros H; exfalso; apply H; reflexivity | discriminate].
    + change (events_of (?a, ?b, ?c)) with c. rewrite Hev1.
      split; [intros H; exfalso; apply H; reflexivity | discriminate].
  - rewrite Hrun.
    destruct (py_ge rewards REWARD_THRESHOLD) as [[|]|e].
    + destruct (result_of claim) as [vc|ec] eqn:Hclaim.
      * rewrite (Hnone vc eq_refl).
        split; [intros _; split; reflexivity|]. intros _ H. apply Hss.
        destruct (result_of stake) as [vs|es];
          change (events_of (?a, ?b, ?c)) with c in H;
          rewrite ?requests_to_app, ?Hev1, ?Hcs in H; cbn [app] in H;
          change (requests_to POST stake_url [EvSleep 5]) with (@nil request) in H;
          cbn [app] in H; [apply app_eq_nil in H; apply H | exact H].
      * change (events_of (?a, ?b, ?c)) with c.
        rewrite requests_to_app, Hev1, Hcs.
        split; [intros H; exfalso; apply H; reflexivity | intros [_ H]; discriminate H].
    + change (events_of (?a, ?b, ?c)) with c.
      rewrite ?requests_to_app, ?Hev1; cbn [app].
      split; [intros H; exfalso; apply H; reflexivity | intros [H _]; discriminate H].
    + change (events_of (?a, ?b, ?c)) with c. rewrite Hev1.
      split; [intros H; exfalso; apply H; reflexivity | intros [H _]; discriminate H].
  - intros Hge. rewrite Hrun, Hge.
    repeat split; auto.
  - intros Hlow. rewrite Hrun, Hlow. reflexivity.
Qed.

(** C4 (as the code has it): a run of the compounding cycle sends a claim or
    a stake request only after it has read an unclaimed amount with
    [amount >= 1.0]; a read that raises ends the cycle on the spot; and in a
    run that has read an amount, a claim request
    is sent exactly when [amount >= 1.0] holds, and a stake request exactly
    when it holds and the claim call returns.  The run is then the rewards
    read, the whole claim call, a sleep of 5, the whole stake call and, when
    that returns, the closing log line, the claim call sending claim
    requests and no stake request and the stake call the reverse, so every
    claim request comes before the sleep and every stake request after it.
    An exception that leaves the claim call ends the cycle there: nothing is
    slept and nothing is staked.  When [amount >= 1.0] is false the cycle
    only logs that there is not enough to compound. *)
Theorem compound_cycle_policy s :
  let run := compound_cycle env cfg s in
  (requests_to POST claim_url (events_of run) <> [] \/
   requests_to POST stake_url (events_of run) <> [] ->
   exists rewards s1 ev1,
     get_current_rewards env cfg s = (Ret rewards, s1, ev1) /\
     py_ge rewards REWARD_THRESHOLD = Ret true) /\
  (forall e s1 ev1,
     get_current_rewards env cfg s = (Raise e, s1, ev1) ->
     run = (Raise e, s1, ev1)) /\
  (forall rewards s1 ev1,
     get_current_rewards env cfg s = (Ret rewards, s1, ev1) ->
     let claim := claim_rewards env cfg s1 in
     let stake := stake_rewards env cfg (advance (state_of claim) 5) in
     (requests_to POST claim_url (events_of run) <> []
      <-> py_ge rewards REWARD_THRESHOLD = Ret true) /\
     (requests_to POST stake_url (events_of run) <> []
      <-> py_ge rewards REWARD_THRESHOLD = Ret true /\ result_of claim = Ret PNone) /\
     (forall z, rewards = PInt z ->
        (requests_to POST claim_url (events_of run) <> [] <-> (1 <= z)%Z)) /\
     (py_ge rewards REWARD_THRESHOLD = Ret true ->
      run = match result_of claim with
            | Ret _ =>
                match result_of stake with
                | Ret _ =>
                    (Ret PNone, state_of stake,
                     (ev1 ++ events_of claim ++ [EvSleep 5] ++ events_of stake
                        ++ [EvLog Info ("Compounded " ++ py_str env rewards
                                          ++ " TENEO into staking.")])%list)
                | Raise e =>
                    (Raise e, state_of stake,
                     (ev1 ++ events_of claim ++ [EvSleep 5] ++ events_of stake)%list)
                end
            | Raise e => (Raise e, state_of claim, (ev1 ++ events_of claim)%list)
            end /\
      requests_to POST claim_url ev1 = [] /\
      requests_to POST stake_url ev1 = [] /\
      requests_to POST claim_url (events_of claim) <> [] /\
      requests_to POST stake_url (events_of claim) = [] /\
      requests_to POST stake_url (events_of stake) <> [] /\
      requests_to POST claim_url (events_of stake) = []) /\
     (py_ge rewards REWARD_THRESHOLD = Ret false ->
      run = (Ret PNone, s1,
             (ev1 ++ [EvLog Info "Not enough rewards to compound."])%list))).
Proof.
  intros run. split.
  - intros Hsent.
    destruct (get_current_rewards env cfg s) as [[[rewards|e] s1] ev1] eqn:H1.
    + exists rewards, s1, ev1. split; [reflexivity|].
      destruct (compound_cycle_decides s H1) as (Hclaim & Hstake & _).
      destruct Hsent as [H | H]; [apply Hclaim, H | apply Hstake, H].
    + exfalso. subst run. unfold compound_cycle, bind in Hsent. rewrite H1 in Hsent.
      change (events_of (?a, ?b, ?c)) with c in Hsent.
      destruct (reads_send_no_post env cfg claim_url s) as (_ & _ & Hc & _).
      destruct (reads_send_no_post env cfg stake_url s) as (_ & _ & Hs & _).
      rewrite H1 in Hc, Hs. change (events_of (?a, ?b, ?c)) with c in Hc, Hs.
      rewrite Hc, Hs in Hsent. destruct Hsent as [H | H]; apply H; reflexivity.
  - split.
    { intros e s1 ev1 H1. subst run. unfold compound_cycle, bind. rewrite H1. reflexivity. }
    intros rewards s1 ev1 H1 claim stake.
    destruct (compound_cycle_decides s H1) as (Hclaim & Hstake & Hge & Hlow).
    split; [exact Hclaim|]. split; [exact Hstake|].
    split; [|split; [exact Hge | exact Hlow]].
    intros z ->. unfold run. rewrite Hclaim, py_ge_reward_int. split.
    + intros H. injection H as H. apply Z.leb_le, H.
    + intros H. apply Z.leb_le in H. rewrite H. reflexivity.
Qed.

(** The run of the staking check after its read. *)
Lemma check_staking_run s staked s1 ev1 :
  get_staking_status env cfg s = (Ret staked, s1, ev1) ->
  check_staking env cfg s
  = if truthy staked
    then (Ret PNone, s1, (ev1 ++ [EvLog Info "Wallet staking is active."])%list)
    else (result_of (stake_rewards env cfg s1), state_of (stake_rewards env cfg s1),
          (ev1 ++ [EvLog Info "Wallet not staked. Attempting to stake..."]
             ++ events_of (stake_rewards env cfg s1))%list).
Proof.
  intros H1.
  pose proof (@write_result env cfg stake_url (wallet_payload cfg)
                (fun _ => "Rewards re-staked") "Re-staking failed" s1) as Hstake.
  change (forall v, result_of (stake_rewards env cfg s1) = Ret v -> v = PNone) in Hstake.
  unfold check_staking, bind. rewrite H1.
  destruct (truthy staked); cbv [negb].
  - unfold log, emit, ret. rewrite !app_nil_r. reflexivity.
  - unfold log at 1, emit at 1.
    destruct (stake_rewards env cfg s1) as [[[v|e] ss] evs].
    + rewrite (Hstake v eq_refl).
      unfold ret, result_of, state_of, events_of. cbv [fst snd].
      rewrite ?app_nil_r. reflexivity.
    + reflexivity.
Qed.

(** What the staking check does once it has read a flag. *)
Lemma check_staking_decides s staked s1 ev1 :
  get_staking_status env cfg s = (Ret staked, s1, ev1) ->
  let run := check_staking env cfg s in
  (requests_to POST stake_url (events_of run) <> [] <-> truthy staked = false) /\
  (forall b, staked = PBool b ->
     (requests_to POST stake_url (events_of run) <> [] <-> b = false)) /\
  (truthy staked = true ->
   run = (Ret PNone, s1, (ev1 ++ [EvLog Info "Wallet staking is active."])%list) /\
   forall url, requests_to POST url (events_of run) = []) /\
  (truthy staked = false ->
   run = (match result_of (stake_rewards env cfg s1) with
          | Ret _ => Ret PNone
          | Raise e => Raise e
          end,
          state_of (stake_rewards env cfg s1),
          (ev1 ++ [EvLog Info "Wallet not staked. Attempting to stake..."]
             ++ events_of (stake_rewards env cfg s1))%list)).
Proof.
  intros H1 run.
  pose proof (check_staking_run s H1) as Hrun. fold run in Hrun.
  assert (Hev1 : forall url, requests_to POST url ev1 = []).
  { intros url. destruct (reads_send_no_post env cfg url s) as (_ & _ & _ & H).
    rewrite H1 in H. exact H. }
  destruct (stake_rewards_requests env cfg s1) as [Hss _].
  assert (Hiff : requests_to POST stake_url (events_of run) <> [] <-> truthy staked = false).
  { rewrite Hrun. destruct (truthy staked);
      change (events_of (?a, ?b, ?c)) with c;
      rewrite ?requests_to_app, ?Hev1; cbn [app].
    - split; [intros H; exfalso; apply H; reflexivity | discriminate].
    - split; [reflexivity|]. intros _ H.
      change (requests_to POST stake_url [EvLog Info ?m]) with (@nil request) in H.
      cbn [app] in H. exact (Hss H). }
  split; [exact Hiff|].
  split; [intros b ->; exact Hiff|].
  split.
  - intros Ht. rewrite Hrun, Ht. split; [reflexivity|].
    intros url. change (events_of (?a, ?b, ?c)) with c.
    rewrite requests_to_app, Hev1. reflexivity.
  - intros Hf. rewrite Hrun, Hf.
    pose proof (@write_result env cfg stake_url (wallet_payload cfg)
                  (fun _ => "Rewards re-staked") "Re-staking failed" s1) as Hnone.
    change (forall v, result_of (stake_rewards env cfg s1) = Ret v -> v = PNone) in Hnone.
    destruct (result_of (stake_rewards env cfg s1)) as [v|e];
      [rewrite (Hnone v eq_refl)|]; reflexivity.
Qed.

(** C5: a run of the staking check sends a stake request only after it has
    read a staking flag that is false; and in a run that has read a flag, a
    stake request is sent exactly when the flag is false; when the flag is
    true the cycle adds one line, that staking is active, and sends no
    request of its own; when it is false the cycle logs that it is about to
    stake, runs the stake call and returns [None], unless an exception
    leaves the stake call, which then leaves the cycle too. *)
Theorem check_staking_policy s :
  let run := check_staking env cfg s in
  (requests_to POST stake_url (events_of run) <> [] ->
   exists staked s1 ev1,
     get_staking_status env cfg s = (Ret staked, s1, ev1) /\
     truthy staked = false) /\
  (forall staked s1 ev1,
     get_staking_status env cfg s = (Ret staked, s1, ev1) ->
     (requests_to POST stake_url (events_of run) <> [] <-> truthy staked = false) /\
     (forall b, staked = PBool b ->
        (requests_to POST stake_url (events_of run) <> [] <-> b = false)) /\
     (truthy staked = true ->
      run = (Ret PNone, s1, (ev1 ++ [EvLog Info "Wallet staking is active."])%list) /\
      forall url, requests_to POST url (events_of run) = []) /\
     (truthy staked = false ->
      run = (match result_of (stake_rewards env cfg s1) with
             | Ret _ => Ret PNone
             | Raise e => Raise e
             end,
             state_of (stake_rewards env cfg s1),
             (ev1 ++ [EvLog Info "Wallet not staked. Attempting to stake..."]
                ++ events_of (stake_rewards env cfg s1))%list))).
Proof.
  intros run. split.
  - intros Hsent.
    destruct (get_staking_status env cfg s) as [[[staked|e] s1] ev1] eqn:H1.
    + exists staked, s1, ev1. split; [reflexivity|].
      destruct (check_staking_decides s H1) as (Hiff & _). apply Hiff, Hsent.
    + exfalso. apply Hsent. subst run. unfold check_staking, bind. rewrite H1.
      destruct (reads_send_no_post env cfg stake_url s) as (_ & _ & _ & Hev1).
      rewrite H1 in Hev1. exact Hev1.
  - intros staked s1 ev1 H1. exact (check_staking_decides s H1).
Qed.

End CycleFacts.

(** Scenario B of the specification: a score of 50 is logged and skipped. *)
Lemma farming_cycle_policy_witness :
  let s := initial_state 0 in
  let activity := get_activity_score low_activity_env demo_config s in
  let peak := is_peak_time low_activity_env demo_config (state_of activity) in
  activity = (Ret (PInt 50), state_of activity, events_of activity) /\
  peak = (Ret (PBool true), state_of peak, events_of peak) /\
  py_ge (PInt 50) ACTIVITY_THRESHOLD = Ret false /\
  farming_cycle low_activity_env demo_config s
  = (Ret PNone, mkState 2 2 [],
     [EvRequest (build_request demo_config GET (activity_url demo_config) None);
      EvRequest (build_request demo_config GET peak_url None);
      EvLog Info "Strategy selected: peak | Activity: 50";
      EvLog Info "Activity too low (50), skipping farming."]).
Proof.
  intros s activity peak.
  assert (H1 : activity = (Ret (PInt 50), state_of activity, events_of activity))
    by reflexivity.
  assert (H2 : peak = (Ret (PBool true), state_of peak, events_of peak))
    by reflexivity.
  split; [exact H1|]. split; [exact H2|]. split; [reflexivity|].
  destruct (farming_cycle_policy low_activity_env demo_config s) as (_ & _ & _ & Hdecides).
  destruct (Hdecides (PInt 50) (state_of activity) (events_of activity) (PBool true)
              (state_of peak) (events_of peak) H1 H2)
    as (_ & _ & _ & _ & _ & Hlow).
  rewrite Hlow by reflexivity. reflexivity.
Defined.

(** C3 as the specification words it fails: the score read is 80, the
    peak-times endpoint answers with an array, [is_peak_time] raises on it
    and the cycle ends before the score is compared: no farm request is
    sent. *)
Lemma farming_cycle_aborts_above_threshold :
  let s := initial_state 0 in
  let run := farming_cycle array_peak_env demo_config s in
  get_activity_score array_peak_env demo_config s
  = (Ret (PInt 80), mkState 1 1 [],
     [EvRequest (build_request demo_config GET (activity_url demo_config) None)]) /\
  py_ge (PInt 80) ACTIVITY_THRESHOLD = Ret true /\
  run = (Raise (AttributeError "'list' object has no attribute 'get'"), mkState 2 2 [],
         [EvRequest (build_request demo_config GET (activity_url demo_config) None);
          EvRequest (build_request demo_config GET peak_url None)]) /\
  requests_to POST farm_url (events_of run) = [].
Proof. cbv zeta. repeat split; reflexivity. Qed.

(** Scenario C of the specification: 2.5 unclaimed is claimed, then staked
    after the sleep. *)
Lemma compound_cycle_policy_witness :
  let s := initial_state 0 in
  let rewards := get_current_rewards rich_env demo_config s in
  rewards = (Ret (PFloat (S754_finite false 5 (-1))), state_of rewards, events_of rewards) /\
  py_ge (PFloat (S754_finite false 5 (-1))) REWARD_THRESHOLD = Ret true /\
  compound_cycle rich_env demo_config s
  = (Ret PNone, mkState 8 3 [],
     [EvRequest (build_request demo_config GET (rewards_url demo_config) None);
      EvLog Info "Current unclaimed rewards: 2.5 TENEO";
      EvRequest (build_request demo_config POST claim_url (Some (wallet_payload demo_config)));
      EvLog Info "Rewards claimed: {'claimed': 2.5}";
      EvSleep 5;
      EvRequest (build_request demo_config POST stake_url (Some (wallet_payload demo_config)));
      EvLog Info "Rewards re-staked";
      EvLog Info "Compounded 2.5 TENEO into staking."]).
Proof.
  intros s rewards.
  assert (H1 : rewards
               = (Ret (PFloat (S754_finite false 5 (-1))), state_of rewards, events_of rewards))
    by reflexivity.
  split; [exact H1|]. split; [reflexivity|].
  destruct (compound_cycle_policy rich_env demo_config s) as (_ & _ & Hdecides).
  destruct (Hdecides (PFloat (S754_finite false 5 (-1)))
              (state_of rewards) (events_of rewards) H1)
    as (_ & _ & _ & Hge & _).
  destruct Hge as (Hrun & _); [reflexivity|].
  rewrite Hrun. reflexivity.
Defined.

(** C4 as the specification words it fails: 2.5 is read, the claim request
    is sent, [r.json()] raises [ValueError] on the answer, which
    [safe_request] does not handle, and the cycle ends there: the claim is
    followed by no stake request. *)
Lemma compound_cycle_claims_without_staking :
  let s := initial_state 0 in
  let run := compound_cycle oversized_claim_env demo_config s in
  get_current_rewards oversized_claim_env demo_config s
  = (Ret (PFloat (S754_finite false 5 (-1))), mkState 1 1 [],
     [EvRequest (build_request demo_config GET (rewards_url demo_config) None);
      EvLog Info "Current unclaimed rewards: 2.5 TENEO"]) /\
  py_ge (PFloat (S754_finite false 5 (-1))) REWARD_THRESHOLD = Ret true /\
  run = (Raise (ValueError "Exceeds the limit (4300 digits) for integer string conversion: value has 5000 digits; use sys.set_int_max_str_digits() to increase the limit"),
         mkState 2 2 [],
         [EvRequest (build_request demo_config GET (rewards_url demo_config) None);
          EvLog Info "Current unclaimed rewards: 2.5 TENEO";
          EvRequest (build_request demo_config POST claim_url
                                   (Some (wallet_payload demo_config)))]) /\
  requests_to POST claim_url (events_of run)
  = [build_request demo_config POST claim_url (Some (wallet_payload demo_config))] /\
  requests_to POST stake_url (events_of run) = [].
Proof. cbv zeta. repeat split; reflexivity. Qed.

(** Scenario D of the specification: with 0.3 unclaimed nothing is claimed
    or staked. *)
Example compound_cycle_below_threshold :
  compound_cycle poor_env demo_config (initial_state 0)
  = (Ret PNone, mkState 1 1 [],
     [EvRequest (build_request demo_config GET (rewards_url demo_config) None);
      EvLog Info "Current unclaimed rewards: 0.3 TENEO";
      EvLog Info "Not enough rewards to compound."]).
Proof. reflexivity. Qed.

(** A wallet that is not staked gets staked. *)
Lemma check_staking_policy_witness :
  let s := initial_state 0 in
  let staked := get_staking_status unstaked_env demo_config s in
  staked = (Ret (PBool false), state_of staked, events_of staked) /\
  truthy (PBool false) = false /\
  check_staking unstaked_env demo_config s
  = (Ret PNone, mkState 2 2 [],
     [EvRequest (build_request demo_config GET (staking_url demo_config) None);
      EvLog Info "Wallet not staked. Attempting to stake...";
      EvRequest (build_request demo_config POST stake_url (Some (wallet_payload demo_config)));
      EvLog Info "Rewards re-staked"]).
Proof.
  intros s staked.
  assert (H1 : staked = (Ret (PBool false), state_of staked, events_of staked))
    by reflexivity.
  split; [exact H1|]. split; [reflexivity|].
  destruct (check_staking_policy unstaked_env demo_config s) as [_ Hdecides].
  destruct (Hdecides (PBool false) (state_of staked) (events_of staked) H1)
    as (_ & _ & _ & Hunstaked).
  rewrite Hunstaked by reflexivity. reflexivity.
Defined.

(** ** The scheduler *)

Lemma cycles_run_app evs1 evs2 :
  cycles_run (evs1 ++ evs2) = (cycles_run evs1 ++ cycles_run evs2)%list.
Proof. apply flat_map_app. Qed.

(** *** Quiet computations *)

Create HintDb quiet.

Lemma quiet_ret A (a : A) : quiet (ret a).
Proof. intros s. cbn. auto. Qed.

Lemma quiet_lift A (o : outcome A) : quiet (lift o).
Proof. intros s. cbn. auto. Qed.

Lemma quiet_raise A (e : exn) : quiet (@raise A e).
Proof. intros s. cbn. auto. Qed.

Lemma quiet_bind A B (c : M A) (k : A -> M B) :
  quiet c -> (forall a, quiet (k a)) -> quiet (bind c k).
Proof.
  intros Hc Hk s. specialize (Hc s). unfold bind.
  destruct (c s) as [[[a|e] s1] ev1]; cbn [state_of events_of fst snd] in Hc.
  - specialize (Hk a s1). destruct (k a s1) as [[r s2] ev2].
    cbn [state_of events_of fst snd] in *.
    destruct Hc as (Hj & Hc & He), Hk as (Hj' & Hc' & He').
    rewrite cycles_run_app, He, He'. repeat split; [congruence | lia].
  - exact Hc.
Qed.

Lemma quiet_if A (b : bool) (c1 c2 : M A) :
  quiet c1 -> quiet c2 -> quiet (if b then c1 else c2).
Proof. destruct b; auto. Qed.

#[local] Hint Resolve quiet_ret quiet_lift quiet_raise quiet_bind quiet_if : quiet.

Section QuietFacts.

Variables (env : Env) (cfg : Config).

Lemma quiet_log msg lvl : quiet (log msg lvl).
Proof. intros s. cbn. auto. Qed.

Lemma quiet_sleep n : quiet (sleep n).
Proof. intros s. cbn. repeat split; lia. Qed.

Lemma quiet_requests_request method url json :
  quiet (requests_request env cfg method url json).
Proof. intros s. cbn. repeat split; lia. Qed.

Hint Resolve quiet_log quiet_sleep quiet_requests_request : quiet.

Lemma quiet_safe_request_from attempts method url json :
  quiet (safe_request_from env cfg attempts method url json).
Proof.
  induction attempts as [|a rest IH]; cbn [safe_request_from].
  - auto with quiet.
  - apply quiet_bind; [auto with quiet|]. intros [p|t|e]; auto 6 with quiet.
Qed.

Lemma quiet_safe_request method url json :
  quiet (safe_request env cfg method url json).
Proof. apply quiet_safe_request_from. Qed.

Hint Resolve quiet_safe_request : quiet.

Ltac quiet_steps :=
  repeat first
    [ solve [auto with quiet]
    | apply quiet_bind; [|intros ?]
    | apply quiet_if ].

Lemma quiet_cycle_body c : quiet (cycle_body env cfg c).
Proof.
  destruct c; cbn [cycle_body].
  - unfold farming_cycle, get_activity_score, is_peak_time, perform_farming_action.
    quiet_steps.
  - unfold compound_cycle, get_current_rewards, claim_rewards, stake_rewards.
    quiet_steps.
  - unfold check_staking, get_staking_status, stake_rewards.
    quiet_steps.
Qed.

End QuietFacts.

(** *** The job list *)

Lemma nth_error_set_job_other i j k : forall l,
  k <> i -> nth_error (set_job i j l) k = nth_error l k.
Proof.
  revert k. induction i as [|i IH]; intros k [|x l] Hk; cbn; auto.
  - destruct k; [lia | reflexivity].
  - destruct k; [reflexivity|]. cbn. apply IH. lia.
Qed.

Lemma map_set_job B (f : job -> B) i j j' : forall l,
  nth_error l i = Some j -> f j' = f j -> map f (set_job i j' l) = map f l.
Proof.
  induction i as [|i IH]; intros [|x l] Hnth Hf; cbn in *; try discriminate.
  - injection Hnth as ->. rewrite Hf. reflexivity.
  - rewrite (IH l Hnth Hf). reflexivity.
Qed.

Lemma insert_job_perm x l : Permutation (insert_job x l) (x :: l).
Proof.
  induction l as [|y l IH]; cbn [insert_job].
  - apply Permutation_refl.
  - destruct (next_run (snd y) <? next_run (snd x))%nat.
    + apply perm_trans with (y :: x :: l); [apply perm_skip, IH | apply perm_swap].
    + apply Permutation_refl.
Qed.

Lemma sort_jobs_perm l : Permutation (sort_jobs l) l.
Proof.
  induction l as [|x l IH]; cbn.
  - apply perm_nil.
  - apply perm_trans with (x :: sort_jobs l);
      [apply insert_job_perm | apply perm_skip, IH].
Qed.

Lemma in_combine_seq (js : list job) : forall start k j,
  In (k, j) (combine (seq start (List.length js)) js)
  <-> start <= k /\ nth_error js (k - start) = Some j.
Proof.
  induction js as [|x js IH]; intros start k j; cbn [List.length seq combine].
  - split; [intros [] | intros [_ H]]. destruct (k - start); discriminate H.
  - cbn [In]. rewrite IH. split.
    + intros [H | [Hle Hnth]].
      * injection H as <- <-. split; [lia|]. rewrite Nat.sub_diag. reflexivity.
      * split; [lia|]. replace (k - start) with (S (k - S start)) by lia. exact Hnth.
    + intros [Hle Hnth]. destruct (k - start) as [|d] eqn:Hd.
      * left. cbn in Hnth. injection Hnth as ->. f_equal. lia.
      * right. split; [lia|]. cbn in Hnth. replace (k - S start) with d by lia. exact Hnth.
Qed.

Lemma map_fst_combine_seq (js : list job) : forall start,
  map fst (combine (seq start (List.length js)) js) = seq start (List.length js).
Proof.
  induction js as [|x js IH]; intros start; cbn; [|rewrite IH]; reflexivity.
Qed.

Lemma NoDup_map_fst_filter A B (P : A * B -> bool) (l : list (A * B)) :
  NoDup (map fst l) -> NoDup (map fst (filter P l)).
Proof.
  induction l as [|x l IH]; cbn; intros H; [constructor|].
  inversion H as [|? ? Hnotin Hnodup]; subst.
  destruct (P x); cbn; auto.
  constructor; auto.
  intros Hin. apply Hnotin.
  apply in_map_iff in Hin. destruct Hin as (y & Hy & Hin).
  apply filter_In in Hin. apply in_map_iff. exists y. tauto.
Qed.

(** Position [k] is called in this tick exactly when it holds a job that is
    due. *)
Lemma in_runnable_jobs s k :
  In k (runnable_jobs s)
  <-> exists j, nth_error (jobs s) k = Some j /\ should_run (clock s) j = true.
Proof.
  unfold runnable_jobs. rewrite in_map_iff. split.
  - intros ([k' j] & Hk & Hin). cbn in Hk. subst k'.
    apply (Permutation_in _ (sort_jobs_perm _)) in Hin.
    apply filter_In in Hin. destruct Hin as [Hin Hdue].
    apply in_combine_seq in Hin. rewrite Nat.sub_0_r in Hin.
    exists j. tauto.
  - intros (j & Hnth & Hdue). exists (k, j). split; [reflexivity|].
    apply (Permutation_in _ (Permutation_sym (sort_jobs_perm _))).
    apply filter_In. split; [|exact Hdue].
    apply in_combine_seq. rewrite Nat.sub_0_r. split; [lia | exact Hnth].
Qed.

Lemma NoDup_runnable_jobs s : NoDup (runnable_jobs s).
Proof.
  unfold runnable_jobs.
  apply (Permutation_NoDup (Permutation_map fst (Permutation_sym (sort_jobs_perm _)))).
  apply NoDup_map_fst_filter. rewrite map_fst_combine_seq. apply seq_NoDup.
Qed.

Lemma NoDup_app_disjoint A (l1 l2 : list A) x :
  NoDup (l1 ++ l2) -> In x l1 -> In x l2 -> False.
Proof.
  induction l1 as [|y l1 IH]; cbn; intros Hnd H1 H2; [exact H1|].
  inversion Hnd as [|? ? Hnotin Hnd']; subst.
  destruct H1 as [-> | H1].
  - apply Hnotin, in_or_app. right. exact H2.
  - exact (IH Hnd' H1 H2).
Qed.

(** *** Running the due jobs *)

Section SchedulerFacts.

Variables (env : Env) (cfg : Config).

(** One job: its function is called; if that returns, the job (and no
    other) gets a new due time; if it raises, the job list is as before. *)
Lemma run_job_spec i s :
  let r := run_job env cfg i s in
  clock s <= clock (state_of r) /\
  map job_func (jobs (state_of r)) = map job_func (jobs s) /\
  map period (jobs (state_of r)) = map period (jobs s) /\
  cycles_run (events_of r) = called s i /\
  (forall k, k <> i -> nth_error (jobs (state_of r)) k = nth_error (jobs s) k) /\
  (forall e, result_of r = Raise e -> jobs (state_of r) = jobs s).
Proof.
  cbv zeta. unfold run_job, called, cycle_at.
  destruct (nth_error (jobs s) i) as [j|] eqn:Hj; cbn [option_map].
  2:{ cbn. repeat split; auto; intros e H; discriminate H. }
  unfold bind, emit.
  destruct (quiet_cycle_body env cfg (job_func j) s) as (Hjobs & Hclock & Hrun).
  destruct (cycle_body env cfg (job_func j) s) as [[[v|e] s1] ev1];
    cbn [state_of events_of result_of fst snd] in *.
  - unfold schedule_next_run. rewrite Hjobs, Hj.
    cbn [state_of events_of result_of fst snd jobs clock].
    rewrite ?app_nil_r.
    rewrite cycles_run_app, Hrun.
    repeat split; auto.
    + apply map_set_job with (j := j); auto.
    + apply map_set_job with (j := j); auto.
    + intros k Hk. apply nth_error_set_job_other. exact Hk.
    + intros e H. discriminate H.
  - rewrite ?app_nil_r, cycles_run_app, Hrun. repeat split; auto.
    + rewrite Hjobs. reflexivity.
    + rewrite Hjobs. reflexivity.
    + intros k _. rewrite Hjobs. reflexivity.
Qed.

Lemma called_stable s s' i :
  map job_func (jobs s') = map job_func (jobs s) -> called s' i = called s i.
Proof.
  intros H. unfold called, cycle_at.
  rewrite <- !nth_error_map, H. reflexivity.
Qed.

Lemma run_jobs_cons i rest s :
  run_jobs env cfg (i :: rest) s
  = match run_job env cfg i s with
    | (Ret _, s1, ev1) =>
        (result_of (run_jobs env cfg rest s1), state_of (run_jobs env cfg rest s1),
         (ev1 ++ events_of (run_jobs env cfg rest s1))%list)
    | (Raise e, s1, ev1) => (Raise e, s1, ev1)
    end.
Proof.
  cbn [run_jobs]. unfold bind.
  destruct (run_job env cfg i s) as [[[[]|e] s1] ev1]; [|reflexivity].
  destruct (run_jobs env cfg rest s1) as [[r s2] ev2]. reflexivity.
Qed.

(** A tick only moves due times, and only of the jobs it calls. *)
Lemma run_jobs_frame due : forall s,
  clock s <= clock (state_of (run_jobs env cfg due s)) /\
  map job_func (jobs (state_of (run_jobs env cfg due s))) = map job_func (jobs s) /\
  map period (jobs (state_of (run_jobs env cfg due s))) = map period (jobs s) /\
  (forall k, ~ In k due ->
     nth_error (jobs (state_of (run_jobs env cfg due s))) k = nth_error (jobs s) k).
Proof.
  induction due as [|i rest IH]; intros s.
  - cbn. auto.
  - rewrite run_jobs_cons.
    pose proof (run_job_spec i s) as Hjob. cbv zeta in Hjob.
    destruct (run_job env cfg i s) as [[[[]|e] s1] ev1];
      cbn [state_of result_of events_of fst snd] in *;
      destruct Hjob as (Hclock & Hfunc & Hperiod & _ & Hother & Hraise).
    + destruct (IH s1) as (Hclock' & Hfunc' & Hperiod' & Hother').
      repeat split; try congruence; try lia.
      intros k Hk. rewrite Hother', Hother; auto.
      * intros ->. apply Hk. left. reflexivity.
      * intros Hin. apply Hk. right. exact Hin.
    + repeat split; auto. intros k _. rewrite (Hraise e eq_refl). reflexivity.
Qed.

(** A tick in which nothing raises calls every job on its list, in order. *)
Lemma run_jobs_ret due : forall s,
  result_of (run_jobs env cfg due s) = Ret tt ->
  cycles_run (events_of (run_jobs env cfg due s)) = flat_map (called s) due.
Proof.
  induction due as [|i rest IH]; intros s.
  - reflexivity.
  - rewrite run_jobs_cons.
    pose proof (run_job_spec i s) as Hjob. cbv zeta in Hjob.
    destruct (run_job env cfg i s) as [[[[]|e] s1] ev1];
      cbn [state_of result_of events_of fst snd] in *;
      destruct Hjob as (_ & Hfunc & _ & Hcalled & _).
    + intros Hret. rewrite cycles_run_app, Hcalled, (IH s1 Hret).
      cbn [flat_map]. f_equal.
      apply flat_map_ext. intros k. apply called_stable, Hfunc.
    + discriminate.
Qed.

(** A tick that ends in an exception has called the jobs up to the one whose
    function raised, and has not touched the due time of any other. *)
Lemma run_jobs_raise due : forall s e,
  result_of (run_jobs env cfg due s) = Raise e ->
  exists done i rest,
    due = (done ++ i :: rest)%list /\
    cycles_run (events_of (run_jobs env cfg due s)) = flat_map (called s) (done ++ [i]) /\
    (forall k, ~ In k done ->
       nth_error (jobs (state_of (run_jobs env cfg due s))) k = nth_error (jobs s) k).
Proof.
  induction due as [|i rest IH]; intros s e.
  - discriminate.
  - rewrite run_jobs_cons.
    pose proof (run_job_spec i s) as Hjob. cbv zeta in Hjob.
    destruct (run_job env cfg i s) as [[[[]|e1] s1] ev1];
      cbn [state_of result_of events_of fst snd] in *;
      destruct Hjob as (_ & Hfunc & _ & Hcalled & Hother & Hraise).
    + intros Hr. destruct (IH s1 e Hr) as (done & i' & rest' & Hdue & Hrun & Hkeep).
      exists (i :: done), i', rest'. split; [rewrite Hdue; reflexivity|]. split.
      * rewrite cycles_run_app, Hcalled, Hrun. cbn [app flat_map]. f_equal.
        apply flat_map_ext. intros k. apply called_stable, Hfunc.
      * intros k Hk. rewrite Hkeep, Hother; auto.
        -- intros ->. apply Hk. left. reflexivity.
        -- intros Hin. apply Hk. right. exact Hin.
    + intros _. exists [], i, rest. split; [reflexivity|]. split.
      * cbn [app flat_map]. rewrite app_nil_r. exact Hcalled.
      * intros k _. rewrite (Hraise e1 eq_refl). reflexivity.
Qed.

(** *** The loop *)

Lemma loop_body_ret s s1 ev1 :
  run_pending env cfg s = (Ret tt, s1, ev1) ->
  loop_body env cfg s = (Ret tt, advance s1 5, (ev1 ++ [EvSleep 5])%list).
Proof.
  intros H. unfold loop_body, try_except, bind. rewrite H. reflexivity.
Qed.

Lemma loop_body_raise s e s1 ev1 :
  run_pending env cfg s = (Raise e, s1, ev1) ->
  loop_body env cfg s
  = (Ret tt, advance s1 10,
     (ev1 ++ [EvLog Error ("Bot crashed: " ++ exn_str e); EvSleep 10])%list).
Proof.
  intros H. unfold loop_body, try_except, bind. rewrite H. reflexivity.
Qed.

Lemma loop_body_returns s : result_of (loop_body env cfg s) = Ret tt.
Proof.
  destruct (run_pending env cfg s) as [[[[]|e] s1] ev1] eqn:H.
  - rewrite loop_body_ret with (1 := H). reflexivity.
  - rewrite loop_body_raise with (1 := H). reflexivity.
Qed.

Lemma loop_succ fuel s :
  loop env cfg (S fuel) s
  = (result_of (loop env cfg fuel (state_of (loop_body env cfg s))),
     state_of (loop env cfg fuel (state_of (loop_body env cfg s))),
     (events_of (loop_body env cfg s)
        ++ events_of (loop env cfg fuel (state_of (loop_body env cfg s))))%list).
Proof.
  cbn [loop].
  pose proof (loop_body_returns s) as Hret.
  rewrite bind_ret_eq with (a := tt) (s1 := state_of (loop_body env cfg s))
    (ev1 := events_of (loop_body env cfg s))
    by (rewrite <- Hret; apply run_eta).
  reflexivity.
Qed.

Lemma loop_returns fuel : forall s, result_of (loop env cfg fuel s) = Ret tt.
Proof.
  induction fuel as [|fuel IH]; intros s.
  - reflexivity.
  - rewrite loop_succ. apply IH.
Qed.

(** C7 (as the code has it): an exception raised by a cycle is caught by the
    loop: the iteration adds a crash line at error level and a sleep of 10
    and ends normally, so the loop never stops, whatever the number of
    iterations, and each iteration is followed by the next.  The crash leaves every job
    registered with its period; the job that raised and the due jobs behind
    it keep their due time, so they are on the list of the next iteration
    and are called in it unless it raises again; and an iteration in which
    nothing raises calls every job that is due. *)
Theorem start_bot_survives_cycle_errors :
  (forall fuel s, result_of (loop env cfg fuel s) = Ret tt) /\
  (forall fuel s,
     loop env cfg (S fuel) s
     = (result_of (loop env cfg fuel (state_of (loop_body env cfg s))),
        state_of (loop env cfg fuel (state_of (loop_body env cfg s))),
        (events_of (loop_body env cfg s)
           ++ events_of (loop env cfg fuel (state_of (loop_body env cfg s))))%list)) /\
  (forall s e s1 ev1,
     run_pending env cfg s = (Raise e, s1, ev1) ->
     loop_body env cfg s
     = (Ret tt, advance s1 10,
        (ev1 ++ [EvLog Error ("Bot crashed: " ++ exn_str e); EvSleep 10])%list) /\
     map job_func (jobs s1) = map job_func (jobs s) /\
     map period (jobs s1) = map period (jobs s) /\
     exists done i rest,
       runnable_jobs s = (done ++ i :: rest)%list /\
       cycles_run ev1 = flat_map (called s) (done ++ [i]) /\
       forall k, In k (i :: rest) ->
         nth_error (jobs s1) k = nth_error (jobs s) k /\
         In k (runnable_jobs (advance s1 10)) /\
         forall s2 ev2 c,
           run_pending env cfg (advance s1 10) = (Ret tt, s2, ev2) ->
           cycle_at s k = Some c ->
           In c (cycles_run ev2)) /\
  (forall s s1 ev1,
     run_pending env cfg s = (Ret tt, s1, ev1) ->
     loop_body env cfg s = (Ret tt, advance s1 5, (ev1 ++ [EvSleep 5])%list) /\
     cycles_run ev1 = flat_map (called s) (runnable_jobs s) /\
     forall k j,
       nth_error (jobs s) k = Some j ->
       should_run (clock s) j = true ->
       In (job_func j) (cycles_run ev1)).
Proof.
  split; [exact loop_returns|]. split; [exact loop_succ|]. split.
  - intros s e s1 ev1 H. split; [apply loop_body_raise, H|].
    unfold run_pending in H.
    destruct (run_jobs_frame (runnable_jobs s) s) as (Hclock & Hfunc & Hperiod & _).
    destruct (@run_jobs_raise (runnable_jobs s) s e) as (done & i & rest & Hdue & Hrun & Hkeep).
    { rewrite H. reflexivity. }
    rewrite H in Hclock, Hfunc, Hperiod, Hrun, Hkeep.
    cbn [state_of events_of fst snd] in *.
    split; [exact Hfunc|]. split; [exact Hperiod|].
    exists done, i, rest. split; [exact Hdue|]. split; [exact Hrun|].
    intros k Hk.
    assert (Hsame : nth_error (jobs s1) k = nth_error (jobs s) k).
    { apply Hkeep. pose proof (NoDup_runnable_jobs s) as Hnd. rewrite Hdue in Hnd.
      intros Hin. eapply NoDup_app_disjoint; eassumption. }
    split; [exact Hsame|].
    assert (Hin : In k (runnable_jobs s)).
    { rewrite Hdue. apply in_or_app. right. exact Hk. }
    apply in_runnable_jobs in Hin. destruct Hin as (j & Hj & Hrunnable).
    assert (Hnext : In k (runnable_jobs (advance s1 10))).
    { apply in_runnable_jobs. exists j. split.
      - cbn [advance jobs]. rewrite Hsame. exact Hj.
      - unfold should_run in *. cbn [advance clock].
        apply Nat.leb_le in Hrunnable. apply Nat.leb_le. lia. }
    split; [exact Hnext|].
    intros s2 ev2 c H2 Hc. unfold run_pending in H2.
    pose proof (@run_jobs_ret (runnable_jobs (advance s1 10)) (advance s1 10)) as Hret.
    rewrite H2 in Hret. change (events_of (?a, ?b, ?c)) with c in Hret.
    rewrite (Hret eq_refl). apply in_flat_map. exists k. split; [exact Hnext|].
    rewrite (@called_stable s (advance s1 10) k) by exact Hfunc.
    unfold called. rewrite Hc. left. reflexivity.
  - intros s s1 ev1 H. split; [apply loop_body_ret, H|].
    unfold run_pending in H.
    assert (Hrun : cycles_run ev1 = flat_map (called s) (runnable_jobs s)).
    { pose proof (@run_jobs_ret (runnable_jobs s) s) as Hret.
      rewrite H in Hret. apply Hret. reflexivity. }
    split; [exact Hrun|].
    intros k j Hj Hrunnable. rewrite Hrun. apply in_flat_map.
    exists k. split.
    + apply in_runnable_jobs. exists j. split; assumption.
    + unfold called, cycle_at. rewrite Hj. left. reflexivity.
Qed.

End SchedulerFacts.

(** After 180 quiet iterations the farming job is due; its first call meets
    a JSON array and raises, the next iteration calls it again and it
    completes. *)
Lemma start_bot_survives_cycle_errors_witness :
  let s := state_of (start_bot recovering_env demo_config 180 (initial_state 0)) in
  let crash := run_pending recovering_env demo_config s in
  let next := run_pending recovering_env demo_config (advance (state_of crash) 10) in
  s = mkState 900 0 [mkJob Farming 900 900; mkJob Compounding 3600 3600;
                     mkJob StakingCheck 1800 1800] /\
  crash = (Raise (AttributeError "'list' object has no attribute 'get'"),
           state_of crash, events_of crash) /\
  next = (Ret tt, state_of next, events_of next) /\
  loop_body recovering_env demo_config s
  = (Ret tt, advance (state_of crash) 10,
     (events_of crash
        ++ [EvLog Error "Bot crashed: 'list' object has no attribute 'get'";
            EvSleep 10])%list) /\
  In Farming (cycles_run (events_of next)) /\
  loop_body recovering_env demo_config (advance (state_of crash) 10)
  = (Ret tt, advance (state_of next) 5, (events_of next ++ [EvSleep 5])%list).
Proof.
  intros s crash next.
  assert (Hs : s = mkState 900 0 [mkJob Farming 900 900; mkJob Compounding 3600 3600;
                                  mkJob StakingCheck 1800 1800])
    by (vm_compute; reflexivity).
  assert (Hcrash : crash = (Raise (AttributeError "'list' object has no attribute 'get'"),
                            state_of crash, events_of crash))
    by (vm_compute; reflexivity).
  assert (Hnext : next = (Ret tt, state_of next, events_of next))
    by (vm_compute; reflexivity).
  destruct (start_bot_survives_cycle_errors recovering_env demo_config)
    as (_ & _ & Hraise & Hret).
  destruct (Hraise s _ _ _ Hcrash)
    as (Hbody & _ & _ & done & i & rest & Hdue & _ & Hstay).
  destruct (Hret _ _ _ Hnext) as (Hbody' & _).
  split; [exact Hs|]. split; [exact Hcrash|]. split; [exact Hnext|].
  split; [exact Hbody|]. split; [|exact Hbody'].
  assert (Hfirst : In 0 (i :: rest)).
  { assert (Hlist : runnable_jobs s = [0]) by (vm_compute; reflexivity).
    rewrite Hlist in Hdue. destruct done as [|d done].
    - injection Hdue as <- _. left. reflexivity.
    - injection Hdue as _ Hdue. destruct done; discriminate Hdue. }
  destruct (Hstay 0 Hfirst) as (_ & _ & Hagain).
  apply (Hagain (state_of next) (events_of next) Farming Hnext).
  vm_compute. reflexivity.
Defined.

(** ** Start-up *)

(** C8 (as the code has it): when the bearer credential [API_KEY] or the
    account identifier [WALLET_ADDRESS] is missing or empty, the script
    raises [EnvironmentError] before [start_bot] is entered: nothing is
    logged, sent or scheduled.  Those two are the only settings read: with
    both present the module body completes, whatever else the environment
    holds or lacks. *)
Theorem startup_requires_key_and_wallet env getenv now fuel :
  (is_set (getenv "API_KEY") = false \/ is_set (getenv "WALLET_ADDRESS") = false ->
   main env getenv now fuel
   = (Raise (EnvironmentError "Missing API_KEY or WALLET_ADDRESS in .env file"),
      initial_state now, [])) /\
  (is_set (getenv "API_KEY") = true /\ is_set (getenv "WALLET_ADDRESS") = true ->
   exists key wallet,
     getenv "API_KEY" = Some key /\ getenv "WALLET_ADDRESS" = Some wallet /\
     main env getenv now fuel
     = start_bot env (mkConfig key wallet) fuel (initial_state now)).
Proof.
  unfold main, module_init. split.
  - intros [H | H]; rewrite H; cbn [negb orb]; [reflexivity|].
    rewrite orb_true_r. reflexivity.
  - intros [Hk Hw]. rewrite Hk, Hw. cbn [negb orb].
    destruct (getenv "API_KEY") as [k|]; [|discriminate Hk].
    destruct (getenv "WALLET_ADDRESS") as [w|]; [|discriminate Hw].
    exists k, w. repeat split; reflexivity.
Qed.

(** An empty wallet address stops the script; with both settings it starts. *)
Lemma startup_requires_key_and_wallet_witness :
  is_set (empty_wallet_env "WALLET_ADDRESS") = false /\
  main offline_env empty_wallet_env 0 5
  = (Raise (EnvironmentError "Missing API_KEY or WALLET_ADDRESS in .env file"),
     initial_state 0, []) /\
  is_set (two_variable_env "API_KEY") = true /\
  is_set (two_variable_env "WALLET_ADDRESS") = true /\
  main offline_env two_variable_env 0 5
  = start_bot offline_env demo_config 5 (initial_state 0).
Proof.
  destruct (startup_requires_key_and_wallet offline_env empty_wallet_env 0 5)
    as [Hmissing _].
  destruct (startup_requires_key_and_wallet offline_env two_variable_env 0 5)
    as [_ Hpresent].
  split; [reflexivity|].
  split; [apply Hmissing; right; reflexivity|].
  split; [reflexivity|]. split; [reflexivity|].
  destruct Hpresent as (key & wallet & Hkey & Hwallet & Hmain);
    [split; reflexivity|].
  injection Hkey as <-. injection Hwallet as <-. exact Hmain.
Defined.

(** C8 as the specification words it fails for the base address: an
    environment that supplies no setting besides the credential and the
    account starts the bot, which enters its loop. *)
Lemma startup_without_base_address :
  (forall name,
      name <> "API_KEY" -> name <> "WALLET_ADDRESS" -> two_variable_env name = None) /\
  module_init two_variable_env = Ret demo_config /\
  main offline_env two_variable_env 0 1
  = (Ret tt,
     mkState 5 0 [mkJob Farming 900 900; mkJob Compounding 3600 3600;
                  mkJob StakingCheck 1800 1800],
     [EvLog Info "Teneo Bot Started âœ…"; EvSleep 5]).
Proof.
  split; [|split; reflexivity].
  intros name Hkey Hwallet. unfold two_variable_env.
  destruct (String.eqb_spec name "API_KEY") as [E|_]; [contradiction|].
  destruct (String.eqb_spec name "WALLET_ADDRESS") as [E|_]; [contradiction|].
  reflexivity.
Qed.

(** * Further properties *)

(** ** More on [safe_request] *)

Section SafeRequestMore.

Variables (env : Env) (cfg : Config).
Variables (method : http_method) (url : string) (json : option pyval).

#[local] Abbreviation req := (build_request cfg method url json).

Lemma in_safe_request_from attempts : forall s r,
  In (EvRequest r) (events_of (safe_request_from env cfg attempts method url json s)) ->
  r = req.
Proof.
  induction attempts as [|a rest IH]; intros s r.
  - cbn. intros [H | []]. discriminate H.
  - destruct (respond env (sent s) req) as [p|t|e] eqn:E.
    + rewrite (@safe_request_from_ok env cfg method url json a rest s p E).
      cbn. intros [H | []]. injection H as <-. reflexivity.
    + rewrite (@safe_request_from_error env cfg method url json a rest s t E).
      cbv zeta. change (events_of (?x, ?y, ?z)) with z.
      intros [H | [H | [H | H]]]; try discriminate H.
      * injection H as <-. reflexivity.
      * exact (IH _ _ H).
    + rewrite (@safe_request_from_raise env cfg method url json a rest s e E).
      cbn. intros [H | []]. injection H as <-. reflexivity.
Qed.

(** X1: every attempt of a call sends the same request: the method, URL
    and JSON body the caller gave, a timeout of 10, and the two headers,
    the bearer header built from [API_KEY]. *)
Theorem safe_request_repeats_one_request s r :
  In (EvRequest r) (events_of (safe_request env cfg method url json s)) ->
  req_method r = method /\
  req_url r = url /\
  req_json r = json /\
  req_timeout r = 10 /\
  req_headers r = [("Authorization", "Bearer " ++ API_KEY cfg);
                   ("Content-Type", "application/json")].
Proof.
  intros H. apply in_safe_request_from in H. subst r. repeat split.
Qed.

Lemma log_levels_safe_request_from attempts : forall s,
  log_levels (events_of (safe_request_from env cfg attempts method url json s))
  = repeat Error
      (failures_before env req (sent s) (List.length attempts)
       + if failures_before env req (sent s) (List.length attempts)
            =? List.length attempts
         then 1 else 0)%nat.
Proof.
  induction attempts as [|a rest IH]; intros s.
  - reflexivity.
  - cbn [List.length failures_before].
    destruct (respond env (sent s) req) as [p|t|e] eqn:E.
    + rewrite (@safe_request_from_ok env cfg method url json a rest s p E). reflexivity.
    + rewrite (@safe_request_from_error env cfg method url json a rest s t E).
      cbv zeta. change (events_of (?x, ?y, ?z)) with z. cbn [failed].
      change (log_levels (?x :: EvLog ?l ?m :: ?y :: ?evs)) with (l :: log_levels evs).
      rewrite IH. reflexivity.
    + rewrite (@safe_request_from_raise env cfg method url json a rest s e E). reflexivity.
Qed.

(** X2: [safe_request] logs at error level only: one line per failed
    attempt, and one more when all three failed; a call answered at its
    first attempt leaves nothing but the request. *)
Theorem safe_request_logs_failures_only s :
  let failures := failures_before env req (sent s) MAX_RETRIES in
  log_levels (events_of (safe_request env cfg method url json s))
  = repeat Error (failures + if (failures =? MAX_RETRIES)%nat then 1 else 0) /\
  (failures = 0 ->
   events_of (safe_request env cfg method url json s) = [EvRequest req]).
Proof.
  intros failures. split.
  - unfold safe_request. rewrite log_levels_safe_request_from, length_seq. reflexivity.
  - subst failures. unfold safe_request, MAX_RETRIES. cbn [seq failures_before].
    destruct (respond env (sent s) req) as [p|t|e] eqn:E; cbn [failed].
    + intros _. rewrite (@safe_request_from_ok env cfg method url json 0 _ s p E).
      reflexivity.
    + discriminate.
    + intros _. rewrite (@safe_request_from_raise env cfg method url json 0 _ s e E).
      reflexivity.
Qed.

Lemma answers_decided first : forall budget,
  (forall i, i < budget -> failed (respond env (first + i) req) = true) \/
  (exists k payload,
      k < budget /\
      (forall i, i < k -> failed (respond env (first + i) req) = true) /\
      respond env (first + k) req = HttpOk payload) \/
  (exists k e,
      k < budget /\
      (forall i, i < k -> failed (respond env (first + i) req) = true) /\
      respond env (first + k) req = HttpRaise e).
Proof.
  induction budget as [|b IH].
  - left. intros i Hi. lia.
  - destruct IH as [Hall | [Hsome | Hsome]].
    + destruct (respond env (first + b) req) as [p|t|e] eqn:E.
      * right. left. exists b, p. repeat split; auto.
      * left. intros i Hi. destruct (Nat.eq_dec i b) as [->|Hne].
        -- rewrite E. reflexivity.
        -- apply Hall. lia.
      * right. right. exists b, e. repeat split; auto.
    + right. left. destruct Hsome as (k & p & Hk & Hfail & Hok).
      exists k, p. repeat split; auto.
    + right. right. destruct Hsome as (k & e & Hk & Hfail & Hraise).
      exists k, e. repeat split; auto.
Qed.

(** X3: a call ends in one of three ways: all three attempts failed, three
    requests were sent and the result is [None]; or one attempt was
    answered after failures only, and the result is its payload; or one
    attempt, after failures only, raised an exception that is not a
    [RequestException], and that exception leaves the call with the request
    as the last thing done: no line is logged for it, nothing is slept and
    no further attempt is made.  So a result other than [None] is always the
    payload of the answered attempt of this very call. *)
Theorem safe_request_outcome s :
  ((call_fails env req (sent s) /\
    result_of (safe_request env cfg method url json s) = Ret PNone /\
    count_requests (events_of (safe_request env cfg method url json s)) = 3) \/
   (exists payload,
      succeeds_with env req (sent s) payload /\
      result_of (safe_request env cfg method url json s) = Ret payload) \/
   (exists e,
      raises_with env req (sent s) e /\
      result_of (safe_request env cfg method url json s) = Raise e /\
      exists before,
        events_of (safe_request env cfg method url json s)
        = (before ++ [EvRequest req])%list)) /\
  (forall v,
     result_of (safe_request env cfg method url json s) = Ret v ->
     v <> PNone ->
     succeeds_with env req (sent s) v) /\
  (forall e,
     result_of (safe_request env cfg method url json s) = Raise e ->
     raises_with env req (sent s) e).
Proof.
  assert (Hcases :
    (call_fails env req (sent s) /\
     result_of (safe_request env cfg method url json s) = Ret PNone /\
     count_requests (events_of (safe_request env cfg method url json s)) = 3) \/
    (exists payload,
       succeeds_with env req (sent s) payload /\
       result_of (safe_request env cfg method url json s) = Ret payload) \/
    (exists e,
       raises_with env req (sent s) e /\
       result_of (safe_request env cfg method url json s) = Raise e /\
       exists before,
         events_of (safe_request env cfg method url json s)
         = (before ++ [EvRequest req])%list)).
  { destruct (answers_decided (sent s) MAX_RETRIES)
      as [Hall | [(k & p & Hk & Hfail & Hok) | (k & e & Hk & Hfail & Hraise)]].
    - left. split; [exact Hall|].
      destruct (@safe_request_exhausted env cfg method url json s Hall) as [Hr Hev].
      split; [exact Hr|]. rewrite Hev. reflexivity.
    - right. left. exists p.
      assert (Hs : succeeds_with env req (sent s) p) by (exists k; auto).
      split; [exact Hs|]. apply safe_request_succeeds, Hs.
    - right. right. exists e.
      split; [exists k; auto|].
      destruct (@safe_request_from_raises env cfg method url json
                  (seq 0 MAX_RETRIES) k s e) as (Hr & _ & Hev); auto. }
  split; [exact Hcases|]. split.
  - intros v Hv Hnone. destruct Hcases as [(_ & Hr & _) | [(p & Hs & Hr) | (e & _ & Hr & _)]].
    + rewrite Hr in Hv. injection Hv as <-. contradiction.
    + rewrite Hr in Hv. injection Hv as <-. exact Hs.
    + rewrite Hr in Hv. discriminate Hv.
  - intros e He. destruct Hcases as [(_ & Hr & _) | [(p & Hs & Hr) | (e' & Hs & Hr & _)]].
    + rewrite Hr in He. discriminate He.
    + rewrite Hr in He. discriminate He.
    + rewrite Hr in He. injection He as <-. exact Hs.
Qed.

End SafeRequestMore.

(** ** More on the read operations *)

Section ReadMore.

Variables (env : Env) (cfg : Config).

(** Every read is its call followed by the lookup; [get_current_rewards]
    then logs the amount it is about to return. *)
Lemma run_read_run op s data :
  result_of (safe_request env cfg GET (read_url cfg op) None s) = Ret data ->
  run_read env cfg op s
  = match get_if_data data (read_key op) (read_default op) with
    | Ret v =>
        (Ret v, state_of (safe_request env cfg GET (read_url cfg op) None s),
         (events_of (safe_request env cfg GET (read_url cfg op) None s)
            ++ read_line env op v)%list)
    | Raise e =>
        (Raise e, state_of (safe_request env cfg GET (read_url cfg op) None s),
         events_of (safe_request env cfg GET (read_url cfg op) None s))
    end.
Proof.
  intros H.
  destruct op; cbn [run_read read_url read_key read_default read_line] in *.
  - unfold get_activity_score. rewrite (@read_after_request env cfg _ _ _ s data H).
    destruct (get_if_data _ _ _); rewrite ?app_nil_r; reflexivity.
  - unfold is_peak_time. rewrite (@read_after_request env cfg _ _ _ s data H).
    destruct (get_if_data _ _ _); rewrite ?app_nil_r; reflexivity.
  - unfold get_current_rewards, bind, lift, log, emit, ret.
    destruct (safe_request env cfg GET (rewards_url cfg) None s) as [[r s1] ev1].
    unfold result_of in H. cbv [fst snd] in H. subst r.
    destruct (get_if_data data "unclaimed" (PInt 0));
      unfold state_of, events_of; cbv [fst snd]; rewrite ?app_nil_r; reflexivity.
  - unfold get_staking_status. rewrite (@read_after_request env cfg _ _ _ s data H).
    destruct (get_if_data _ _ _); rewrite ?app_nil_r; reflexivity.
Qed.

Lemma get_if_data_cases data key default :
  (forall kvs v,
     data = PDict kvs -> dict_lookup key kvs = Some v ->
     get_if_data data key default = Ret v) /\
  (forall kvs,
     data = PDict kvs -> dict_lookup key kvs = None ->
     get_if_data data key default = Ret default) /\
  (truthy data = false -> get_if_data data key default = Ret default) /\
  (truthy data = true -> is_dict data = false ->
   get_if_data data key default
   = Raise (AttributeError ("'" ++ type_name data ++ "' object has no attribute 'get'"))).
Proof.
  unfold get_if_data. repeat split.
  - intros kvs v -> Hv. destruct kvs as [|kv kvs]; [discriminate Hv|].
    cbn [truthy]. rewrite Hv. reflexivity.
  - intros kvs -> Hv. destruct kvs as [|kv kvs]; [reflexivity|].
    cbn [truthy]. rewrite Hv. reflexivity.
  - intros ->. reflexivity.
  - intros -> Hd. destruct data; try reflexivity. discriminate Hd.
Qed.

(** X4: when the call hands back an object or any falsy payload, a read
    does not raise: it returns the value stored under its key exactly as
    decoded, of whatever type, and its default when the key is missing or
    the payload is falsy; [get_current_rewards] then logs that amount. *)
Theorem read_operations_value_or_default op s data :
  result_of (safe_request env cfg GET (read_url cfg op) None s) = Ret data ->
  is_dict data = true \/ truthy data = false ->
  let found :=
    match data with
    | PDict kvs =>
        match dict_lookup (read_key op) kvs with
        | Some v => v
        | None => read_default op
        end
    | _ => read_default op
    end in
  run_read env cfg op s
  = (Ret found, state_of (safe_request env cfg GET (read_url cfg op) None s),
     (events_of (safe_request env cfg GET (read_url cfg op) None s)
        ++ read_line env op found)%list).
Proof.
  intros H Hshape found. rewrite (run_read_run op s H).
  destruct (get_if_data_cases data (read_key op) (read_default op))
    as (Hsome & Hnone & Hfalsy & _).
  subst found. destruct data as [| | | | | |kvs];
    try (destruct Hshape as [Hd | Hf]; [discriminate Hd|]; rewrite (Hfalsy Hf); reflexivity).
  destruct (dict_lookup (read_key op) kvs) as [v|] eqn:Hv.
  - rewrite (Hsome kvs v eq_refl Hv). reflexivity.
  - rewrite (Hnone kvs eq_refl Hv). reflexivity.
Qed.

(** X5: when the call hands back a truthy payload that is not an object
    (an array, a number, a string, [true]), a read raises [AttributeError]
    naming the payload's type; nothing is logged after the call, the
    rewards line included. *)
Theorem read_operations_raise_on_non_object op s data :
  result_of (safe_request env cfg GET (read_url cfg op) None s) = Ret data ->
  truthy data = true ->
  is_dict data = false ->
  run_read env cfg op s
  = (Raise (AttributeError ("'" ++ type_name data ++ "' object has no attribute 'get'")),
     state_of (safe_request env cfg GET (read_url cfg op) None s),
     events_of (safe_request env cfg GET (read_url cfg op) None s)).
Proof.
  intros H Ht Hd. rewrite (run_read_run op s H).
  destruct (get_if_data_cases data (read_key op) (read_default op)) as (_ & _ & _ & Hraise).
  rewrite (Hraise Ht Hd). reflexivity.
Qed.

End ReadMore.

(** ** What a cycle costs *)

Lemma count_requests_app evs1 evs2 :
  count_requests (evs1 ++ evs2) = count_requests evs1 + count_requests evs2.
Proof. unfold count_requests. rewrite filter_app, length_app. reflexivity. Qed.

Lemma sleeps_app evs1 evs2 :
  sleeps (evs1 ++ evs2) = (sleeps evs1 ++ sleeps evs2)%list.
Proof. apply flat_map_app. Qed.

Lemma within_bind A B (c : M A) (k : A -> M B) n1 t1 n2 t2 :
  within n1 t1 c -> (forall a, within n2 t2 (k a)) ->
  within (n1 + n2) (t1 + t2) (bind c k).
Proof.
  intros Hc Hk s. specialize (Hc s). unfold bind.
  destruct (c s) as [[[a|e] s1] ev1]; cbn [events_of snd] in Hc.
  - specialize (Hk a s1). destruct (k a s1) as [[r s2] ev2].
    cbn [events_of snd] in *.
    rewrite count_requests_app, sleeps_app, list_sum_app. lia.
  - cbn [events_of snd]. lia.
Qed.

Lemma within_weaken A (c : M A) n t n' t' :
  within n t c -> n <= n' -> t <= t' -> within n' t' c.
Proof. intros Hc Hn Ht s. specialize (Hc s). lia. Qed.

Lemma within_if A (b : bool) (c1 c2 : M A) n t :
  within n t c1 -> within n t c2 -> within n t (if b then c1 else c2).
Proof. destruct b; auto. Qed.

Lemma within_ret A (a : A) : within 0 0 (ret a).
Proof. intros s. cbn. lia. Qed.

Lemma within_lift A (o : outcome A) : within 0 0 (lift o).
Proof. intros s. cbn. lia. Qed.

Lemma within_log msg lvl : within 0 0 (log msg lvl).
Proof. intros s. cbn. lia. Qed.

Lemma within_sleep n : within 0 n (sleep n).
Proof. intros s. cbn. lia. Qed.

Section CostFacts.

Variables (env : Env) (cfg : Config).

Lemma within_safe_request method url json :
  within 3 12 (safe_request env cfg method url json).
Proof.
  intros s. split.
  - apply (@safe_request_from_bound env cfg method url json (seq 0 MAX_RETRIES) s).
  - unfold safe_request.
    rewrite (@sleeps_safe_request_from env cfg method url json (seq 0 MAX_RETRIES) s).
    rewrite length_seq.
    pose proof (failures_before_le env (build_request cfg method url json) (sent s)
                  MAX_RETRIES) as Hle.
    unfold MAX_RETRIES in *.
    destruct (failures_before env _ (sent s) 3) as [|[|[|[|n]]]]; cbn; lia.
Qed.

Lemma within_read op : within 3 12 (run_read env cfg op).
Proof.
  destruct op; cbn [run_read];
    unfold get_activity_score, is_peak_time, get_current_rewards, get_staking_status.
  - apply within_bind with (n1 := 3) (t1 := 12) (n2 := 0) (t2 := 0);
      [apply within_safe_request | intros; apply within_lift].
  - apply within_bind with (n1 := 3) (t1 := 12) (n2 := 0) (t2 := 0);
      [apply within_safe_request | intros; apply within_lift].
  - apply within_bind with (n1 := 3) (t1 := 12) (n2 := 0) (t2 := 0);
      [apply within_safe_request | intros].
    apply within_bind with (n1 := 0) (t1 := 0) (n2 := 0) (t2 := 0);
      [apply within_lift | intros].
    apply within_bind with (n1 := 0) (t1 := 0) (n2 := 0) (t2 := 0);
      [apply within_log | intros; apply within_ret].
  - apply within_bind with (n1 := 3) (t1 := 12) (n2 := 0) (t2 := 0);
      [apply within_safe_request | intros; apply within_lift].
Qed.

Lemma within_write url payload good bad :
  within 3 12
    (data <- safe_request env cfg POST url (Some payload) ;;
     (if truthy data then log (good data) Info else log bad Error) ;;
     ret PNone).
Proof.
  apply within_bind with (n1 := 3) (t1 := 12) (n2 := 0) (t2 := 0);
    [apply within_safe_request | intros data].
  apply within_bind with (n1 := 0) (t1 := 0) (n2 := 0) (t2 := 0);
    [apply within_if; apply within_log | intros; apply within_ret].
Qed.

Lemma within_farming_cycle : within 9 36 (farming_cycle env cfg).
Proof.
  unfold farming_cycle.
  apply within_bind with (n1 := 3) (t1 := 12) (n2 := 6) (t2 := 24);
    [apply (within_read ReadActivity) | intros activity].
  apply within_bind with (n1 := 3) (t1 := 12) (n2 := 3) (t2 := 12);
    [apply (within_read ReadPeak) | intros peak].
  apply within_bind with (n1 := 0) (t1 := 0) (n2 := 3) (t2 := 12);
    [apply within_log | intros _].
  apply within_bind with (n1 := 0) (t1 := 0) (n2 := 3) (t2 := 12);
    [apply within_lift | intros enough].
  apply within_bind with (n1 := 3) (t1 := 12) (n2 := 0) (t2 := 0);
    [|intros; apply within_ret].
  apply within_if.
  - apply within_bind with (n1 := 3) (t1 := 12) (n2 := 0) (t2 := 0);
      [|intros; apply within_ret].
    apply (within_write farm_url (farm_payload cfg (strategy_of peak))
             (fun _ => "Farming performed with strategy: " ++ strategy_of peak)
             "Farming failed").
  - apply within_weaken with (n := 0) (t := 0); [apply within_log | lia | lia].
Qed.

Lemma within_compound_cycle : within 9 41 (compound_cycle env cfg).
Proof.
  unfold compound_cycle.
  apply within_bind with (n1 := 3) (t1 := 12) (n2 := 6) (t2 := 29);
    [apply (within_read ReadRewards) | intros rewards].
  apply within_bind with (n1 := 0) (t1 := 0) (n2 := 6) (t2 := 29);
    [apply within_lift | intros enough].
  apply within_bind with (n1 := 6) (t1 := 29) (n2 := 0) (t2 := 0);
    [|intros; apply within_ret].
  apply within_if.
  - apply within_bind with (n1 := 3) (t1 := 12) (n2 := 3) (t2 := 17).
    + apply (within_write claim_url (wallet_payload cfg)
               (fun data => "Rewards claimed: " ++ py_str env data) "Claim failed").
    + intros _.
      apply within_bind with (n1 := 0) (t1 := 5) (n2 := 3) (t2 := 12);
        [apply within_sleep | intros _].
      apply within_bind with (n1 := 3) (t1 := 12) (n2 := 0) (t2 := 0);
        [|intros; apply within_log].
      apply (within_write stake_url (wallet_payload cfg)
               (fun _ => "Rewards re-staked") "Re-staking failed").
  - apply within_weaken with (n := 0) (t := 0); [apply within_log | lia | lia].
Qed.

Lemma within_check_staking : within 6 24 (check_staking env cfg).
Proof.
  unfold check_staking.
  apply within_bind with (n1 := 3) (t1 := 12) (n2 := 3) (t2 := 12);
    [apply (within_read ReadStaking) | intros staked].
  apply within_bind with (n1 := 3) (t1 := 12) (n2 := 0) (t2 := 0);
    [|intros; apply within_ret].
  apply within_if.
  - apply within_bind with (n1 := 0) (t1 := 0) (n2 := 3) (t2 := 12);
      [apply within_log | intros _].
    apply within_bind with (n1 := 3) (t1 := 12) (n2 := 0) (t2 := 0);
      [|intros; apply within_ret].
    apply (within_write stake_url (wallet_payload cfg)
             (fun _ => "Rewards re-staked") "Re-staking failed").
  - apply within_weaken with (n := 0) (t := 0); [apply within_log | lia | lia].
Qed.


Lemma bind_events_prefix A B (c : M A) (k : A -> M B) s :
  exists rest, events_of (bind c k s) = (events_of (c s) ++ rest)%list.
Proof.
  unfold bind. destruct (c s) as [[[a|e] s1] ev1].
  - destruct (k a s1) as [[r s2] ev2]. exists ev2. reflexivity.
  - exists []. cbn. rewrite app_nil_r. reflexivity.
Qed.

Lemma read_sends op s : 1 <= count_requests (events_of (run_read env cfg op s)).
Proof.
  pose proof (safe_request_sends env cfg GET (read_url cfg op) None s) as Hsent.
  destruct op; cbn [run_read read_url] in *;
    unfold get_activity_score, is_peak_time, get_current_rewards, get_staking_status;
    match goal with
    | |- 1 <= count_requests (events_of (bind ?c ?k s)) =>
        destruct (bind_events_prefix c k s) as [rest Hrest]
    end;
    rewrite Hrest, count_requests_app; lia.
Qed.

(** X8: a run of a cycle sends at least one request and no more than nine
    (six for the staking check), and its sleeps add up to no more than 36
    seconds for the farming cycle, 41 for the compounding cycle and 24 for
    the staking check, whatever the server answers. *)
Theorem cycle_costs_bounded s :
  (1 <= count_requests (events_of (farming_cycle env cfg s)) <= 9 /\
   list_sum (sleeps (events_of (farming_cycle env cfg s))) <= 36) /\
  (1 <= count_requests (events_of (compound_cycle env cfg s)) <= 9 /\
   list_sum (sleeps (events_of (compound_cycle env cfg s))) <= 41) /\
  (1 <= count_requests (events_of (check_staking env cfg s)) <= 6 /\
   list_sum (sleeps (events_of (check_staking env cfg s))) <= 24).
Proof.
  destruct (within_farming_cycle s) as [Hf1 Hf2].
  destruct (within_compound_cycle s) as [Hc1 Hc2].
  destruct (within_check_staking s) as [Hs1 Hs2].
  repeat split; try assumption.
  - unfold farming_cycle.
    destruct (bind_events_prefix (get_activity_score env cfg)
                (fun activity =>
                   peak <- is_peak_time env cfg ;;
                   log ("Strategy selected: " ++ strategy_of peak ++ " | Activity: "
                          ++ py_str env activity) Info ;;
                   enough <- lift (py_ge activity ACTIVITY_THRESHOLD) ;;
                   (if enough : bool
                    then perform_farming_action env cfg (strategy_of peak) ;; ret tt
                    else log ("Activity too low (" ++ py_str env activity
                                ++ "), skipping farming.") Info) ;;
                   ret PNone) s) as [rest Hrest].
    rewrite Hrest, count_requests_app.
    pose proof (read_sends ReadActivity s) as H. cbn [run_read] in H. lia.
  - unfold compound_cycle.
    match goal with
    | |- 1 <= count_requests (events_of (bind ?c ?k s)) =>
        destruct (bind_events_prefix c k s) as [rest Hrest]
    end.
    rewrite Hrest, count_requests_app.
    pose proof (read_sends ReadRewards s) as H. cbn [run_read] in H. lia.
  - unfold check_staking.
    match goal with
    | |- 1 <= count_requests (events_of (bind ?c ?k s)) =>
        destruct (bind_events_prefix c k s) as [rest Hrest]
    end.
    rewrite Hrest, count_requests_app.
    pose proof (read_sends ReadStaking s) as H. cbn [run_read] in H. lia.
Qed.

End CostFacts.

(** ** The cycles at the edges *)

Section CycleEdges.

Variables (env : Env) (cfg : Config).

Lemma py_ge_not_a_number x c :
  as_number x = None ->
  py_ge x c
  = Raise (TypeError ("'>=' not supported between instances of '"
                        ++ type_name x ++ "' and '" ++ type_name c ++ "'")).
Proof. intros H. unfold py_ge. rewrite H. reflexivity. Qed.

(** X6: a score or an amount that is not a number (a string, [null] stored
    under the key, an array, an object) makes [>=] raise [TypeError]: the
    farming cycle has by then logged its strategy line and sends no farm
    request, the compounding cycle stops right after its read. *)
Theorem cycles_raise_on_non_numeric_signal s :
  (forall activity s1 ev1 peak s2 ev2,
     get_activity_score env cfg s = (Ret activity, s1, ev1) ->
     is_peak_time env cfg s1 = (Ret peak, s2, ev2) ->
     as_number activity = None ->
     farming_cycle env cfg s
     = (Raise (TypeError ("'>=' not supported between instances of '"
                            ++ type_name activity ++ "' and 'int'")),
        s2,
        (ev1 ++ ev2
           ++ [EvLog Info ("Strategy selected: " ++ strategy_of peak
                             ++ " | Activity: " ++ py_str env activity)])%list)) /\
  (forall rewards s1 ev1,
     get_current_rewards env cfg s = (Ret rewards, s1, ev1) ->
     as_number rewards = None ->
     compound_cycle env cfg s
     = (Raise (TypeError ("'>=' not supported between instances of '"
                            ++ type_name rewards ++ "' and 'float'")),
        s1, ev1)).
Proof.
  split.
  - intros activity s1 ev1 peak s2 ev2 H1 H2 Hnan.
    rewrite (@farming_cycle_run env cfg s activity s1 ev1 peak s2 ev2 H1 H2).
    cbv zeta. rewrite (@py_ge_not_a_number activity ACTIVITY_THRESHOLD Hnan). reflexivity.
  - intros rewards s1 ev1 H1 Hnan.
    rewrite (@compound_cycle_run env cfg s rewards s1 ev1 H1).
    cbv zeta. rewrite (@py_ge_not_a_number rewards REWARD_THRESHOLD Hnan). reflexivity.
Qed.

(** A read whose call fails returns its default. *)
Lemma read_when_call_fails op s :
  call_fails env (build_request cfg GET (read_url cfg op) None) (sent s) ->
  run_read env cfg op s
  = (Ret (read_default op),
     state_of (safe_request env cfg GET (read_url cfg op) None s),
     (events_of (safe_request env cfg GET (read_url cfg op) None s)
        ++ read_line env op (read_default op))%list).
Proof.
  intros Hfail.
  pose proof (@safe_request_fails env cfg GET (read_url cfg op) None s Hfail) as Hnone.
  rewrite (@run_read_run env cfg op s PNone Hnone). reflexivity.
Qed.

(** X7: with the read endpoint unreachable the defaults decide: the farming
    cycle never farms, the compounding cycle logs 0 rewards and that there
    is not enough to compound, and the staking check takes the wallet for
    unstaked and submits a stake request. *)
Theorem cycles_when_reads_fail s :
  (call_fails env (build_request cfg GET (activity_url cfg) None) (sent s) ->
   requests_to POST farm_url (events_of (farming_cycle env cfg s)) = []) /\
  (call_fails env (build_request cfg GET (rewards_url cfg) None) (sent s) ->
   compound_cycle env cfg s
   = (Ret PNone,
      state_of (safe_request env cfg GET (rewards_url cfg) None s),
      (events_of (safe_request env cfg GET (rewards_url cfg) None s)
         ++ [EvLog Info "Current unclaimed rewards: 0 TENEO";
             EvLog Info "Not enough rewards to compound."])%list)) /\
  (call_fails env (build_request cfg GET (staking_url cfg) None) (sent s) ->
   requests_to POST stake_url (events_of (check_staking env cfg s)) <> [] /\
   In (EvLog Info "Wallet not staked. Attempting to stake...")
      (events_of (check_staking env cfg s))).
Proof.
  split; [|split].
  - intros Hfail.
    pose proof (read_when_call_fails ReadActivity s Hfail) as H1.
    cbn [run_read read_url read_default read_line] in H1. rewrite app_nil_r in H1.
    destruct (reads_send_no_post env cfg farm_url s) as (Hev1 & _).
    destruct (reads_send_no_post env cfg farm_url
                (state_of (safe_request env cfg GET (activity_url cfg) None s)))
      as (_ & Hev2 & _).
    rewrite H1 in Hev1. change (events_of (?a, ?b, ?c)) with c in Hev1.
    destruct (is_peak_time env cfg
                (state_of (safe_request env cfg GET (activity_url cfg) None s)))
      as [[[peak|e] s2] ev2] eqn:H2;
      change (events_of (?a, ?b, ?c)) with c in Hev2.
    + rewrite (@farming_cycle_run env cfg s _ _ _ peak s2 ev2 H1 H2).
      cbv zeta. rewrite py_ge_activity_int. cbn [Z.leb Z.compare Pos.compare Pos.compare_cont].
      change (events_of (?a, ?b, ?c)) with c.
      rewrite !requests_to_app, Hev1, Hev2. reflexivity.
    + destruct (farming_cycle_aborts env cfg s) as [_ Habort].
      rewrite (Habort _ _ _ _ _ _ H1 H2).
      change (events_of (?a, ?b, ?c)) with c.
      rewrite requests_to_app, Hev1, Hev2. reflexivity.
  - intros Hfail.
    pose proof (read_when_call_fails ReadRewards s Hfail) as H1.
    cbn [run_read read_url read_default read_line] in H1.
    rewrite (@compound_cycle_run env cfg s _ _ _ H1). cbv zeta.
    rewrite py_ge_reward_int. cbn [Z.leb Z.compare].
    rewrite <- app_assoc. reflexivity.
  - intros Hfail.
    pose proof (read_when_call_fails ReadStaking s Hfail) as H1.
    cbn [run_read read_url read_default read_line] in H1. rewrite app_nil_r in H1.
    rewrite (@check_staking_run env cfg s _ _ _ H1). cbn [truthy].
    change (events_of (?a, ?b, ?c)) with c.
    split.
    + rewrite !requests_to_app. intros H.
      apply app_eq_nil in H. destruct H as [_ H].
      apply app_eq_nil in H. destruct H as [_ H].
      exact (proj1 (stake_rewards_requests env cfg _) H).
    + apply in_or_app. right. left. reflexivity.
Qed.

End CycleEdges.

(** ** The first quarter of an hour *)

Lemma runnable_jobs_none s :
  (forall j, In j (jobs s) -> clock s < next_run j) ->
  runnable_jobs s = [].
Proof.
  intros Hlater. destruct (runnable_jobs s) as [|k rest] eqn:E; [reflexivity|].
  assert (Hin : In k (runnable_jobs s)) by (rewrite E; left; reflexivity).
  apply in_runnable_jobs in Hin. destruct Hin as (j & Hj & Hdue).
  apply nth_error_In in Hj. specialize (Hlater j Hj).
  unfold should_run in Hdue. apply Nat.leb_le in Hdue. lia.
Qed.

Section IdleFacts.

Variables (env : Env) (cfg : Config).

Lemma loop_body_idle s :
  (forall j, In j (jobs s) -> clock s < next_run j) ->
  loop_body env cfg s = (Ret tt, advance s 5, [EvSleep 5]).
Proof.
  intros Hlater.
  apply (@loop_body_ret env cfg s s []).
  unfold run_pending. rewrite (runnable_jobs_none s Hlater). reflexivity.
Qed.

Lemma loop_idle fuel : forall s,
  (forall j, In j (jobs s) -> clock s + 5 * fuel < next_run j + 5) ->
  loop env cfg fuel s = (Ret tt, advance s (5 * fuel), repeat (EvSleep 5) fuel).
Proof.
  induction fuel as [|fuel IH]; intros s Hlater.
  - cbn. unfold advance. rewrite Nat.add_0_r. destruct s; reflexivity.
  - rewrite loop_succ.
    rewrite loop_body_idle by (intros j Hj; specialize (Hlater j Hj); lia).
    change (state_of (?a, ?b, ?c)) with b. change (events_of (?a, ?b, ?c)) with c.
    rewrite IH.
    + cbn [result_of state_of events_of fst snd]. f_equal. f_equal.
      unfold advance. cbn [clock sent jobs]. f_equal. lia.
    + intros j Hj. cbn [advance jobs clock] in *. specialize (Hlater j Hj). lia.
Qed.

Lemma loop_add n : forall m s,
  loop env cfg (n + m) s
  = (result_of (loop env cfg m (state_of (loop env cfg n s))),
     state_of (loop env cfg m (state_of (loop env cfg n s))),
     (events_of (loop env cfg n s)
        ++ events_of (loop env cfg m (state_of (loop env cfg n s))))%list).
Proof.
  induction n as [|n IH]; intros m s.
  - cbn [Nat.add]. cbn [loop]. unfold ret. cbn. apply run_eta.
  - cbn [Nat.add]. rewrite !loop_succ. rewrite IH.
    cbn [result_of state_of events_of fst snd]. rewrite app_assoc. reflexivity.
Qed.


Lemma loop_one s :
  events_of (loop env cfg 1 s) = events_of (loop_body env cfg s).
Proof.
  rewrite loop_succ. change (events_of (?a, ?b, ?c)) with c.
  cbn [loop]. unfold ret. change (events_of (?a, ?b, ?c)) with c.
  apply app_nil_r.
Qed.

Lemma cycles_run_sleeps n : cycles_run (repeat (EvSleep 5) n) = [].
Proof. induction n as [|n IH]; [reflexivity | exact IH]. Qed.

(** The state in which the loop starts. *)
Lemma start_bot_registers fuel s :
  let s0 := mkState (clock s) (sent s)
              (((jobs s ++ [mkJob Farming 900 (clock s + 900)])
                  ++ [mkJob Compounding 3600 (clock s + 3600)])
                 ++ [mkJob StakingCheck 1800 (clock s + 1800)])%list in
  start_bot env cfg fuel s
  = (result_of (loop env cfg fuel s0), state_of (loop env cfg fuel s0),
     EvLog Info "Teneo Bot Started âœ…" :: events_of (loop env cfg fuel s0)).
Proof.
  intros s0. unfold start_bot, bind, log, emit, every_minutes_do.
  cbn [clock sent jobs].
  change (60 * FARM_INTERVAL_MINUTES) with 900.
  change (60 * COMPOUND_INTERVAL_MINUTES) with 3600.
  change (60 * 30) with 1800.
  fold s0. destruct (loop env cfg fuel s0) as [[r s1] evs]. reflexivity.
Qed.

(** X9: started with an empty schedule, the bot runs no cycle at start-up:
    it logs its start line, registers the three jobs with periods of 900,
    3600 and 1800 seconds counted from now, and its first 180 iterations
    only sleep 5 seconds each; the first cycle to be called, in the 181st
    iteration, is the farming cycle. *)
Theorem start_bot_waits_for_first_interval s :
  jobs s = [] ->
  let registered := [mkJob Farming 900 (clock s + 900);
                     mkJob Compounding 3600 (clock s + 3600);
                     mkJob StakingCheck 1800 (clock s + 1800)] in
  (forall fuel,
     fuel <= 180 ->
     start_bot env cfg fuel s
     = (Ret tt, mkState (clock s + 5 * fuel) (sent s) registered,
        EvLog Info "Teneo Bot Started âœ…" :: repeat (EvSleep 5) fuel)) /\
  cycles_run (events_of (start_bot env cfg 181 s)) = [Farming].
Proof.
  intros Hnone registered.
  set (s0 := mkState (clock s) (sent s) registered).
  assert (Hstart : forall fuel,
    start_bot env cfg fuel s
    = (result_of (loop env cfg fuel s0), state_of (loop env cfg fuel s0),
       EvLog Info "Teneo Bot Started âœ…" :: events_of (loop env cfg fuel s0))).
  { intros fuel. rewrite start_bot_registers. cbv zeta. rewrite Hnone. reflexivity. }
  assert (Hidle : forall fuel, fuel <= 180 ->
    loop env cfg fuel s0 = (Ret tt, advance s0 (5 * fuel), repeat (EvSleep 5) fuel)).
  { intros fuel Hfuel. apply loop_idle. intros j Hj.
    cbn [jobs clock s0 registered In] in *.
    destruct Hj as [<- | [<- | [<- | []]]]; cbn [next_run]; lia. }
  split.
  - intros fuel Hfuel. rewrite Hstart, (Hidle fuel Hfuel). reflexivity.
  - rewrite Hstart. change (events_of (?a, ?b, ?c)) with c.
    change 181 with (180 + 1). rewrite loop_add.
    rewrite (Hidle 180) by lia.
    repeat change (events_of (?a, ?b, ?c)) with c.
    repeat change (state_of (?a, ?b, ?c)) with b.
    change (cycles_run (?e :: ?evs)) with (cycles_run evs).
    rewrite cycles_run_app, cycles_run_sleeps. cbn [app].
    set (s900 := advance s0 (5 * 180)).
    assert (Hdue : runnable_jobs s900 = [0]).
    { unfold runnable_jobs, s900, s0, registered, should_run.
      cbn [advance jobs clock List.length seq combine filter snd next_run].
      rewrite (proj2 (Nat.leb_le (clock s + 900) (clock s + 5 * 180))) by lia.
      rewrite (proj2 (Nat.leb_gt (clock s + 3600) (clock s + 5 * 180))) by lia.
      rewrite (proj2 (Nat.leb_gt (clock s + 1800) (clock s + 5 * 180))) by lia.
      reflexivity. }
    rewrite loop_one.
    assert (Hcalled : cycles_run (events_of (run_pending env cfg s900)) = [Farming]).
    { unfold run_pending. rewrite Hdue, run_jobs_cons.
      pose proof (@run_job_spec env cfg 0 s900) as Hjob. cbv zeta in Hjob.
      destruct (run_job env cfg 0 s900) as [[[[]|e] s1] ev1];
        cbn [state_of result_of events_of fst snd] in *;
        destruct Hjob as (_ & _ & _ & Hc & _).
      - cbn [run_jobs]. unfold ret. cbn [events_of snd]. rewrite app_nil_r. exact Hc.
      - exact Hc. }
    destruct (run_pending env cfg s900) as [[[[]|e] s1] ev1] eqn:Hrun;
      change (events_of (?a, ?b, ?c)) with c in Hcalled.
    + rewrite (@loop_body_ret env cfg s900 s1 ev1 Hrun).
      change (events_of (?a, ?b, ?c)) with c. rewrite cycles_run_app, Hcalled. reflexivity.
    + rewrite (@loop_body_raise env cfg s900 e s1 ev1 Hrun).
      change (events_of (?a, ?b, ?c)) with c. rewrite cycles_run_app, Hcalled. reflexivity.
Qed.

End IdleFacts.

(** ** The calling order of due jobs *)

Lemma runs_before_trans x y z :
  runs_before x y -> runs_before y z -> runs_before x z.
Proof. unfold runs_before. lia. Qed.

Lemma runs_before_asym x y : runs_before x y -> runs_before y x -> False.
Proof. unfold runs_before. lia. Qed.

Lemma combine_seq_sorted (js : list job) : forall start,
  StronglySorted (fun x y : nat * job => fst x < fst y)
                 (combine (seq start (List.length js)) js).
Proof.
  induction js as [|j js IH]; intros start; cbn [List.length seq combine].
  - constructor.
  - constructor; [apply IH|].
    apply Forall_forall. intros [k j'] Hin.
    apply in_combine_l in Hin. apply in_seq in Hin. cbn. lia.
Qed.

Lemma filter_sorted A (R : A -> A -> Prop) (P : A -> bool) l :
  StronglySorted R l -> StronglySorted R (filter P l).
Proof.
  induction 1 as [|a l Hs IH Hall]; cbn; [constructor|].
  destruct (P a); [|exact IH].
  constructor; [exact IH|].
  apply Forall_forall. intros x Hx. apply filter_In in Hx.
  rewrite Forall_forall in Hall. apply Hall, Hx.
Qed.

Lemma insert_job_sorted x : forall l,
  StronglySorted runs_before l ->
  (forall y, In y l -> fst x < fst y) ->
  StronglySorted runs_before (insert_job x l).
Proof.
  induction l as [|y l IH]; intros Hs Hlater; cbn [insert_job].
  - constructor; constructor.
  - apply StronglySorted_inv in Hs. destruct Hs as [Hs Hall].
    destruct (next_run (snd y) <? next_run (snd x))%nat eqn:E.
    + apply Nat.ltb_lt in E. constructor.
      * apply IH; [exact Hs|]. intros z Hz. apply Hlater. right. exact Hz.
      * apply Forall_forall. intros z Hz.
        apply (Permutation_in _ (insert_job_perm x l)) in Hz.
        destruct Hz as [<- | Hz].
        -- left. exact E.
        -- rewrite Forall_forall in Hall. apply Hall, Hz.
    + apply Nat.ltb_ge in E.
      assert (Hxy : runs_before x y).
      { pose proof (Hlater y (or_introl eq_refl)). unfold runs_before. lia. }
      constructor; [constructor; assumption|].
      constructor; [exact Hxy|].
      apply Forall_forall. intros z Hz. rewrite Forall_forall in Hall.
      exact (runs_before_trans Hxy (Hall z Hz)).
Qed.

Lemma sort_jobs_sorted l :
  StronglySorted (fun x y : nat * job => fst x < fst y) l ->
  StronglySorted runs_before (sort_jobs l).
Proof.
  induction 1 as [|x l Hs IH Hall]; cbn [sort_jobs]; [constructor|].
  apply insert_job_sorted; [exact IH|].
  intros y Hy. apply (Permutation_in _ (sort_jobs_perm l)) in Hy.
  rewrite Forall_forall in Hall. apply Hall, Hy.
Qed.

Lemma due_pairs_sorted s : StronglySorted runs_before (due_pairs s).
Proof.
  unfold due_pairs. apply sort_jobs_sorted, filter_sorted, combine_seq_sorted.
Qed.

Lemma runnable_jobs_due_pairs s : runnable_jobs s = map fst (due_pairs s).
Proof. reflexivity. Qed.

Lemma in_due_pairs s k j :
  In (k, j) (due_pairs s)
  <-> nth_error (jobs s) k = Some j /\ should_run (clock s) j = true.
Proof.
  unfold due_pairs. split.
  - intros Hin. apply (Permutation_in _ (sort_jobs_perm _)) in Hin.
    apply filter_In in Hin. destruct Hin as [Hin Hdue].
    apply in_combine_seq in Hin. rewrite Nat.sub_0_r in Hin. tauto.
  - intros [Hnth Hdue].
    apply (Permutation_in _ (Permutation_sym (sort_jobs_perm _))).
    apply filter_In. split; [|exact Hdue].
    apply in_combine_seq. rewrite Nat.sub_0_r. split; [lia | exact Hnth].
Qed.

Lemma sorted_after A (R : A -> A -> Prop) (l1 : list A) : forall x l2,
  StronglySorted R (l1 ++ x :: l2) -> Forall (R x) l2.
Proof.
  induction l1 as [|a l1 IH]; intros x l2 Hs; cbn in Hs;
    apply StronglySorted_inv in Hs; destruct Hs as [Hs Hall].
  - exact Hall.
  - exact (IH x l2 Hs).
Qed.

(** A due job that is to run before every other due job is the first to be
    called. *)
Lemma due_pairs_head s k j :
  In (k, j) (due_pairs s) ->
  (forall k' j', In (k', j') (due_pairs s) -> k' <> k -> runs_before (k, j) (k', j')) ->
  exists rest, due_pairs s = (k, j) :: rest.
Proof.
  intros Hin Hfirst.
  pose proof (due_pairs_sorted s) as Hs.
  destruct (due_pairs s) as [|[k0 j0] rest] eqn:E; [destruct Hin|].
  destruct (Nat.eq_dec k0 k) as [->|Hne].
  - assert (Hj0 : In (k, j0) (due_pairs s)) by (rewrite E; left; reflexivity).
    assert (Hj : In (k, j) (due_pairs s)) by (rewrite E; exact Hin).
    apply in_due_pairs in Hj0. apply in_due_pairs in Hj.
    destruct Hj0 as [Hj0 _], Hj as [Hj _]. rewrite Hj0 in Hj. injection Hj as ->.
    exists rest. reflexivity.
  - exfalso. destruct Hin as [Heq | Hin]; [injection Heq as -> _; contradiction|].
    apply StronglySorted_inv in Hs. destruct Hs as [_ Hall].
    rewrite Forall_forall in Hall.
    apply (runs_before_asym (Hall _ Hin)).
    apply Hfirst; [left; reflexivity | exact Hne].
Qed.

Lemma nth_error_set_job_same i j j' : forall l,
  nth_error l i = Some j -> nth_error (set_job i j' l) i = Some j'.
Proof.
  induction i as [|i IH]; intros [|x l] H; cbn in *; try discriminate.
  - reflexivity.
  - exact (IH l H).
Qed.

Section RetryFacts.

Variables (env : Env) (cfg : Config).

(** After a job has been called, every job is as before or has been given a
    due time at least one period after the call began; the called job is
    in the second case when its function returned. *)
Lemma run_job_touch i s :
  (forall k j',
     nth_error (jobs (state_of (run_job env cfg i s))) k = Some j' ->
     nth_error (jobs s) k = Some j' \/ clock s + period j' <= next_run j') /\
  (result_of (run_job env cfg i s) = Ret tt ->
   forall j',
     nth_error (jobs (state_of (run_job env cfg i s))) i = Some j' ->
     clock s + period j' <= next_run j').
Proof.
  unfold run_job.
  destruct (nth_error (jobs s) i) as [j|] eqn:Hj.
  2:{ cbn [state_of result_of fst snd]. split; [auto|].
      intros _ j' H. rewrite Hj in H. discriminate H. }
  unfold bind, emit.
  destruct (quiet_cycle_body env cfg (job_func j) s) as (Hjobs & Hclock & _).
  destruct (cycle_body env cfg (job_func j) s) as [[[v|e] s1] ev1];
    cbn [state_of events_of result_of fst snd] in *.
  - unfold schedule_next_run. rewrite Hjobs, Hj.
    cbn [state_of events_of result_of fst snd jobs clock].
    assert (Hsame : forall j',
      nth_error (set_job i (mkJob (job_func j) (period j) (clock s1 + period j)) (jobs s)) i
      = Some j' -> clock s + period j' <= next_run j').
    { intros j' H. rewrite nth_error_set_job_same with (j := j) in H by exact Hj.
      injection H as <-. cbn. lia. }
    split; [|intros _; exact Hsame].
    intros k j' H. destruct (Nat.eq_dec k i) as [->|Hne].
    + right. exact (Hsame j' H).
    + left. rewrite nth_error_set_job_other in H by exact Hne. exact H.
  - split; [|discriminate]. intros k j' H. left. rewrite Hjobs in H. exact H.
Qed.

Lemma run_jobs_touch due : forall s k j',
  nth_error (jobs (state_of (run_jobs env cfg due s))) k = Some j' ->
  nth_error (jobs s) k = Some j' \/ clock s + period j' <= next_run j'.
Proof.
  induction due as [|i rest IH]; intros s k j'.
  - cbn. auto.
  - rewrite run_jobs_cons.
    pose proof (run_job_spec env cfg i s) as Hspec. cbv zeta in Hspec.
    destruct (run_job_touch i s) as [Htouch _].
    destruct (run_job env cfg i s) as [[[[]|e] s1] ev1];
      cbn [state_of result_of events_of fst snd] in *;
      destruct Hspec as (Hclock & _).
    + intros H. destruct (IH s1 k j' H) as [Hsame | Hlater].
      * exact (Htouch k j' Hsame).
      * right. lia.
    + exact (Htouch k j').
Qed.

(** When a tick ends in an exception, the jobs called before the one that
    raised have all been given a later due time. *)
Lemma run_jobs_raise_done due : forall s e,
  result_of (run_jobs env cfg due s) = Raise e ->
  exists done i rest,
    due = (done ++ i :: rest)%list /\
    (forall k, ~ In k done ->
       nth_error (jobs (state_of (run_jobs env cfg due s))) k = nth_error (jobs s) k) /\
    (forall k j',
       In k done ->
       nth_error (jobs (state_of (run_jobs env cfg due s))) k = Some j' ->
       clock s + period j' <= next_run j') /\
    cycles_run (events_of (run_jobs env cfg due s)) = flat_map (called s) (done ++ [i]).
Proof.
  induction due as [|i rest IH]; intros s e.
  - discriminate.
  - rewrite run_jobs_cons.
    pose proof (run_job_spec env cfg i s) as Hspec. cbv zeta in Hspec.
    destruct (run_job_touch i s) as [_ Hdone].
    destruct (run_job env cfg i s) as [[[[]|e1] s1] ev1];
      cbn [state_of result_of events_of fst snd] in *;
      destruct Hspec as (Hclock & Hfunc & _ & Hcalled & Hother & Hraise).
    + intros Hr. destruct (IH s1 e Hr) as (done & i' & rest' & Hdue & Hkeep & Hlater & Hrun).
      exists (i :: done), i', rest'. split; [rewrite Hdue; reflexivity|]. split; [|split].
      * intros k Hk. rewrite Hkeep, Hother; auto.
        -- intros ->. apply Hk. left. reflexivity.
        -- intros Hin. apply Hk. right. exact Hin.
      * intros k j' Hk Hnth.
        destruct (in_dec Nat.eq_dec k done) as [Hin | Hnotin].
        -- pose proof (Hlater k j' Hin Hnth). lia.
        -- destruct Hk as [<- | Hk]; [|contradiction].
           rewrite (Hkeep i Hnotin) in Hnth. exact (Hdone eq_refl j' Hnth).
      * rewrite cycles_run_app, Hcalled, Hrun. cbn [app flat_map]. f_equal.
        apply flat_map_ext. intros k. apply called_stable, Hfunc.
    + intros _. exists [], i, rest. split; [reflexivity|]. split; [|split].
      * intros k _. rewrite (Hraise e1 eq_refl). reflexivity.
      * intros k j' [].
      * cbn [app flat_map]. rewrite app_nil_r. exact Hcalled.
Qed.


(** X10: when a tick ends in an exception and every job has a positive
    period, the job whose function raised is the first one called in the
    next iteration, ahead of every other due job; if its function raises
    again, that iteration calls nothing else. *)
Theorem failed_job_is_called_first s e s1 ev1 :
  (forall j, In j (jobs s) -> 0 < period j) ->
  run_pending env cfg s = (Raise e, s1, ev1) ->
  exists done i rest c,
    runnable_jobs s = (done ++ i :: rest)%list /\
    cycle_at s i = Some c /\
    cycles_run ev1 = (flat_map (called s) done ++ [c])%list /\
    (exists rest', runnable_jobs (advance s1 10) = i :: rest') /\
    (forall e' s2 ev2,
       run_job env cfg i (advance s1 10) = (Raise e', s2, ev2) ->
       run_pending env cfg (advance s1 10) = (Raise e', s2, ev2) /\
       cycles_run ev2 = [c]).
Proof.
  intros Hperiod H. unfold run_pending in H.
  destruct (@run_jobs_raise_done (runnable_jobs s) s e)
    as (done & i & rest & Hdue & Hkeep & Hlater & Hrun).
  { rewrite H. reflexivity. }
  destruct (run_jobs_frame env cfg (runnable_jobs s) s) as (Hclock & Hfunc & Hper & _).
  rewrite H in Hkeep, Hlater, Hrun, Hclock, Hfunc, Hper.
  cbn [state_of events_of fst snd] in *.
  pose proof (NoDup_runnable_jobs s) as Hnd. rewrite Hdue in Hnd.
  assert (Hi : In i (runnable_jobs s)).
  { rewrite Hdue. apply in_or_app. right. left. reflexivity. }
  assert (Hinot : ~ In i done).
  { intros Hin. eapply NoDup_app_disjoint; [exact Hnd | exact Hin | left; reflexivity]. }
  apply in_runnable_jobs in Hi. destruct Hi as (ji & Hji & Hidue).
  assert (Hidue' : next_run ji <= clock s).
  { unfold should_run in Hidue. apply Nat.leb_le, Hidue. }
  set (s' := advance s1 10).
  assert (Hji' : nth_error (jobs s') i = Some ji).
  { cbn [s' advance jobs]. rewrite (Hkeep i Hinot). exact Hji. }
  assert (Hin' : In (i, ji) (due_pairs s')).
  { apply in_due_pairs. split; [exact Hji'|].
    unfold should_run. cbn [s' advance clock]. apply Nat.leb_le. lia. }
  assert (Hhead : exists rest', due_pairs s' = (i, ji) :: rest').
  { apply due_pairs_head; [exact Hin'|].
    intros k jk Hk Hne. apply in_due_pairs in Hk. destruct Hk as [Hjk _].
    cbn [s' advance jobs] in Hjk.
    destruct (in_dec Nat.eq_dec k done) as [Hkdone | Hknot].
    - left. cbn [fst snd].
      pose proof (Hlater k jk Hkdone Hjk) as Hl.
      assert (Hp : 0 < period jk).
      { assert (Hmap : nth_error (map period (jobs s1)) k = Some (period jk))
          by (rewrite nth_error_map, Hjk; reflexivity).
        rewrite Hper, nth_error_map in Hmap.
        destruct (nth_error (jobs s) k) as [j0|] eqn:Hj0; [|discriminate Hmap].
        injection Hmap as <-. apply Hperiod. eapply nth_error_In, Hj0. }
      lia.
    - rewrite (Hkeep k Hknot) in Hjk.
      destruct (should_run (clock s) jk) eqn:Hkdue.
      + assert (Hkin : In (k, jk) (due_pairs s)) by (apply in_due_pairs; auto).
        pose proof (due_pairs_sorted s) as Hs.
        rewrite runnable_jobs_due_pairs in Hdue.
        apply map_eq_app in Hdue. destruct Hdue as (P & R & HPR & HP & HR).
        apply map_eq_cons in HR. destruct HR as (x & R' & -> & Hx & HR').
        rewrite HPR in Hs, Hkin.
        apply sorted_after in Hs. rewrite Forall_forall in Hs.
        assert (Hxi : x = (i, ji)).
        { destruct x as [xi xj]. cbn in Hx. subst xi.
          assert (Hxin : In (i, xj) (due_pairs s)).
          { rewrite HPR. apply in_or_app. right. left. reflexivity. }
          apply in_due_pairs in Hxin. destruct Hxin as [Hxj _].
          rewrite Hji in Hxj. injection Hxj as <-. reflexivity. }
        subst x. apply Hs.
        apply in_app_or in Hkin. destruct Hkin as [HkP | [Heq | HkR]].
        * exfalso. apply Hknot. rewrite <- HP.
          apply in_map_iff. exists (k, jk). split; [reflexivity | exact HkP].
        * injection Heq as -> _. contradiction.
        * exact HkR.
      + left. cbn [fst snd]. unfold should_run in Hkdue.
        apply Nat.leb_gt in Hkdue. lia. }
  destruct Hhead as [rest' Hhead].
  assert (Hcalled : called s i = [job_func ji]).
  { unfold called, cycle_at. rewrite Hji. reflexivity. }
  exists done, i, rest, (job_func ji).
  split; [exact Hdue|].
  split; [unfold cycle_at; rewrite Hji; reflexivity|].
  split.
  { rewrite Hrun, flat_map_app. cbn [flat_map]. rewrite Hcalled, app_nil_r. reflexivity. }
  split.
  { exists (map fst rest'). rewrite runnable_jobs_due_pairs, Hhead. reflexivity. }
  intros e' s2 ev2 Hjob.
  unfold run_pending. fold s'.
  rewrite runnable_jobs_due_pairs, Hhead. cbn [map fst].
  rewrite run_jobs_cons, Hjob. split; [reflexivity|].
  pose proof (run_job_spec env cfg i s') as Hspec. cbv zeta in Hspec.
  rewrite Hjob in Hspec. cbn [state_of events_of result_of fst snd] in Hspec.
  destruct Hspec as (_ & _ & _ & Hc & _).
  rewrite Hc. unfold called, cycle_at. rewrite Hji'. reflexivity.
Qed.

End RetryFacts.

(** ** A cycle that fails for good

    The farming job has the shortest period, so from its first due time on
    it heads the list of every tick; while its function keeps raising, its
    due time is never moved and no tick gets past it. *)

Lemma run_job_raises env cfg i s j e :
  nth_error (jobs s) i = Some j ->
  result_of (cycle_body env cfg (job_func j) s) = Raise e ->
  result_of (run_job env cfg i s) = Raise e.
Proof.
  intros Hj Hbody. unfold run_job. rewrite Hj. unfold bind, emit.
  destruct (cycle_body env cfg (job_func j) s) as [[[v|e'] s1] ev1];
    cbn [result_of fst] in *; [discriminate Hbody|].
  injection Hbody as ->. reflexivity.
Qed.

Lemma farming_cycle_meets_array s :
  result_of (farming_cycle array_activity_env demo_config s)
  = Raise (AttributeError "'list' object has no attribute 'get'").
Proof.
  assert (Hcall : safe_request array_activity_env demo_config GET
                    (activity_url demo_config) None s
                  = (Ret (PList [PInt 1]),
                     after_request array_activity_env demo_config GET
                                   (activity_url demo_config) None s,
                     [EvRequest (build_request demo_config GET
                                               (activity_url demo_config) None)])).
  { apply safe_request_from_ok. reflexivity. }
  assert (Hread : get_activity_score array_activity_env demo_config s
                  = (Raise (AttributeError "'list' object has no attribute 'get'"),
                     after_request array_activity_env demo_config GET
                                   (activity_url demo_config) None s,
                     [EvRequest (build_request demo_config GET
                                               (activity_url demo_config) None)])).
  { unfold get_activity_score.
    rewrite (@read_after_request array_activity_env demo_config (activity_url demo_config)
               "activityScore" (PInt 0) s (PList [PInt 1]))
      by (rewrite Hcall; reflexivity).
    rewrite Hcall. reflexivity. }
  destruct (farming_cycle_aborts array_activity_env demo_config s) as [Habort _].
  rewrite (Habort _ _ _ Hread). reflexivity.
Qed.

Lemma farming_heads_schedule s :
  jobs s = schedule_at_zero ->
  900 <= clock s ->
  exists rest, runnable_jobs s = 0 :: rest.
Proof.
  intros Hjobs Hdue. unfold runnable_jobs, should_run. rewrite Hjobs.
  unfold schedule_at_zero.
  cbn [List.length seq combine filter snd next_run].
  rewrite (proj2 (Nat.leb_le 900 (clock s)) Hdue).
  destruct (3600 <=? clock s)%nat; destruct (1800 <=? clock s)%nat;
    eexists; cbv; reflexivity.
Qed.

Lemma loop_body_starved s :
  jobs s = schedule_at_zero ->
  jobs (state_of (loop_body array_activity_env demo_config s)) = schedule_at_zero /\
  forall c,
    In c (cycles_run (events_of (loop_body array_activity_env demo_config s))) ->
    c = Farming.
Proof.
  intros Hjobs. destruct (le_lt_dec 900 (clock s)) as [Hdue | Hearly].
  - destruct (farming_heads_schedule s Hjobs Hdue) as [rest Hrest].
    assert (Hfirst : nth_error (jobs s) 0 = Some (mkJob Farming 900 900))
      by (rewrite Hjobs; reflexivity).
    pose proof (run_job_raises array_activity_env demo_config 0 s Hfirst
                  (farming_cycle_meets_array s)) as Hraise.
    pose proof (run_job_spec array_activity_env demo_config 0 s) as Hjob.
    cbv zeta in Hjob. destruct Hjob as (_ & _ & _ & Hcalled & _ & Hkeep).
    assert (Hrun : run_pending array_activity_env demo_config s
                   = (Raise (AttributeError "'list' object has no attribute 'get'"),
                      state_of (run_job array_activity_env demo_config 0 s),
                      events_of (run_job array_activity_env demo_config 0 s))).
    { unfold run_pending. rewrite Hrest, run_jobs_cons.
      destruct (run_job array_activity_env demo_config 0 s) as [[[[]|e] s1] ev1];
        cbn [result_of fst] in Hraise; [discriminate Hraise|].
      injection Hraise as ->. reflexivity. }
    rewrite (loop_body_raise _ _ _ Hrun).
    change (state_of (?a, ?b, ?c)) with b. change (events_of (?a, ?b, ?c)) with c.
    split.
    + cbn [advance jobs]. rewrite (Hkeep _ Hraise). exact Hjobs.
    + intros c. rewrite cycles_run_app, Hcalled. cbn [cycles_run flat_map app].
      rewrite app_nil_r. unfold called, cycle_at. rewrite Hfirst.
      cbn. intros [H | []]. symmetry. exact H.
  - rewrite loop_body_idle.
    + change (state_of (?a, ?b, ?c)) with b. change (events_of (?a, ?b, ?c)) with c.
      split; [exact Hjobs | intros c []].
    + intros j Hj. rewrite Hjobs in Hj.
      destruct Hj as [<- | [<- | [<- | []]]]; cbn [next_run]; lia.
Qed.

Lemma loop_starved fuel : forall s,
  jobs s = schedule_at_zero ->
  forall c,
    In c (cycles_run (events_of (loop array_activity_env demo_config fuel s))) ->
    c = Farming.
Proof.
  induction fuel as [|fuel IH]; intros s Hjobs c.
  - intros [].
  - rewrite loop_succ. change (events_of (?a, ?b, ?c)) with c.
    destruct (loop_body_starved s Hjobs) as [Hjobs' Honly].
    rewrite cycles_run_app. intros Hin. apply in_app_or in Hin.
    destruct Hin as [Hin | Hin]; [exact (Honly c Hin) | exact (IH _ Hjobs' c Hin)].
Qed.

(** C7 as the specification words it fails: the activity endpoint answers
    with an array for good, so the farming cycle raises every time it is
    called.  The loop goes on, but however long it runs it calls no cycle
    but the farming cycle: after 500 iterations the clock is at 4420, the
    compounding job has been due since 3600 and the staking check since
    1800, their due times are as registered, and the farming cycle has been
    called 320 times. *)
Lemma start_bot_starves_behind_failing_cycle :
  (forall fuel,
     ~ In Compounding
          (cycles_run (events_of (start_bot array_activity_env demo_config fuel
                                            (initial_state 0)))) /\
     ~ In StakingCheck
          (cycles_run (events_of (start_bot array_activity_env demo_config fuel
                                            (initial_state 0))))) /\
  let run := start_bot array_activity_env demo_config 500 (initial_state 0) in
  result_of run = Ret tt /\
  state_of run = mkState 4420 320 schedule_at_zero /\
  runnable_jobs (state_of run) = [0; 2; 1] /\
  cycles_run (events_of run) = repeat Farming 320.
Proof.
  split.
  - intros fuel.
    assert (Honly : forall c,
      In c (cycles_run (events_of (start_bot array_activity_env demo_config fuel
                                             (initial_state 0)))) ->
      c = Farming).
    { intros c. rewrite start_bot_registers. cbv zeta.
      change (events_of (?a, ?b, ?c)) with c.
      change (cycles_run (EvLog ?l ?m :: ?evs)) with (cycles_run evs).
      apply loop_starved. reflexivity. }
    split; intros Hin; apply Honly in Hin; discriminate Hin.
  - cbv zeta.
    split; [vm_compute; reflexivity|].
    split; [vm_compute; reflexivity|].
    split; [vm_compute; reflexivity|].
    vm_compute; reflexivity.
Qed.

(** ** The further properties at work *)

(** A server that times out once: both requests are the same. *)
Lemma safe_request_repeats_one_request_witness :
  let run := safe_request (flaky_env (PBool true)) demo_config GET peak_url None
                          (initial_state 0) in
  let r := build_request demo_config GET peak_url None in
  In (EvRequest r) (events_of run) /\
  count_requests (events_of run) = 2 /\
  req_headers r = [("Authorization", "Bearer secret");
                   ("Content-Type", "application/json")].
Proof.
  intros run r.
  assert (Hin : In (EvRequest r) (events_of run)) by (left; reflexivity).
  split; [exact Hin|]. split; [reflexivity|].
  destruct (@safe_request_repeats_one_request (flaky_env (PBool true)) demo_config
              GET peak_url None (initial_state 0) r Hin)
    as (_ & _ & _ & _ & Hheaders).
  exact Hheaders.
Defined.

(** A server that answers at once: the request and no log line. *)
Lemma safe_request_logs_failures_only_witness :
  let env := constant_env (PDict [("isPeak", PBool true)]) in
  failures_before env (build_request demo_config GET peak_url None) 0 MAX_RETRIES = 0 /\
  events_of (safe_request env demo_config GET peak_url None (initial_state 0))
  = [EvRequest (build_request demo_config GET peak_url None)].
Proof.
  intros env. split; [reflexivity|].
  destruct (@safe_request_logs_failures_only env demo_config GET peak_url None
              (initial_state 0)) as [_ Hquiet].
  apply Hquiet. reflexivity.
Defined.

(** The payload a call returns is the one an attempt of that call got; the
    exception that leaves a call is the one an attempt of that call raised. *)
Lemma safe_request_outcome_witness :
  let env := flaky_env (PDict [("isPeak", PBool true)]) in
  let s := initial_state 0 in
  let e := ValueError "Exceeds the limit (4300 digits) for integer string conversion: value has 5000 digits; use sys.set_int_max_str_digits() to increase the limit" in
  (result_of (safe_request env demo_config GET peak_url None s)
   = Ret (PDict [("isPeak", PBool true)]) /\
   PDict [("isPeak", PBool true)] <> PNone /\
   succeeds_with env (build_request demo_config GET peak_url None) (sent s)
                 (PDict [("isPeak", PBool true)])) /\
  (result_of (safe_request oversized_claim_env demo_config POST claim_url
                           (Some (wallet_payload demo_config)) s)
   = Raise e /\
   raises_with oversized_claim_env
               (build_request demo_config POST claim_url (Some (wallet_payload demo_config)))
               (sent s) e).
Proof.
  intros env s e. split.
  - assert (Hr : result_of (safe_request env demo_config GET peak_url None s)
                 = Ret (PDict [("isPeak", PBool true)])) by reflexivity.
    assert (Hne : PDict [("isPeak", PBool true)] <> PNone) by discriminate.
    split; [exact Hr|]. split; [exact Hne|].
    destruct (@safe_request_outcome env demo_config GET peak_url None s)
      as (_ & Horigin & _).
    exact (Horigin _ Hr Hne).
  - assert (Hr : result_of (safe_request oversized_claim_env demo_config POST claim_url
                              (Some (wallet_payload demo_config)) s)
                 = Raise e) by reflexivity.
    split; [exact Hr|].
    destruct (@safe_request_outcome oversized_claim_env demo_config POST claim_url
                (Some (wallet_payload demo_config)) s)
      as (_ & _ & Horigin).
    exact (Horigin _ Hr).
Defined.

(** Scenario C again: the amount comes back as the float the server sent. *)
Lemma read_operations_value_or_default_witness :
  let s := initial_state 0 in
  let data := PDict [("unclaimed", PFloat (S754_finite false 5 (-1)))] in
  result_of (safe_request rich_env demo_config GET (read_url demo_config ReadRewards) None s)
  = Ret data /\
  is_dict data = true /\
  get_current_rewards rich_env demo_config s
  = (Ret (PFloat (S754_finite false 5 (-1))), mkState 1 1 [],
     [EvRequest (build_request demo_config GET (rewards_url demo_config) None);
      EvLog Info "Current unclaimed rewards: 2.5 TENEO"]).
Proof.
  intros s data.
  assert (Hr : result_of (safe_request rich_env demo_config GET
                            (read_url demo_config ReadRewards) None s) = Ret data)
    by reflexivity.
  split; [exact Hr|]. split; [reflexivity|].
  pose proof (@read_operations_value_or_default rich_env demo_config ReadRewards s data
                Hr (or_introl eq_refl)) as H.
  cbv zeta in H. cbn [run_read] in H. rewrite H. reflexivity.
Defined.

(** An array where an object is expected. *)
Lemma read_operations_raise_on_non_object_witness :
  let s := initial_state 0 in
  result_of (safe_request recovering_env demo_config GET
               (read_url demo_config ReadActivity) None s) = Ret (PList [PInt 1]) /\
  truthy (PList [PInt 1]) = true /\
  is_dict (PList [PInt 1]) = false /\
  get_activity_score recovering_env demo_config s
  = (Raise (AttributeError "'list' object has no attribute 'get'"), mkState 1 1 [],
     [EvRequest (build_request demo_config GET (activity_url demo_config) None)]).
Proof.
  intros s.
  assert (Hr : result_of (safe_request recovering_env demo_config GET
                            (read_url demo_config ReadActivity) None s)
               = Ret (PList [PInt 1])) by reflexivity.
  split; [exact Hr|]. split; [reflexivity|]. split; [reflexivity|].
  pose proof (@read_operations_raise_on_non_object recovering_env demo_config
                ReadActivity s (PList [PInt 1]) Hr eq_refl eq_refl) as H.
  cbn [run_read] in H. rewrite H. reflexivity.
Defined.

(** A [null] score, and an amount sent as text. *)
Lemma cycles_raise_on_non_numeric_signal_witness :
  let s := initial_state 0 in
  let activity := get_activity_score null_score_env demo_config s in
  let peak := is_peak_time null_score_env demo_config (state_of activity) in
  let rewards := get_current_rewards text_amount_env demo_config s in
  activity = (Ret PNone, state_of activity, events_of activity) /\
  peak = (Ret (PBool true), state_of peak, events_of peak) /\
  rewards = (Ret (PStr "2.5"), state_of rewards, events_of rewards) /\
  result_of (farming_cycle null_score_env demo_config s)
  = Raise (TypeError "'>=' not supported between instances of 'NoneType' and 'int'") /\
  result_of (compound_cycle text_amount_env demo_config s)
  = Raise (TypeError "'>=' not supported between instances of 'str' and 'float'").
Proof.
  intros s activity peak rewards.
  assert (H1 : activity = (Ret PNone, state_of activity, events_of activity))
    by reflexivity.
  assert (H2 : peak = (Ret (PBool true), state_of peak, events_of peak)) by reflexivity.
  assert (H3 : rewards = (Ret (PStr "2.5"), state_of rewards, events_of rewards))
    by reflexivity.
  split; [exact H1|]. split; [exact H2|]. split; [exact H3|].
  destruct (cycles_raise_on_non_numeric_signal null_score_env demo_config s)
    as [Hfarm _].
  destruct (cycles_raise_on_non_numeric_signal text_amount_env demo_config s)
    as [_ Hcompound].
  rewrite (Hfarm _ _ _ _ _ _ H1 H2 eq_refl).
  rewrite (Hcompound _ _ _ H3 eq_refl).
  split; reflexivity.
Defined.

(** The API is down. *)
Lemma cycles_when_reads_fail_witness :
  let s := initial_state 0 in
  call_fails offline_env (build_request demo_config GET (activity_url demo_config) None)
             (sent s) /\
  call_fails offline_env (build_request demo_config GET (rewards_url demo_config) None)
             (sent s) /\
  call_fails offline_env (build_request demo_config GET (staking_url demo_config) None)
             (sent s) /\
  requests_to POST farm_url (events_of (farming_cycle offline_env demo_config s)) = [] /\
  requests_to POST claim_url (events_of (compound_cycle offline_env demo_config s)) = [] /\
  requests_to POST stake_url (events_of (check_staking offline_env demo_config s)) <> [].
Proof.
  intros s.
  assert (Hdown : forall r, call_fails offline_env r (sent s))
    by (intros r i _; reflexivity).
  destruct (cycles_when_reads_fail offline_env demo_config s)
    as (Hfarm & Hcompound & Hstake).
  split; [apply Hdown|]. split; [apply Hdown|]. split; [apply Hdown|].
  split; [exact (Hfarm (Hdown _))|].
  split; [rewrite (Hcompound (Hdown _)); reflexivity|].
  exact (proj1 (Hstake (Hdown _))).
Defined.

(** A bot started at time 0. *)
Lemma start_bot_waits_for_first_interval_witness :
  jobs (initial_state 0) = [] /\
  180 <= 180 /\
  start_bot offline_env demo_config 180 (initial_state 0)
  = (Ret tt,
     mkState 900 0 [mkJob Farming 900 900; mkJob Compounding 3600 3600;
                    mkJob StakingCheck 1800 1800],
     EvLog Info "Teneo Bot Started âœ…" :: repeat (EvSleep 5) 180) /\
  cycles_run (events_of (start_bot offline_env demo_config 181 (initial_state 0)))
  = [Farming].
Proof.
  destruct (@start_bot_waits_for_first_interval offline_env demo_config
              (initial_state 0) eq_refl) as [Hidle Hfirst].
  split; [reflexivity|]. split; [lia|].
  split; [exact (Hidle 180 (le_n 180)) | exact Hfirst].
Defined.

(** The farming cycle meets a JSON array: it heads the next list. *)
Lemma failed_job_is_called_first_witness :
  let s := mkState 900 0 [mkJob Farming 900 900; mkJob Compounding 3600 3600;
                          mkJob StakingCheck 1800 1800] in
  let crash := run_pending recovering_env demo_config s in
  (forall j, In j (jobs s) -> 0 < period j) /\
  crash = (Raise (AttributeError "'list' object has no attribute 'get'"),
           state_of crash, events_of crash) /\
  exists rest', runnable_jobs (advance (state_of crash) 10) = 0 :: rest'.
Proof.
  intros s crash.
  assert (Hperiod : forall j, In j (jobs s) -> 0 < period j).
  { intros j [<- | [<- | [<- | []]]]; cbn [period]; lia. }
  assert (Hcrash : crash = (Raise (AttributeError "'list' object has no attribute 'get'"),
                            state_of crash, events_of crash)) by reflexivity.
  split; [exact Hperiod|]. split; [exact Hcrash|].
  destruct (@failed_job_is_called_first recovering_env demo_config s _ _ _ Hperiod Hcrash)
    as (done & i & rest & c & Hdue & _ & _ & (rest' & Hnext) & _).
  assert (Hi : i = 0).
  { change (runnable_jobs s) with [0] in Hdue. destruct done as [|d done].
    - injection Hdue as <- _. reflexivity.
    - injection Hdue as _ Hdue. destruct done; discriminate Hdue. }
  subst i. exists rest'. exact Hnext.
Defined.

(** ** Everything the bot ever sends *)

Lemma sends_only_bind P A B (c : M A) (k : A -> M B) :
  sends_only P c -> (forall a, sends_only P (k a)) -> sends_only P (bind c k).
Proof.
  intros Hc Hk s r. specialize (Hc s r). unfold bind.
  destruct (c s) as [[[a|e] s1] ev1]; cbn [events_of snd] in Hc.
  - specialize (Hk a s1 r). destruct (k a s1) as [[res s2] ev2].
    cbn [events_of snd] in *. intros H. apply in_app_or in H. tauto.
  - exact Hc.
Qed.

Lemma sends_only_try P A (c : M A) (h : exn -> M A) :
  sends_only P c -> (forall e, sends_only P (h e)) -> sends_only P (try_except c h).
Proof.
  intros Hc Hh s r. specialize (Hc s r). unfold try_except.
  destruct (c s) as [[[a|e] s1] ev1]; cbn [events_of snd] in Hc.
  - exact Hc.
  - specialize (Hh e s1 r). destruct (h e s1) as [[res s2] ev2].
    cbn [events_of snd] in *. intros H. apply in_app_or in H. tauto.
Qed.

Lemma sends_only_if P A (b : bool) (c1 c2 : M A) :
  sends_only P c1 -> sends_only P c2 -> sends_only P (if b then c1 else c2).
Proof. destruct b; auto. Qed.

Lemma sends_only_ret P A (a : A) : sends_only P (ret a).
Proof. intros s r []. Qed.

Lemma sends_only_lift P A (o : outcome A) : sends_only P (lift o).
Proof. intros s r []. Qed.

Lemma sends_only_log P msg lvl : sends_only P (log msg lvl).
Proof. intros s r [H | []]. discriminate H. Qed.

Lemma sends_only_sleep P n : sends_only P (sleep n).
Proof. intros s r [H | []]. discriminate H. Qed.

Lemma sends_only_emit_run P c : sends_only P (emit (EvRun c)).
Proof. intros s r [H | []]. discriminate H. Qed.

Section TrafficFacts.

Variables (env : Env) (cfg : Config).

Lemma sends_only_safe_request (P : request -> Prop) method url json :
  P (build_request cfg method url json) ->
  sends_only P (safe_request env cfg method url json).
Proof.
  intros HP s r Hin. apply in_safe_request_from in Hin. subst r. exact HP.
Qed.

Ltac traffic :=
  repeat first
    [ apply sends_only_ret | apply sends_only_lift | apply sends_only_log
    | apply sends_only_sleep | apply sends_only_emit_run
    | apply sends_only_safe_request; unfold bot_request; tauto
    | apply sends_only_if
    | apply sends_only_bind; [|intros ?] ].

Lemma sends_only_farming_action strategy :
  strategy = "peak" \/ strategy = "standard" ->
  sends_only (bot_request cfg) (perform_farming_action env cfg strategy).
Proof.
  intros Hs. unfold perform_farming_action.
  apply sends_only_bind; [|intros data; traffic].
  apply sends_only_safe_request. unfold bot_request.
  destruct Hs as [-> | ->]; tauto.
Qed.

Lemma sends_only_cycle_body c : sends_only (bot_request cfg) (cycle_body env cfg c).
Proof.
  destruct c; cbn [cycle_body].
  - unfold farming_cycle, get_activity_score, is_peak_time.
    apply sends_only_bind; [traffic | intros activity].
    apply sends_only_bind; [traffic | intros peak].
    apply sends_only_bind; [traffic | intros _].
    apply sends_only_bind; [traffic | intros enough].
    apply sends_only_bind; [|intros; traffic].
    apply sends_only_if; [|traffic].
    apply sends_only_bind; [|intros; traffic].
    apply sends_only_farming_action.
    unfold strategy_of. destruct (truthy peak); auto.
  - unfold compound_cycle, get_current_rewards, claim_rewards, stake_rewards. traffic.
  - unfold check_staking, get_staking_status, stake_rewards. traffic.
Qed.

Lemma sends_only_run_job i : sends_only (bot_request cfg) (run_job env cfg i).
Proof.
  intros s r. unfold run_job.
  destruct (nth_error (jobs s) i) as [j|]; [|intros []].
  revert s r. change (sends_only (bot_request cfg)
    (emit (EvRun (job_func j)) ;; cycle_body env cfg (job_func j) ;;
     schedule_next_run i)).
  apply sends_only_bind; [apply sends_only_emit_run | intros _].
  apply sends_only_bind; [apply sends_only_cycle_body | intros _].
  intros s r. unfold schedule_next_run.
  destruct (nth_error (jobs s) i); intros [].
Qed.

Lemma sends_only_run_jobs due : sends_only (bot_request cfg) (run_jobs env cfg due).
Proof.
  induction due as [|i rest IH]; cbn [run_jobs].
  - apply sends_only_ret.
  - apply sends_only_bind; [apply sends_only_run_job | intros _; exact IH].
Qed.

Lemma sends_only_loop fuel : sends_only (bot_request cfg) (loop env cfg fuel).
Proof.
  induction fuel as [|fuel IH]; cbn [loop].
  - apply sends_only_ret.
  - apply sends_only_bind; [|intros _; exact IH].
    unfold loop_body. apply sends_only_try.
    + apply sends_only_bind; [|intros; apply sends_only_sleep].
      intros s r. unfold run_pending. apply sends_only_run_jobs.
    + intros e. traffic.
Qed.

(** X11: whatever the server answers and however long the bot runs, every
    request it sends is one of eight: the four reads, the farm action
    labelled "peak" or "standard", the claim and the stake; each goes to
    an address under [API_BASE] with the bearer header and a timeout of
    10. *)
Theorem start_bot_sends_only_bot_requests fuel s r :
  In (EvRequest r) (events_of (start_bot env cfg fuel s)) ->
  bot_request cfg r /\
  req_headers r = [("Authorization", "Bearer " ++ API_KEY cfg);
                   ("Content-Type", "application/json")] /\
  req_timeout r = 10 /\
  prefix API_BASE (req_url r) = true.
Proof.
  intros Hin.
  assert (Hbot : bot_request cfg r).
  { revert s r Hin. change (sends_only (bot_request cfg) (start_bot env cfg fuel)).
    unfold start_bot.
    apply sends_only_bind; [apply sends_only_log | intros _].
    apply sends_only_bind; [intros s r [] | intros _].
    apply sends_only_bind; [intros s r [] | intros _].
    apply sends_only_bind; [intros s r [] | intros _].
    apply sends_only_loop. }
  split; [exact Hbot|].
  unfold bot_request in Hbot.
  destruct Hbot as [-> | [-> | [-> | [-> | [-> | [-> | [-> | ->]]]]]]];
    repeat split; reflexivity.
Qed.

End TrafficFacts.

(** The 181st iteration of a bot started at time 0 reads the activity
    score. *)
Lemma start_bot_sends_only_bot_requests_witness :
  let r := build_request demo_config GET (activity_url demo_config) None in
  In (EvRequest r)
     (events_of (start_bot low_activity_env demo_config 181 (initial_state 0))) /\
  bot_request demo_config r /\
  prefix API_BASE (req_url r) = true.
Proof.
  intros r.
  assert (Hin : In (EvRequest r)
                   (events_of (start_bot low_activity_env demo_config 181
                                         (initial_state 0)))).
  { assert (E : exists before after,
               events_of (start_bot low_activity_env demo_config 181 (initial_state 0))
               = (before ++ EvRequest r :: after)%list).
    { eexists (EvLog Info _ :: repeat (EvSleep 5) 180 ++ [EvRun Farming])%list, _.
      vm_compute. reflexivity. }
    destruct E as (before & after & E). rewrite E. apply in_elt. }
  split; [exact Hin|].
  destruct (@start_bot_sends_only_bot_requests low_activity_env demo_config 181
              (initial_state 0) r Hin) as (Hbot & _ & _ & Hprefix).
  split; [exact Hbot | exact Hprefix].
Defined.

(** ** One call per due job *)

Lemma called_in s k c :
  In c (called s k) <-> exists j, nth_error (jobs s) k = Some j /\ job_func j = c.
Proof.
  unfold called, cycle_at.
  destruct (nth_error (jobs s) k) as [j|]; cbn.
  - split.
    + intros [<- | []]. exists j. auto.
    + intros (j' & H & <-). injection H as <-. left. reflexivity.
  - split; [intros [] | intros (j' & H & _); discriminate H].
Qed.

Lemma NoDup_called s k : NoDup (called s k).
Proof.
  unfold called. destruct (cycle_at s k); repeat constructor; intros [].
Qed.

Lemma NoDup_flat_map_called s l :
  NoDup (map job_func (jobs s)) ->
  NoDup l ->
  NoDup (flat_map (called s) l).
Proof.
  intros Hfuncs. induction 1 as [|k l Hnotin Hnd IH]; cbn [flat_map]; [constructor|].
  apply NoDup_app; [apply NoDup_called | exact IH|].
  intros c Hc Hin. apply in_flat_map in Hin. destruct Hin as (k' & Hk' & Hc').
  apply called_in in Hc. destruct Hc as (j & Hj & Hjc).
  apply called_in in Hc'. destruct Hc' as (j' & Hj' & Hjc').
  assert (Hk : k = k').
  { apply (proj1 (NoDup_nth_error (map job_func (jobs s))) Hfuncs).
    - rewrite length_map. apply nth_error_Some. rewrite Hj. discriminate.
    - rewrite !nth_error_map, Hj, Hj'. cbn. congruence. }
  subst k'. contradiction.
Qed.

Section TickFacts.

Variables (env : Env) (cfg : Config).

(** X12: when no two jobs share a function, as in [start_bot], a tick calls
    no cycle twice, and every cycle it calls belongs to a job that was due
    when the tick began. *)
Theorem run_pending_calls_due_jobs_once s :
  NoDup (map job_func (jobs s)) ->
  NoDup (cycles_run (events_of (run_pending env cfg s))) /\
  forall c,
    In c (cycles_run (events_of (run_pending env cfg s))) ->
    exists k j,
      nth_error (jobs s) k = Some j /\ job_func j = c /\
      should_run (clock s) j = true.
Proof.
  intros Hfuncs. unfold run_pending.
  assert (Hlist : exists called_jobs,
    cycles_run (events_of (run_jobs env cfg (runnable_jobs s) s))
    = flat_map (called s) called_jobs /\
    NoDup called_jobs /\
    forall k, In k called_jobs -> In k (runnable_jobs s)).
  { pose proof (NoDup_runnable_jobs s) as Hnd.
    destruct (result_of (run_jobs env cfg (runnable_jobs s) s)) as [[]|e] eqn:Hr.
    - exists (runnable_jobs s). split; [apply run_jobs_ret, Hr|]. auto.
    - destruct (@run_jobs_raise env cfg (runnable_jobs s) s e Hr)
        as (done & i & rest & Hdue & Hrun & _).
      exists (done ++ [i])%list. split; [exact Hrun|].
      rewrite Hdue in Hnd. split.
      + replace (done ++ i :: rest)%list with ((done ++ [i]) ++ rest)%list in Hnd
          by (rewrite <- app_assoc; reflexivity).
        exact (NoDup_app_remove_r _ _ Hnd).
      + intros k Hk. rewrite Hdue. apply in_app_or in Hk. apply in_or_app.
        destruct Hk as [Hk | [<- | []]]; [left; exact Hk | right; left; reflexivity]. }
  destruct Hlist as (called_jobs & Hrun & Hnd & Hsub).
  rewrite Hrun. split.
  - apply NoDup_flat_map_called; assumption.
  - intros c Hc. apply in_flat_map in Hc. destruct Hc as (k & Hk & Hc).
    apply called_in in Hc. destruct Hc as (j & Hj & Hjc).
    specialize (Hsub k Hk). apply in_runnable_jobs in Hsub.
    destruct Hsub as (j' & Hj' & Hdue). rewrite Hj in Hj'. injection Hj' as <-.
    exists k, j. auto.
Qed.

End TickFacts.

(** At the end of the first hour the farming job and the compounding job
    are due together; the staking check is not. *)
Lemma run_pending_calls_due_jobs_once_witness :
  let s := mkState 3600 0 [mkJob Farming 900 3600; mkJob Compounding 3600 3600;
                           mkJob StakingCheck 1800 3605] in
  NoDup (map job_func (jobs s)) /\
  cycles_run (events_of (run_pending low_activity_env demo_config s))
  = [Farming; Compounding] /\
  NoDup (cycles_run (events_of (run_pending low_activity_env demo_config s))).
Proof.
  intros s.
  assert (Hfuncs : NoDup (map job_func (jobs s))).
  { cbn. repeat constructor; cbn; intuition discriminate. }
  split; [exact Hfuncs|]. split; [reflexivity|].
  exact (proj1 (@run_pending_calls_due_jobs_once low_activity_env demo_config s Hfuncs)).
Defined.
